(** * Multi-Level Interview Agent: scoring pipeline and persistence contract

    A shallow embedding of the three scorers ([level1_screen],
    [level2_technical], [level3_scenario]), of the SQLite persistence
    layer and of the orchestrator [evaluate_candidate], followed by the
    properties proved about them.

    Modelling conventions.
    - A Python [str] is a [string] whose characters are the code points
      U+0000..U+00FF.
    - Python [int] is [Z]; Python [float] is idealised as a real number
      [R], so [round(x, n)] rounds the exact value half-to-even. The
      double the code computes differs from the exact value by rounding
      error, which decides the last digit when the exact value sits on or
      next to a rounding tie; statements about returned scores are
      therefore made about a value within [float_slack] (or
      [unit_roundoff]) of the exact one wherever that matters.
    - Operations that can raise ([/], [math.log], [max] of an empty
      sequence, SQLite constraint and binding failures) return in an
      error monad.
    - The dictionaries built by the scorers have a fixed key set and are
      records; [d.get(k, default)] on them is the field projection. *)

From Stdlib Require Import List String Ascii ZArith Bool Arith Lia.
From Stdlib Require Import Reals Lra.
From Stdlib Require Import DecimalString.
From Stdlib Require Import Permutation Sorted.
Import ListNotations.

Local Open Scope string_scope.
Local Open Scope list_scope.

Set Warnings "-register-all".

(* ================================================================== *)
(** * Python values and exceptions *)
(* ================================================================== *)

(** The JSON-like universe of values a caller can hand to the scorers
    and to the orchestrator. Dictionaries keep insertion order. *)
Inductive pyval : Type :=
| PyNone
| PyBool (b : bool)
| PyInt (z : Z)
| PyFloat (r : R)
| PyStr (s : string)
| PyList (l : list pyval)
| PyDict (d : list (string * pyval)).

Inductive pyerr : Type :=
| ZeroDivisionError
| ValueError
| OverflowError
| IntegrityError
| ProgrammingError.

Inductive result (A : Type) : Type :=
| Ok (a : A)
| Raise (e : pyerr).
Arguments Ok {A} a.
Arguments Raise {A} e.

Definition rbind {A B : Type} (m : result A) (k : A -> result B) : result B :=
  match m with
  | Ok a => k a
  | Raise e => Raise e
  end.

Declare Scope py_scope.
Delimit Scope py_scope with py.
Notation "x <- m ;; k" := (rbind m (fun x => k))
  (at level 61, m at next level, right associativity) : py_scope.

(** [[f(x) for x in xs]] where [f] may raise. *)
Fixpoint rmap {A B : Type} (f : A -> result B) (xs : list A) : result (list B) :=
  match xs with
  | [] => Ok []
  | x :: xs' =>
      rbind (f x) (fun y => rbind (rmap f xs') (fun ys => Ok (y :: ys)))
  end.

(** ** Builtins on numbers *)

Definition Rleb (x y : R) : bool := if Rle_dec x y then true else false.

(** [x / y]: raises [ZeroDivisionError] on a zero divisor. *)
Definition py_div (x y : R) : result R :=
  if Req_dec_T y 0 then Raise ZeroDivisionError else Ok (x / y)%R.

(** [math.log(x)]: raises [ValueError] outside the positive reals. *)
Definition py_log (x : R) : result R :=
  if Rlt_dec 0 x then Ok (ln x) else Raise ValueError.

(** [sum(xs)]: starts from 0 and adds from the left. *)
Definition py_sum (xs : list R) : R := fold_left Rplus xs 0%R.

Definition sumZ (xs : list Z) : Z := fold_left Z.add xs 0%Z.

(** [max(xs)]: raises [ValueError] on an empty sequence. *)
Definition py_max (xs : list Z) : result Z :=
  match xs with
  | [] => Raise ValueError
  | x :: xs' => Ok (fold_left Z.max xs' x)
  end.

(** Nearest integer, ties going to the even neighbour. *)
Definition round_half_even (y : R) : Z :=
  let f := Int_part y in
  let d := (y - IZR f)%R in
  if Rlt_dec d (1 / 2) then f
  else if Rlt_dec (1 / 2) d then (f + 1)%Z
  else if Z.even f then f else (f + 1)%Z.

(** [round(x, ndigits)] on a float: the decimal with [ndigits] digits
    nearest to [x], ties going to the even digit. Python applies it to
    the double it computed; here it is applied to the value [x] given. *)
Definition py_round (x : R) (ndigits : nat) : R :=
  (IZR (round_half_even (x * 10 ^ ndigits)) / 10 ^ ndigits)%R.

(** Truth value of an object, as tested by [if v:] and [not v]. *)
Definition py_truth (v : pyval) : bool :=
  match v with
  | PyNone => false
  | PyBool b => b
  | PyInt z => negb (Z.eqb z 0)
  | PyFloat r => if Req_dec_T r 0 then false else true
  | PyStr s => negb (String.eqb s "")
  | PyList l => match l with [] => false | _ => true end
  | PyDict d => match d with [] => false | _ => true end
  end.

(** ** Builtins on dictionaries *)

(** [d.get(k)]: the value stored under [k], if any. *)
Fixpoint dict_get {V : Type} (d : list (string * V)) (k : string) : option V :=
  match d with
  | [] => None
  | (k', v) :: d' => if String.eqb k' k then Some v else dict_get d' k
  end.

(** [k in d]. *)
Definition dict_has {V : Type} (d : list (string * V)) (k : string) : bool :=
  match dict_get d k with Some _ => true | None => false end.

(** [d.get(k, default)]. *)
Definition dict_get_default {V : Type} (d : list (string * V)) (k : string)
  (default : V) : V :=
  match dict_get d k with Some v => v | None => default end.

(** [d.values()]. *)
Definition dict_values {V : Type} (d : list (string * V)) : list V :=
  map snd d.

(** ** Builtins on strings *)

Definition code (c : ascii) : nat := nat_of_ascii c.

Definition between (lo hi n : nat) : bool := ((lo <=? n) && (n <=? hi))%nat.

(** One character of [str.lower()]. *)
Definition lower_char (c : ascii) : ascii :=
  let n := code c in
  if between 65 90 n || between 192 214 n || between 216 222 n
  then ascii_of_nat (n + 32) else c.

(** [s.lower()]. *)
Fixpoint py_lower (s : string) : string :=
  match s with
  | EmptyString => EmptyString
  | String c s' => String (lower_char c) (py_lower s')
  end.

(** The class [\w] of [re] on [str] patterns: alphanumeric characters
    and the underscore. *)
Definition is_word_char (c : ascii) : bool :=
  let n := code c in
  between 48 57 n || between 65 90 n || (n =? 95)%nat || between 97 122 n
  || (n =? 170)%nat || (n =? 178)%nat || (n =? 179)%nat || (n =? 181)%nat || (n =? 185)%nat
  || (n =? 186)%nat || between 188 190 n
  || between 192 214 n || between 216 246 n || between 248 255 n.

(** [str.isspace()] on one character. *)
Definition is_space (c : ascii) : bool :=
  let n := code c in
  between 9 13 n || between 28 32 n || (n =? 133)%nat || (n =? 160)%nat.

Definition is_empty (s : string) : bool :=
  match s with EmptyString => true | _ => false end.

Definition snoc (s : string) (c : ascii) : string := s ++ String c EmptyString.

(** [re.findall(r"\w+", s)]: the maximal runs of word characters, left to
    right; [cur] is the run being read. *)
Fixpoint findall_word_from (s cur : string) : list string :=
  match s with
  | EmptyString => if is_empty cur then [] else [cur]
  | String c s' =>
      if is_word_char c then findall_word_from s' (snoc cur c)
      else if is_empty cur then findall_word_from s' EmptyString
           else cur :: findall_word_from s' EmptyString
  end.

Definition findall_word (s : string) : list string :=
  findall_word_from s EmptyString.

Fixpoint lstrip (s : string) : string :=
  match s with
  | EmptyString => EmptyString
  | String c s' => if is_space c then lstrip s' else s
  end.

Fixpoint rstrip (s : string) : string :=
  match s with
  | EmptyString => EmptyString
  | String c s' =>
      let t := rstrip s' in
      if is_empty t && is_space c then EmptyString else String c t
  end.

(** [s.strip()]. *)
Definition py_strip (s : string) : string := rstrip (lstrip s).

Definition is_step_sep (c : ascii) : bool :=
  let n := code c in (n =? 46)%nat || (n =? 10)%nat.

(** [re.split(r"[.\n]+", s)]: the pieces between maximal runs of ['.'] and
    newline, empty pieces at both ends included. [in_sep] tells that the
    previous character belonged to a separator run. *)
Fixpoint split_steps_from (s cur : string) (in_sep : bool) : list string :=
  match s with
  | EmptyString => [cur]
  | String c s' =>
      if is_step_sep c then
        if in_sep then split_steps_from s' cur true
        else cur :: split_steps_from s' EmptyString true
      else split_steps_from s' (snoc cur c) false
  end.

Definition split_steps (s : string) : list string :=
  split_steps_from s EmptyString false.

(** [k in s] on strings: [k] occurs as a substring of [s]. *)
Fixpoint py_contains (k s : string) : bool :=
  String.prefix k s
  || match s with
     | EmptyString => false
     | String _ s' => py_contains k s'
     end.

(** ** Sets and counters of strings *)

Definition mem (x : string) (l : list string) : bool :=
  existsb (String.eqb x) l.

(** [s.add(x)]. *)
Definition set_add (s : list string) (x : string) : list string :=
  if mem x s then s else s ++ [x].

(** [set(xs)]: the distinct elements, listed by first occurrence. *)
Definition py_set (xs : list string) : list string :=
  fold_left set_add xs [].

(** [c[x] += 1] on a [Counter]. *)
Fixpoint counter_incr (c : list (string * Z)) (x : string) : list (string * Z) :=
  match c with
  | [] => [(x, 1%Z)]
  | (k, n) :: c' =>
      if String.eqb k x then (k, (n + 1)%Z) :: c'
      else (k, n) :: counter_incr c' x
  end.

(** [Counter(xs)]. *)
Definition Counter (xs : list string) : list (string * Z) :=
  fold_left counter_incr xs [].

(* ================================================================== *)
(** * The scorers *)
(* ================================================================== *)

Local Open Scope py_scope.

(** The dictionary [{"pass": .., "score": .., "reason": ..}] returned by
    Level 1 and Level 3. *)
Record score_result : Type := mk_score_result
  { pass : bool; score : R; reason : string }.

(** The dictionary [{"pass": .., "prob_pass": .., "reason": ..}] returned
    by Level 2. *)
Record prob_result : Type := mk_prob_result
  { l2_pass : bool; prob_pass : R; l2_reason : string }.

(** ** Level 1: lexical signal *)

Definition level1_screen (text : pyval) : result score_result :=
  match text with
  | PyStr s =>
      let tokens := findall_word (py_lower s) in
      if (List.length tokens <? 30)%nat then
        Ok {| pass := false; score := 0.0; reason := "Too short" |}
      else
        let counts := Counter tokens in
        let total := sumZ (dict_values counts) in
        terms <- rmap (fun c : Z =>
                         p <- py_div (IZR c) (IZR total) ;;
                         q <- py_div (IZR c) (IZR total) ;;
                         l <- py_log q ;;
                         Ok (p * l)%R)
                      (dict_values counts) ;;
        let entropy := (- py_sum terms)%R in
        log_total <- py_log (IZR total) ;;
        entropy_norm <- py_div entropy log_total ;;
        redundancy <- py_div (INR (List.length (py_set tokens))) (IZR total) ;;
        let score := (100 * (0.55 * Rmin entropy_norm 1.0 + 0.45 * redundancy))%R in
        Ok {| pass := Rleb 60 score;
              score := py_round score 2;
              reason := if Rleb 60 score then "OK" else "Low signal" |}
  | _ => Ok {| pass := false; score := 0.0; reason := "Invalid input" |}
  end.

(** ** Level 2: technical answers *)

(** One turn of the loop over [answers.values()]; the state is
    [(total, correct)]. *)
Definition grade_entry (tc : Z * Z) (v : pyval) : Z * Z :=
  let (total, correct) := tc in
  match v with
  | PyDict vd =>
      match dict_get vd "correct" with
      | Some x =>
          if py_truth x then ((total + 1)%Z, (correct + 1)%Z)
          else ((total + 1)%Z, correct)
      | None => tc
      end
  | _ => tc
  end.

Definition grade (d : list (string * pyval)) : Z * Z :=
  fold_left grade_entry (dict_values d) (0%Z, 0%Z).

Definition level2_technical (answers : pyval) : result prob_result :=
  match answers with
  | PyDict ((_ :: _) as d) =>
      let (total, correct) := grade d in
      if (total =? 0)%Z then
        Ok {| l2_pass := false; prob_pass := 0.0; l2_reason := "Malformed input" |}
      else
        prob <- py_div (IZR correct) (IZR total) ;;
        Ok {| l2_pass := Rleb 0.5 prob;
              prob_pass := py_round prob 3;
              l2_reason := if Rleb 0.5 prob then "OK"
                           else "Weak technical fundamentals" |}
  | _ => Ok {| l2_pass := false; prob_pass := 0.0; l2_reason := "No answers" |}
  end.

(** ** Level 3: scenario reasoning *)

Definition PHASES : list (string * list string) :=
  [ ("diagnose", ["investigate"; "analyze"; "identify"]);
    ("contain", ["rollback"; "mitigate"; "reduce"]);
    ("fix", ["fix"; "resolve"; "repair"]);
    ("prevent", ["monitor"; "prevent"; "automate"]) ].

Definition DIMENSIONS : list (string * list string) :=
  [ ("risk", ["risk"; "impact"]);
    ("cost", ["cost"; "budget"]);
    ("time", ["downtime"; "delay"]);
    ("reliability", ["uptime"; "stability"]) ].

(** [any(k in step for k in keys)]. *)
Definition any_key_in (keys : list string) (step : string) : bool :=
  existsb (fun k => py_contains k step) keys.

(** The names of [table] with a keyword occurring in [step], in table
    order. *)
Definition hits (table : list (string * list string)) (step : string)
  : list string :=
  map fst (filter (fun pk => any_key_in (snd pk) step) table).

(** [[s.strip().lower() for s in re.split(r"[.\n]+", answer) if s.strip()]]. *)
Definition scenario_steps (answer : string) : list string :=
  map (fun s => py_lower (py_strip s))
      (filter (fun s => negb (is_empty (py_strip s))) (split_steps answer)).

(** One turn of the loop over [steps]; the state is
    [(phase_hits, dim_hits)]. *)
Definition scan_step (st : list string * list (list string)) (step : string)
  : list string * list (list string) :=
  let (phase_hits, dim_hits) := st in
  let phase_hits := phase_hits ++ hits PHASES step in
  let dims := hits DIMENSIONS step in
  match dims with
  | [] => (phase_hits, dim_hits)
  | _ :: _ => (phase_hits, dim_hits ++ [dims])
  end.

Definition lenR {A : Type} (l : list A) : R := INR (List.length l).

(** The three terms of the score: [(flow, tradeoff, stability)]. *)
Definition scenario_terms (steps : list string) : result (R * R * R) :=
  let (phase_hits, dim_hits) := fold_left scan_step steps ([], []) in
  flow <- py_div (lenR (py_set phase_hits)) (lenR PHASES) ;;
  tradeoff <- match dim_hits with
              | _ :: _ =>
                  py_div (py_sum (map lenR dim_hits))
                         (lenR dim_hits * lenR DIMENSIONS)%R
              | [] => Ok 0%R
              end ;;
  let flat_dims := List.concat dim_hits in
  dominance <- match flat_dims with
               | _ :: _ =>
                   m <- py_max (dict_values (Counter flat_dims)) ;;
                   py_div (IZR m) (lenR flat_dims)
               | [] => Ok 1.0%R
               end ;;
  let stability := (1 - dominance)%R in
  Ok (flow, tradeoff, stability).

Definition level3_scenario (answer : pyval) : result score_result :=
  match answer with
  | PyStr a =>
      let steps := scenario_steps a in
      if (List.length steps <? 2)%nat then
        Ok {| pass := false; score := 0.0; reason := "Too shallow" |}
      else
        fts <- scenario_terms steps ;;
        let '(flow, tradeoff, stability) := fts in
        let score := (100 * (0.45 * flow + 0.35 * tradeoff + 0.20 * stability))%R in
        Ok {| pass := Rleb 75 score;
              score := py_round score 2;
              reason := if Rleb 75 score then "OK"
                        else "Weak scenario reasoning" |}
  | _ => Ok {| pass := false; score := 0.0; reason := "Invalid input" |}
  end.

Local Close Scope py_scope.

(* ================================================================== *)
(** * The persistence store *)
(* ================================================================== *)

(** A value as SQLite stores it. [SqlRealText r] is the text SQLite
    renders for the number [r] when it stores it in a TEXT column. *)
Inductive sqlval : Type :=
| SqlNull
| SqlInteger (z : Z)
| SqlReal (r : R)
| SqlText (s : string)
| SqlRealText (r : R).

Definition in_int64 (z : Z) : bool :=
  ((- 2 ^ 63 <=? z) && (z <? 2 ^ 63))%Z.

(** Binding a Python object to a statement parameter: [None], [bool],
    [int], [float] and [str] are adapted, anything else is refused (with
    [sqlite3.ProgrammingError]; [sqlite3.InterfaceError] before CPython
    3.11). *)
Definition sql_bind (v : pyval) : result sqlval :=
  match v with
  | PyNone => Ok SqlNull
  | PyBool b => Ok (SqlInteger (if b then 1 else 0))
  | PyInt z => if in_int64 z then Ok (SqlInteger z) else Raise OverflowError
  | PyFloat r => Ok (SqlReal r)
  | PyStr s => Ok (SqlText s)
  | PyList _ => Raise ProgrammingError
  | PyDict _ => Raise ProgrammingError
  end.

(** The decimal text of an integer. *)
Definition Z_text (z : Z) : string := NilZero.string_of_int (Z.to_int z).

(** The affinity of a column declared TEXT: a number is converted to its
    text before it is stored; NULL and text are stored as they are. *)
Definition text_affinity (x : sqlval) : sqlval :=
  match x with
  | SqlNull => SqlNull
  | SqlInteger z => SqlText (Z_text z)
  | SqlReal r => SqlRealText r
  | SqlText s => SqlText s
  | SqlRealText r => SqlRealText r
  end.

(** Binding a Python object for a column declared TEXT ([full_name],
    [email], [phone], [role], [answer]): the value that gets stored. *)
Definition sql_bind_text (v : pyval) : result sqlval :=
  match sql_bind v with
  | Ok x => Ok (text_affinity x)
  | Raise e => Raise e
  end.

Record candidate_row : Type := mk_candidate
  { candidate_id : string;
    full_name : sqlval;
    email : sqlval;
    phone : sqlval;
    role : sqlval;
    cand_created_at : string }.

Record session_row : Type := mk_session
  { session_id : string;
    sess_candidate_id : string;
    status : string;
    final_score : option R;
    final_decision : option string;
    created_at : string;
    completed_at : option string }.

Record round_row : Type := mk_round
  { result_id : string;
    res_session_id : string;
    round_no : Z;
    owner : string;
    question_id : option string;
    question : string;
    answer : sqlval;
    raw_score : R;
    res_score : R;
    passed : Z;
    threshold : R;
    violations_json : list string;
    metrics_json : list (string * pyval);
    features_json : list (string * pyval);
    entropy_value : option R;
    res_created_at : string }.

(** The three tables, rows in insertion order. *)
Record database : Type := mk_database
  { candidates : list candidate_row;
    sessions : list session_row;
    round_results : list round_row }.

(** The store together with the two sources the code reads from its
    environment: the hexadecimal digits of the successive [uuid4()] draws
    and the successive readings of the UTC clock. *)
Record world : Type := mk_world
  { w_db : database;
    w_uuid4_hex : nat -> string;
    w_draws : nat;
    w_utcnow : nat -> string;
    w_ticks : nat }.

Definition set_db (w : world) (db : database) : world :=
  {| w_db := db;
     w_uuid4_hex := w_uuid4_hex w; w_draws := w_draws w;
     w_utcnow := w_utcnow w; w_ticks := w_ticks w |}.

(** Computations that read and write the world and may raise. *)
Definition M (A : Type) : Type := world -> result A * world.

Definition mret {A : Type} (a : A) : M A := fun w => (Ok a, w).

Definition mraise {A : Type} (e : pyerr) : M A := fun w => (Raise e, w).

Definition mbind {A B : Type} (m : M A) (k : A -> M B) : M B :=
  fun w =>
    match m w with
    | (Ok a, w') => k a w'
    | (Raise e, w') => (Raise e, w')
    end.

Definition lift {A : Type} (r : result A) : M A := fun w => (r, w).

Declare Scope db_scope.
Delimit Scope db_scope with db.
Notation "x <- m ;; k" := (mbind m (fun x => k))
  (at level 61, m at next level, right associativity) : db_scope.
Local Open Scope db_scope.

Definition get_db : M database := fun w => (Ok (w_db w), w).

Definition put_db (db : database) : M unit := fun w => (Ok tt, set_db w db).

(** The world after one more clock reading. *)
Definition tick (w : world) : world :=
  {| w_db := w_db w;
     w_uuid4_hex := w_uuid4_hex w; w_draws := w_draws w;
     w_utcnow := w_utcnow w; w_ticks := S (w_ticks w) |}.

(** The world after one more [uuid4()] draw. *)
Definition draw (w : world) : world :=
  {| w_db := w_db w;
     w_uuid4_hex := w_uuid4_hex w; w_draws := S (w_draws w);
     w_utcnow := w_utcnow w; w_ticks := w_ticks w |}.

Definition now_str (w : world) : string :=
  (w_utcnow w (w_ticks w) ++ "Z")%string.

Definition next_id (prefix : string) (w : world) : string :=
  (prefix ++ "_" ++ substring 0 12 (w_uuid4_hex w (w_draws w)))%string.

(** [datetime.utcnow().isoformat(timespec="seconds") + "Z"]. *)
Definition utc_now : M string := fun w => (Ok (now_str w), tick w).

(** [f"{prefix}_{uuid.uuid4().hex[:12]}"]. *)
Definition new_id (prefix : string) : M string :=
  fun w => (Ok (next_id prefix w), draw w).

(** [with get_conn() as conn: body]: commit when the body returns, roll
    the store back and re-raise when it raises. *)
Definition transaction {A : Type} (body : M A) : M A :=
  fun w =>
    match body w with
    | (Ok a, w') => (Ok a, w')
    | (Raise e, w') => (Raise e, set_db w' (w_db w))
    end.

(** [CREATE TABLE IF NOT EXISTS ...; CREATE INDEX IF NOT EXISTS ...]: the
    three tables are always present in the model, so no row changes. *)
Definition init_db : M unit := transaction (mret tt).

Definition has_candidate (db : database) (cid : string) : bool :=
  existsb (fun c => String.eqb (candidate_id c) cid) (candidates db).

Definition has_session (db : database) (sid : string) : bool :=
  existsb (fun r => String.eqb (session_id r) sid) (sessions db).

Definition has_result (db : database) (rid : string) : bool :=
  existsb (fun r => String.eqb (result_id r) rid) (round_results db).

(** One row under [UPDATE candidates SET full_name=?, email=?, phone=?,
    role=? WHERE candidate_id=?]. *)
Definition update_candidate (cid : string) (fn em ph ro : sqlval)
  (c : candidate_row) : candidate_row :=
  if String.eqb (candidate_id c) cid then
    {| candidate_id := candidate_id c;
       full_name := fn; email := em; phone := ph; role := ro;
       cand_created_at := cand_created_at c |}
  else c.

Definition update_candidates (db : database) (cid : string)
  (fn em ph ro : sqlval) : database :=
  {| candidates := map (update_candidate cid fn em ph ro) (candidates db);
     sessions := sessions db;
     round_results := round_results db |}.

Definition insert_candidate (db : database) (c : candidate_row) : database :=
  {| candidates := candidates db ++ [c];
     sessions := sessions db;
     round_results := round_results db |}.

Definition insert_session (db : database) (r : session_row) : database :=
  {| candidates := candidates db;
     sessions := sessions db ++ [r];
     round_results := round_results db |}.

Definition insert_result (db : database) (r : round_row) : database :=
  {| candidates := candidates db;
     sessions := sessions db;
     round_results := round_results db ++ [r] |}.

Definition upsert_candidate (full_name email phone role : pyval)
  (candidate_id : option string) : M string :=
  _ <- init_db ;;
  cid <- match candidate_id with
         | Some c => if is_empty c then new_id "cand" else mret c
         | None => new_id "cand"
         end ;;
  _ <- transaction
         (db <- get_db ;;
          if has_candidate db cid then
            fn <- lift (sql_bind_text full_name) ;;
            em <- lift (sql_bind_text email) ;;
            ph <- lift (sql_bind_text phone) ;;
            ro <- lift (sql_bind_text role) ;;
            put_db (update_candidates db cid fn em ph ro)
          else
            now <- utc_now ;;
            fn <- lift (sql_bind_text full_name) ;;
            em <- lift (sql_bind_text email) ;;
            ph <- lift (sql_bind_text phone) ;;
            ro <- lift (sql_bind_text role) ;;
            put_db (insert_candidate db (mk_candidate cid fn em ph ro now))) ;;
  mret cid.

(** The [INSERT INTO sessions] fails on a duplicate primary key and on a
    candidate id that names no candidate (foreign keys are on). *)
Definition create_session (candidate_id : string) : M string :=
  _ <- init_db ;;
  sid <- new_id "sess" ;;
  _ <- transaction
         (db <- get_db ;;
          now <- utc_now ;;
          if has_session db sid || negb (has_candidate db candidate_id) then
            mraise IntegrityError
          else
            put_db (insert_session db
                      (mk_session sid candidate_id "IN_PROGRESS"
                                  None None now None))) ;;
  mret sid.

(** [x or []] and [x or {}] on an optional argument. *)
Definition or_empty {A : Type} (o : option (list A)) : list A :=
  match o with Some l => l | None => [] end.

(** The [INSERT INTO round_results] fails on a duplicate primary key and on
    a session id that names no session. The three JSON columns hold the
    documents that [json.dumps] serialises. *)
Definition save_round_result (session_id : string) (round_no : Z)
  (owner question : string) (answer : pyval) (raw_score score : R)
  (passed : bool) (threshold : R) (question_id : option string)
  (violations : option (list string))
  (metrics features : option (list (string * pyval)))
  (entropy_value : option R) : M string :=
  _ <- init_db ;;
  rid <- new_id "res" ;;
  _ <- transaction
         (db <- get_db ;;
          now <- utc_now ;;
          no <- lift (if in_int64 round_no then Ok round_no
                      else Raise OverflowError) ;;
          ans <- lift (sql_bind_text answer) ;;
          if has_result db rid || negb (has_session db session_id) then
            mraise IntegrityError
          else
            put_db (insert_result db
                      (mk_round rid session_id no owner question_id question
                                ans raw_score score
                                (if passed then 1 else 0) threshold
                                (or_empty violations)
                                (or_empty metrics)
                                (or_empty features)
                                entropy_value now))) ;;
  mret rid.

(** One row under [UPDATE sessions SET status=?, final_score=?,
    final_decision=?, completed_at=? WHERE session_id=?]. *)
Definition complete_row (sid : string) (fs : R) (fd now : string)
  (r : session_row) : session_row :=
  if String.eqb (session_id r) sid then
    {| session_id := session_id r;
       sess_candidate_id := sess_candidate_id r;
       status := "COMPLETED";
       final_score := Some fs;
       final_decision := Some fd;
       created_at := created_at r;
       completed_at := Some now |}
  else r.

Definition update_completed (db : database) (sid : string) (fs : R)
  (fd now : string) : database :=
  {| candidates := candidates db;
     sessions := map (complete_row sid fs fd now) (sessions db);
     round_results := round_results db |}.

Definition complete_session (session_id : string) (final_score : R)
  (final_decision : string) : M unit :=
  _ <- init_db ;;
  transaction
    (db <- get_db ;;
     now <- utc_now ;;
     put_db (update_completed db session_id final_score final_decision now)).

(** [SELECT * FROM sessions WHERE session_id=?] and [fetchone()]. *)
Definition find_session (db : database) (sid : string) : option session_row :=
  find (fun r => String.eqb (session_id r) sid) (sessions db).

Definition get_session (session_id : string) : M (option session_row) :=
  _ <- init_db ;;
  transaction (db <- get_db ;; mret (find_session db session_id)).

(** The rows [SELECT * FROM round_results WHERE session_id=?] selects, in
    insertion order. *)
Definition results_of (db : database) (sid : string) : list round_row :=
  filter (fun r => String.eqb (res_session_id r) sid) (round_results db).

(* ================================================================== *)
(** * The orchestrator *)
(* ================================================================== *)

Definition score_dict (r : score_result) : list (string * pyval) :=
  [ ("pass", PyBool (pass r));
    ("score", PyFloat (score r));
    ("reason", PyStr (reason r)) ].

Definition prob_dict (r : prob_result) : list (string * pyval) :=
  [ ("pass", PyBool (l2_pass r));
    ("prob_pass", PyFloat (prob_pass r));
    ("reason", PyStr (l2_reason r)) ].

Section Orchestrator.

(** The builtin [str()], whose text for a dictionary is left open. *)
Variable py_str : pyval -> string.

(** The products [prob_pass * 100.0] are taken in the reals; the code
    takes them in doubles (see the modelling conventions). *)
Definition evaluate_candidate (payload : list (string * pyval)) : M pyval :=
  candidate_id <- upsert_candidate
                    (dict_get_default payload "full_name" (PyStr "Unknown"))
                    (dict_get_default payload "email" (PyStr ""))
                    (dict_get_default payload "phone" (PyStr ""))
                    (dict_get_default payload "role" (PyStr "Backend Engineer"))
                    None ;;
  session_id <- create_session candidate_id ;;
  let resume_text := dict_get_default payload "resume_text" (PyStr "") in
  l1 <- lift (level1_screen resume_text) ;;
  _ <- save_round_result session_id 1 "Interviewer L1" "Resume Screening"
         resume_text (score l1) (score l1) (pass l1) 60.0
         None None None (Some (score_dict l1)) None ;;
  if negb (pass l1) then
    _ <- complete_session session_id (score l1) "REJECT" ;;
    mret (PyDict [ ("final_pass", PyBool false);
                   ("failed_at", PyStr "level1");
                   ("session_id", PyStr session_id);
                   ("level1", PyDict (score_dict l1)) ])
  else
    let technical_answers :=
      dict_get_default payload "technical_answers" (PyDict []) in
    l2 <- lift (level2_technical technical_answers) ;;
    _ <- save_round_result session_id 2 "Interviewer L2" "Technical Evaluation"
           (PyStr (py_str technical_answers))
           (prob_pass l2 * 100.0) (prob_pass l2 * 100.0) (l2_pass l2) 50.0
           None None (Some (prob_dict l2)) None None ;;
    if negb (l2_pass l2) then
      _ <- complete_session session_id (prob_pass l2 * 100.0) "REJECT" ;;
      mret (PyDict [ ("final_pass", PyBool false);
                     ("failed_at", PyStr "level2");
                     ("session_id", PyStr session_id);
                     ("level1", PyDict (score_dict l1));
                     ("level2", PyDict (prob_dict l2)) ])
    else
      let scenario_answer :=
        dict_get_default payload "scenario_answer" (PyStr "") in
      l3 <- lift (level3_scenario scenario_answer) ;;
      _ <- save_round_result session_id 3 "Interviewer L3"
             "Scenario-Based Reasoning" scenario_answer
             (score l3) (score l3) (pass l3) 75.0
             None None (Some (score_dict l3)) None None ;;
      let final_decision := if pass l3 then "HIRE" else "HOLD" in
      _ <- complete_session session_id (score l3) final_decision ;;
      mret (PyDict [ ("final_pass", PyBool (pass l3));
                     ("decision", PyStr final_decision);
                     ("session_id", PyStr session_id);
                     ("level1", PyDict (score_dict l1));
                     ("level2", PyDict (prob_dict l2));
                     ("level3", PyDict (score_dict l3)) ]).

End Orchestrator.

(* ================================================================== *)
(** * Notions used in the statements, and test data *)
(* ================================================================== *)

Section Level3Data.

Local Open Scope R_scope.

Definition ex3_text : string :=
  "We investigate the issue. We rollback the change. We monitor after.".

End Level3Data.

Section FloatNotions.

Local Open Scope R_scope.



End FloatNotions.

Section Level2Notions.

Local Open Scope R_scope.

(** An entry counts when its value is a mapping with a "correct" field. *)
Definition gradable (v : pyval) : bool :=
  match v with
  | PyDict vd => dict_has vd "correct"
  | _ => false
  end.

(** A gradable entry is correct when its "correct" field is truthy. *)
Definition graded_correct (v : pyval) : bool :=
  match v with
  | PyDict vd =>
      match dict_get vd "correct" with
      | Some x => py_truth x
      | None => false
      end
  | _ => false
  end.

Definition gradable_total (d : list (string * pyval)) : nat :=
  List.length (filter gradable (dict_values d)).

Definition gradable_correct (d : list (string * pyval)) : nat :=
  List.length (filter graded_correct (dict_values d)).

(** The ratio correct/total over the gradable entries. *)
Definition gradable_ratio (d : list (string * pyval)) : R :=
  INR (gradable_correct d) / INR (gradable_total d).

(** Test inputs: the dictionary [{"q1": {"correct": b1}, "q2": ...}]. *)
Definition quiz_key (i : nat) : string :=
  ("q" ++ NilEmpty.string_of_uint (Nat.to_uint i))%string.

Definition quiz (flags : list bool) : list (string * pyval) :=
  map (fun ib : nat * bool =>
         (quiz_key (fst ib), PyDict [("correct", PyBool (snd ib))]))
      (combine (seq 1 (List.length flags)) flags).

Definition ex2_answers : list (string * pyval) :=
  [ ("q1", PyDict [("correct", PyBool true)]);
    ("q2", PyDict [("correct", PyBool false)]) ].


(** One correct answer out of 44, and out of 43. *)
Definition c8_answers_44 : list (string * pyval) :=
  quiz (true :: repeat false 43).

Definition c8_answers_43 : list (string * pyval) :=
  quiz (true :: repeat false 42).

End Level2Notions.

Section CounterNotions.

(** The count stored under [t], 0 when [t] is absent. *)
Definition cget (c : list (string * Z)) (t : string) : Z :=
  match dict_get c t with Some n => n | None => 0%Z end.

(** Number of occurrences of [t] in [toks]. *)
Definition occurrences (t : string) (toks : list string) : nat :=
  List.length (filter (String.eqb t) toks).

End CounterNotions.

Section Level1Notions.

Local Open Scope R_scope.

(** The lower-cased word tokens of a text. *)
Definition tokens_of (s : string) : list string := findall_word (py_lower s).

(** How often each distinct token occurs. *)
Definition token_counts (toks : list string) : list nat :=
  map (fun t => occurrences t toks) (py_set toks).

Definition sum_list (xs : list R) : R := fold_right Rplus 0 xs.

(** Shannon entropy of the token frequency distribution. *)
Definition shannon_entropy (toks : list string) : R :=
  - sum_list (map (fun n => INR n / INR (List.length toks)
                            * ln (INR n / INR (List.length toks)))
                  (token_counts toks)).

(** 100 * (0.55 * min(H / log(total), 1.0) + 0.45 * distinct / total). *)
Definition level1_formula (toks : list string) : R :=
  100 * (0.55 * Rmin (shannon_entropy toks / ln (INR (List.length toks))) 1.0
         + 0.45 * (INR (List.length (py_set toks)) / INR (List.length toks))).

End Level1Notions.

Section Level1Data.

Local Open Scope R_scope.


End Level1Data.

Section Level3Notions.

Local Open Scope R_scope.

(** [max(Counter(flat).values())], 0 on an empty list. *)
Definition max_count (flat : list string) : Z :=
  match dict_values (Counter flat) with
  | [] => 0%Z
  | x :: xs => fold_left Z.max xs x
  end.

(** The value of [tradeoff] with its fallback 0. *)
Definition tradeoff_of (dim_hits : list (list string)) : R :=
  match dim_hits with
  | [] => 0
  | _ :: _ => py_sum (map lenR dim_hits) / (lenR dim_hits * lenR DIMENSIONS)
  end.

(** The value of [dominance] with its fallback 1.0. *)
Definition dominance_of (flat_dims : list string) : R :=
  match flat_dims with
  | [] => 1.0
  | _ :: _ => IZR (max_count flat_dims) / lenR flat_dims
  end.

End Level3Notions.

Section StoreNotions.

(** The value binds to a statement parameter. *)
Definition sql_bindable (v : pyval) : bool :=
  match sql_bind v with Ok _ => true | Raise _ => false end.

(** Every stored round result names a stored session. *)
Definition fk_consistent (db : database) : bool :=
  forallb (fun r => has_session db (res_session_id r)) (round_results db).

(** The world [upsert_candidate] leaves behind when it draws a new id and
    every field binds. *)
Definition upsert_world (fn em ph ro : sqlval) (w : world) : world :=
  let cid := next_id "cand" w in
  if has_candidate (w_db w) cid then
    set_db (draw w) (update_candidates (w_db w) cid fn em ph ro)
  else
    set_db (tick (draw w))
           (insert_candidate (w_db w)
                             (mk_candidate cid fn em ph ro (now_str w))).

End StoreNotions.

Section OrchestratorStages.

Variable py_str : pyval -> string.

(** The id built from the [k]-th [uuid4()] draw counted from now. *)
Definition nth_id (prefix : string) (w : world) (k : nat) : string :=
  (prefix ++ "_" ++ substring 0 12 (w_uuid4_hex w (w_draws w + k)))%string.

Definition resume_of (payload : list (string * pyval)) : pyval :=
  dict_get_default payload "resume_text" (PyStr "").

Definition technical_of (payload : list (string * pyval)) : pyval :=
  dict_get_default payload "technical_answers" (PyDict []).

Definition scenario_of (payload : list (string * pyval)) : pyval :=
  dict_get_default payload "scenario_answer" (PyStr "").

(** The store accepts the writes of a run that stops after round 1: the
    candidate fields and the resume bind, and the session id and the
    result id about to be drawn are unused. *)
Definition accepts_round1 (payload : list (string * pyval)) (w : world) : bool :=
  sql_bindable (dict_get_default payload "full_name" (PyStr "Unknown"))
  && sql_bindable (dict_get_default payload "email" (PyStr ""))
  && sql_bindable (dict_get_default payload "phone" (PyStr ""))
  && sql_bindable (dict_get_default payload "role" (PyStr "Backend Engineer"))
  && sql_bindable (resume_of payload)
  && negb (has_session (w_db w) (nth_id "sess" w 1))
  && negb (has_result (w_db w) (nth_id "res" w 2)).

(** The store accepts the writes of a run through all three rounds: in
    addition the scenario answer binds and the three result ids are unused
    and pairwise distinct. *)
Definition accepts_all_rounds (payload : list (string * pyval)) (w : world)
  : bool :=
  accepts_round1 payload w
  && sql_bindable (scenario_of payload)
  && negb (has_result (w_db w) (nth_id "res" w 3))
  && negb (has_result (w_db w) (nth_id "res" w 4))
  && negb (String.eqb (nth_id "res" w 2) (nth_id "res" w 3))
  && negb (String.eqb (nth_id "res" w 2) (nth_id "res" w 4))
  && negb (String.eqb (nth_id "res" w 3) (nth_id "res" w 4)).

(** The code after the Level 1 result is saved, by branch. *)
Definition finish_level1 (session_id : string) (l1 : score_result) : M pyval :=
  _ <- complete_session session_id (score l1) "REJECT" ;;
  mret (PyDict [ ("final_pass", PyBool false);
                 ("failed_at", PyStr "level1");
                 ("session_id", PyStr session_id);
                 ("level1", PyDict (score_dict l1)) ]).

Definition finish_level2 (session_id : string) (l1 : score_result)
  (l2 : prob_result) : M pyval :=
  _ <- complete_session session_id (prob_pass l2 * 100.0) "REJECT" ;;
  mret (PyDict [ ("final_pass", PyBool false);
                 ("failed_at", PyStr "level2");
                 ("session_id", PyStr session_id);
                 ("level1", PyDict (score_dict l1));
                 ("level2", PyDict (prob_dict l2)) ]).

Definition run_level3 (payload : list (string * pyval)) (session_id : string)
  (l1 : score_result) (l2 : prob_result) : M pyval :=
  l3 <- lift (level3_scenario (scenario_of payload)) ;;
  _ <- save_round_result session_id 3 "Interviewer L3"
         "Scenario-Based Reasoning" (scenario_of payload)
         (score l3) (score l3) (pass l3) 75.0
         None None (Some (score_dict l3)) None None ;;
  _ <- complete_session session_id (score l3)
         (if pass l3 then "HIRE" else "HOLD") ;;
  mret (PyDict [ ("final_pass", PyBool (pass l3));
                 ("decision", PyStr (if pass l3 then "HIRE" else "HOLD"));
                 ("session_id", PyStr session_id);
                 ("level1", PyDict (score_dict l1));
                 ("level2", PyDict (prob_dict l2));
                 ("level3", PyDict (score_dict l3)) ]).

Definition run_level2 (payload : list (string * pyval)) (session_id : string)
  (l1 : score_result) : M pyval :=
  l2 <- lift (level2_technical (technical_of payload)) ;;
  _ <- save_round_result session_id 2 "Interviewer L2" "Technical Evaluation"
         (PyStr (py_str (technical_of payload)))
         (prob_pass l2 * 100.0) (prob_pass l2 * 100.0) (l2_pass l2) 50.0
         None None (Some (prob_dict l2)) None None ;;
  if negb (l2_pass l2) then finish_level2 session_id l1 l2
  else run_level3 payload session_id l1 l2.

End OrchestratorStages.

Section StoreCalls.

(** A call of the store's public surface, with its arguments. *)
Inductive store_call : Type :=
| CallInitDb
| CallUpsertCandidate (full_name email phone role : pyval)
    (candidate_id : option string)
| CallCreateSession (candidate_id : string)
| CallSaveRoundResult (session_id : string) (round_no : Z)
    (owner question : string) (answer : pyval) (raw_score score : R)
    (passed : bool) (threshold : R) (question_id : option string)
    (violations : option (list string))
    (metrics features : option (list (string * pyval)))
    (entropy_value : option R)
| CallCompleteSession (session_id : string) (final_score : R)
    (final_decision : string)
| CallGetSession (session_id : string).

(** The world a call leaves behind, whether it returns or raises. *)
Definition run_call (c : store_call) (w : world) : world :=
  match c with
  | CallInitDb => snd (init_db w)
  | CallUpsertCandidate fn em ph ro cid =>
      snd (upsert_candidate fn em ph ro cid w)
  | CallCreateSession cid => snd (create_session cid w)
  | CallSaveRoundResult sid n own q a raw sc p th qid vio met fea ent =>
      snd (save_round_result sid n own q a raw sc p th qid vio met fea ent w)
  | CallCompleteSession sid fs fd => snd (complete_session sid fs fd w)
  | CallGetSession sid => snd (get_session sid w)
  end.

Definition run_calls (cs : list store_call) (w : world) : world :=
  fold_left (fun w c => run_call c w) cs w.

(** What one call can do to the sessions table: nothing, append a row
    IN_PROGRESS under an unused id, or complete the rows of one id. *)
Inductive sessions_step (l : list session_row) : list session_row -> Prop :=
| step_same : sessions_step l l
| step_open (sid cid now : string) :
    existsb (fun r => String.eqb (session_id r) sid) l = false ->
    sessions_step l
      (l ++ [mk_session sid cid "IN_PROGRESS" None None now None])
| step_complete (sid : string) (fs : R) (fd now : string) :
    sessions_step l (map (complete_row sid fs fd now) l).

(** [m] leaves the part [f] of the store, equal to [l], as it is, whether
    it returns or raises. *)
Definition keeps {A X : Type} (f : database -> X) (l : X) (m : M A) : Prop :=
  forall w, f (w_db w) = l -> f (w_db (snd (m w))) = l.

End StoreCalls.

Section WorkedData.

Local Open Scope R_scope.

(** 30 words, each occurring once. *)
Definition ex1_text : string :=
  "python java rust go sql api aws docker linux git react redis kafka spark flask django numpy pandas scala swift kotlin ruby perl bash nginx mysql mongo azure graphql terraform".

(** An empty store, with a counter for the [uuid4()] draws and for the
    clock. *)
Definition demo_world : world :=
  {| w_db := {| candidates := []; sessions := []; round_results := [] |};
     w_uuid4_hex := fun n =>
       (NilEmpty.string_of_uint (Nat.to_uint n)
        ++ "c0ffee5eed1e55ab1ec0de0ddba11ad")%string;
     w_draws := 0;
     w_utcnow := fun n =>
       ("2024-05-17T10:00:0" ++ NilEmpty.string_of_uint (Nat.to_uint n))%string;
     w_ticks := 0 |}.

Definition short_payload : list (string * pyval) :=
  [ ("full_name", PyStr "Ada Lovelace");
    ("email", PyStr "ada@example.org");
    ("resume_text", PyStr "Senior backend engineer, ten years of Python.") ].

Definition full_payload : list (string * pyval) :=
  [ ("full_name", PyStr "Ada Lovelace");
    ("email", PyStr "ada@example.org");
    ("resume_text", PyStr ex1_text);
    ("technical_answers", PyDict ex2_answers);
    ("scenario_answer", PyStr ex3_text) ].

End WorkedData.

(* ================================================================== *)
(** * The store's readers, the upload endpoint and the interactive adapter *)
(* ================================================================== *)

Section Readers.

(** Insertion of [x] into a list sorted by [leb], before the first element
    it does not exceed. *)
Fixpoint insert_by {A : Type} (leb : A -> A -> bool) (x : A) (l : list A)
  : list A :=
  match l with
  | [] => [x]
  | y :: l' => if leb x y then x :: l else y :: insert_by leb x l'
  end.

(** [ORDER BY]: the rows sorted by [leb]; rows that compare equal, whose
    order SQLite leaves open, keep their insertion order. *)
Definition sort_by {A : Type} (leb : A -> A -> bool) (l : list A) : list A :=
  fold_right (insert_by leb) [] l.

(** [ORDER BY round_no ASC, created_at ASC]. *)
Definition round_key_leb (a b : round_row) : bool :=
  (round_no a <? round_no b)%Z
  || ((round_no a =? round_no b)%Z
      && String.leb (res_created_at a) (res_created_at b)).

(** The dictionary [get_round_results] builds for one row. *)
Record round_out : Type := mk_round_out
  { out_result_id : string;
    out_session_id : string;
    out_round_no : Z;
    out_owner : string;
    out_question_id : option string;
    out_question : string;
    out_answer : sqlval;
    out_raw_score : R;
    out_score : R;
    out_passed : bool;
    out_threshold : R;
    out_violations : list string;
    out_metrics : list (string * pyval);
    out_features : list (string * pyval);
    out_entropy_value : option R;
    out_created_at : string }.

(** One row decoded: [bool(r["passed"])], and the JSON columns loaded. *)
Definition decode_round (r : round_row) : round_out :=
  {| out_result_id := result_id r;
     out_session_id := res_session_id r;
     out_round_no := round_no r;
     out_owner := owner r;
     out_question_id := question_id r;
     out_question := question r;
     out_answer := answer r;
     out_raw_score := raw_score r;
     out_score := res_score r;
     out_passed := negb (passed r =? 0)%Z;
     out_threshold := threshold r;
     out_violations := violations_json r;
     out_metrics := metrics_json r;
     out_features := features_json r;
     out_entropy_value := entropy_value r;
     out_created_at := res_created_at r |}.

Definition get_round_results (session_id : string) : M (list round_out) :=
  _ <- init_db ;;
  rows <- transaction
            (db <- get_db ;;
             mret (sort_by round_key_leb (results_of db session_id))) ;;
  mret (map decode_round rows).

(** [ORDER BY created_at DESC]. *)
Definition created_desc_leb (a b : session_row) : bool :=
  String.leb (created_at b) (created_at a).

(** [LIMIT n]: a negative [n] sets no bound. *)
Definition sql_limit {A : Type} (n : Z) (l : list A) : list A :=
  if (n <? 0)%Z then l else firstn (Z.to_nat n) l.

Definition list_sessions (candidate_id : option string) (limit : Z)
  : M (list session_row) :=
  _ <- init_db ;;
  transaction
    (db <- get_db ;;
     lim <- lift (if in_int64 limit then Ok limit else Raise OverflowError) ;;
     let rows :=
       match candidate_id with
       | Some c =>
           if is_empty c then sessions db
           else filter (fun r => String.eqb (sess_candidate_id r) c)
                       (sessions db)
       | None => sessions db
       end in
     mret (sql_limit lim (sort_by created_desc_leb rows))).

(** The [/screen_resume] handler, from the decoded text of the upload on. *)
Definition screen_resume (resume_text role : string)
  : M (list (string * pyval)) :=
  candidate_id <- upsert_candidate (PyStr "Unknown") (PyStr "") (PyStr "")
                    (PyStr role) None ;;
  session_id <- create_session candidate_id ;;
  result <- lift (level1_screen (PyStr resume_text)) ;;
  _ <- save_round_result session_id 1 "Screening Engine"
         ("Resume screening for role: " ++ role)%string
         (PyStr resume_text) (score result) (score result) (pass result) 60.0
         None None None (Some (score_dict result)) None ;;
  let final_decision := if pass result then "PASS" else "REJECT" in
  _ <- complete_session session_id (score result) final_decision ;;
  mret [ ("role", PyStr role);
         ("screening_pass", PyBool (pass result));
         ("score", PyFloat (score result));
         ("reason", PyStr (reason result));
         ("session_id", PyStr session_id) ].

End Readers.

Section InteractiveAdapter.

Local Open Scope py_scope.

(** [s.split()]: the maximal runs of characters that are not whitespace;
    [cur] is the run being read. *)
Fixpoint split_ws_from (s cur : string) : list string :=
  match s with
  | EmptyString => if is_empty cur then [] else [cur]
  | String c s' =>
      if is_space c then
        if is_empty cur then split_ws_from s' EmptyString
        else cur :: split_ws_from s' EmptyString
      else split_ws_from s' (snoc cur c)
  end.

Definition py_split (s : string) : list string := split_ws_from s EmptyString.

(** [True] counts as 1 and [False] as 0 in arithmetic. *)
Definition int_of_bool (b : bool) : Z := if b then 1%Z else 0%Z.

Definition SKILLS : list string :=
  ["python"; "api"; "database"; "sql"; "cloud"; "docker"].

(** [sum(1 for s in skills if s in resume_text.lower())]. *)
Definition skills_found (resume_text : string) : Z :=
  Z.of_nat (List.length
              (filter (fun s => py_contains s (py_lower resume_text)) SKILLS)).

Record screening_result : Type := mk_screening_result
  { rs_skill_match : R;
    rs_structure : Z;
    rs_keyword_coverage : Z;
    rs_score : R;
    rs_pass : bool }.

Definition resume_screening (resume_text role : string)
  : result screening_result :=
  let found := skills_found resume_text in
  ratio <- py_div (IZR found) (lenR SKILLS) ;;
  let skill_match := Rmin 100 (ratio * 100) in
  let structure :=
    if (200 <? List.length (py_split resume_text))%nat then 100%Z else 70%Z in
  let keyword_coverage := Z.min 100 (found * 15) in
  mean <- py_div (skill_match + IZR structure + IZR keyword_coverage) 3 ;;
  let final_score := py_round mean 2 in
  let passed := Rleb 60 final_score in
  Ok {| rs_skill_match := py_round skill_match 2;
        rs_structure := structure;
        rs_keyword_coverage := keyword_coverage;
        rs_score := final_score;
        rs_pass := passed |}.

Record technical_result : Type := mk_technical_result
  { te_probability : R; te_pass : bool }.

Definition technical_evaluation (apis db scale : bool)
  : result technical_result :=
  score <- py_div (IZR (int_of_bool apis + int_of_bool db + int_of_bool scale))
                  3 ;;
  let passed := Rleb 0.6 score in
  Ok {| te_probability := py_round score 3; te_pass := passed |}.

Record scenario_result : Type := mk_scenario_result
  { se_flow : bool;
    se_tradeoff : bool;
    se_stability : bool;
    se_score : R;
    se_pass : bool }.

Definition scenario_evaluation (answer : string) : result scenario_result :=
  let text := py_lower answer in
  let flow := any_key_in ["first"; "then"; "finally"] text in
  let tradeoff := any_key_in ["tradeoff"; "latency"; "cost"] text in
  let stability := any_key_in ["monitor"; "rollback"; "reliability"] text in
  third <- py_div (IZR (int_of_bool flow + int_of_bool tradeoff
                        + int_of_bool stability)) 3 ;;
  let score := py_round (third * 100) 2 in
  let passed := Rleb 70 score in
  Ok {| se_flow := flow;
        se_tradeoff := tradeoff;
        se_stability := stability;
        se_score := score;
        se_pass := passed |}.

End InteractiveAdapter.

Section Level3Closed.

Local Open Scope R_scope.

(** The phase names hit, step after step. *)
Definition phase_hits_of (steps : list string) : list string :=
  fst (fold_left scan_step steps ([], [])).

(** The non-empty sets of dimension names hit, step after step. *)
Definition dim_hits_of (steps : list string) : list (list string) :=
  snd (fold_left scan_step steps ([], [])).

(** 100 * (0.45 * flow + 0.35 * tradeoff + 0.20 * stability). *)
Definition scenario_formula (steps : list string) : R :=
  100 * (0.45 * (lenR (py_set (phase_hits_of steps)) / 4)
         + 0.35 * tradeoff_of (dim_hits_of steps)
         + 0.20 * (1 - dominance_of (List.concat (dim_hits_of steps)))).

(** Four steps, each naming one phase and all four dimensions. *)
Definition balanced_answer : string :=
  "We investigate the risk, cost, downtime and uptime. We rollback weighing risk, cost, downtime and uptime. We fix it weighing risk, cost, downtime and uptime. We monitor risk, cost, downtime and uptime.".

End Level3Closed.

Section StoreInvariants.

(** The call raises. *)
Definition raised {A : Type} (out : result A * world) : bool :=
  match fst out with Raise _ => true | Ok _ => false end.

Definition call_raises (c : store_call) (w : world) : bool :=
  match c with
  | CallInitDb => raised (init_db w)
  | CallUpsertCandidate fn em ph ro cid =>
      raised (upsert_candidate fn em ph ro cid w)
  | CallCreateSession cid => raised (create_session cid w)
  | CallSaveRoundResult sid n own q a raw sc p th qid vio met fea ent =>
      raised (save_round_result sid n own q a raw sc p th qid vio met fea ent w)
  | CallCompleteSession sid fs fd => raised (complete_session sid fs fd w)
  | CallGetSession sid => raised (get_session sid w)
  end.

(** The id [upsert_candidate] works on, and the world once it is chosen:
    the given id, or a new one when none or an empty one is given. *)
Definition chosen_id (candidate_id : option string) (w : world)
  : string * world :=
  match candidate_id with
  | Some c => if is_empty c then (next_id "cand" w, draw w) else (c, w)
  | None => (next_id "cand" w, draw w)
  end.

(** [SELECT * FROM candidates WHERE candidate_id=?], first row. *)
Definition find_candidate (db : database) (cid : string)
  : option candidate_row :=
  find (fun c => String.eqb (candidate_id c) cid) (candidates db).

(** No two rows of a table share their primary key. *)
Definition pk_unique (db : database) : Prop :=
  NoDup (map candidate_id (candidates db))
  /\ NoDup (map session_id (sessions db))
  /\ NoDup (map result_id (round_results db)).

(** Every stored session names a stored candidate. *)
Definition session_fk (db : database) : bool :=
  forallb (fun r => has_candidate db (sess_candidate_id r)) (sessions db).

(** A session row is either open, with its three final fields null, or
    completed, with all three set. *)
Definition row_coherent (r : session_row) : Prop :=
  (status r = "IN_PROGRESS" /\ final_score r = None
   /\ final_decision r = None /\ completed_at r = None)
  \/ (status r = "COMPLETED" /\ final_score r <> None
      /\ final_decision r <> None /\ completed_at r <> None).

Definition empty_db : database :=
  {| candidates := []; sessions := []; round_results := [] |}.

(** The order of [get_round_results]: by round, then by creation time. *)
Definition out_key_le (a b : round_out) : Prop :=
  (out_round_no a < out_round_no b)%Z
  \/ (out_round_no a = out_round_no b
      /\ String.leb (out_created_at a) (out_created_at b) = true).

(** The sessions [list_sessions] selects before it sorts and cuts. *)
Definition sessions_of (db : database) (candidate_id : option string)
  : list session_row :=
  match candidate_id with
  | Some c =>
      if is_empty c then sessions db
      else filter (fun r => String.eqb (sess_candidate_id r) c) (sessions db)
  | None => sessions db
  end.

(** The order of [list_sessions]: latest creation time first. *)
Definition created_desc (a b : session_row) : Prop :=
  String.leb (created_at b) (created_at a) = true.

(** What one committed transaction of the store does to the tables:
    nothing, an UPDATE of the candidates of one stored id, an INSERT of a
    candidate under an unused id, an INSERT of an open session under an
    unused id for a stored candidate, an INSERT of a round result under an
    unused id for a stored session, or the completing UPDATE. *)
Inductive db_step (db : database) : database -> Prop :=
| db_same : db_step db db
| db_update_candidate (cid : string) (fn em ph ro : sqlval) :
    has_candidate db cid = true ->
    db_step db (update_candidates db cid fn em ph ro)
| db_insert_candidate (c : candidate_row) :
    has_candidate db (candidate_id c) = false ->
    db_step db (insert_candidate db c)
| db_insert_session (sid cid now : string) :
    has_session db sid = false ->
    has_candidate db cid = true ->
    db_step db (insert_session db
                  (mk_session sid cid "IN_PROGRESS" None None now None))
| db_insert_result (r : round_row) :
    has_result db (result_id r) = false ->
    has_session db (res_session_id r) = true ->
    db_step db (insert_result db r)
| db_complete (sid : string) (fs : R) (fd now : string) :
    db_step db (update_completed db sid fs fd now).

(** Any number of such transactions, one after the other. *)
Inductive db_steps (db : database) : database -> Prop :=
| steps_refl : db_steps db db
| steps_snoc (db1 db2 : database) :
    db_steps db db1 -> db_step db1 db2 -> db_steps db db2.

(** Whatever [m] returns or raises, it has changed the store by
    transactions of the store only. *)
Definition walks {A : Type} (m : M A) : Prop :=
  forall w, db_steps (w_db w) (w_db (snd (m w))).

(** The integrity of the store: unique primary keys, both foreign keys
    satisfied, and every session row open or completed as a whole. *)
Definition store_ok (db : database) : Prop :=
  pk_unique db
  /\ session_fk db = true
  /\ fk_consistent db = true
  /\ Forall row_coherent (sessions db).

(** What identifies a candidate row and a session row for good: the
    columns no statement of the store ever sets again. *)
Definition candidate_key (c : candidate_row) : string * string :=
  (candidate_id c, cand_created_at c).

Definition session_key (r : session_row) : string * string * string :=
  (session_id r, sess_candidate_id r, created_at r).

(** [db'] holds every row of [db], in place: candidates and sessions with
    their keys, round results whole. *)
Definition extends (db db' : database) : Prop :=
  (exists l, map candidate_key (candidates db')
             = map candidate_key (candidates db) ++ l)
  /\ (exists l, map session_key (sessions db')
                = map session_key (sessions db) ++ l)
  /\ (exists l, round_results db' = round_results db ++ l).

(** A candidate, a session, one round result and the final decision. *)
Definition demo_calls : list store_call :=
  [ CallUpsertCandidate (PyStr "Ada Lovelace") (PyStr "ada@example.org")
      (PyStr "") (PyStr "Backend Engineer") None;
    CallCreateSession "cand_0c0ffee5eed1";
    CallSaveRoundResult "sess_1c0ffee5eed1" 1 "Interviewer L1"
      "Resume Screening" (PyStr "Ten years of Python.") 0%R 0%R false 60%R
      None None None None None;
    CallCompleteSession "sess_1c0ffee5eed1" 0%R "REJECT" ].


Definition list_resume_payload : list (string * pyval) :=
  [ ("full_name", PyStr "Ada Lovelace");
    ("resume_text", PyList [PyStr "python"; PyStr "sql"]) ].

(** A payload that passes Level 1 and Level 2 and whose scenario answer
    is a list of strings. *)
Definition list_scenario_payload : list (string * pyval) :=
  [ ("full_name", PyStr "Ada Lovelace");
    ("email", PyStr "ada@example.org");
    ("resume_text", PyStr ex1_text);
    ("technical_answers", PyDict ex2_answers);
    ("scenario_answer", PyList [PyStr "investigate"; PyStr "rollback"]) ].

End StoreInvariants.

(* ================================================================== *)
(** * Properties *)
(* ================================================================== *)

(** ** Rounding *)

Section Rounding.

Local Open Scope R_scope.

Lemma Int_part_bounds (y : R) : IZR (Int_part y) <= y < IZR (Int_part y) + 1.
Proof.
  destruct (base_Int_part y) as [H1 H2]. split; lra.
Qed.

(** A real strictly closer to [n] than to its neighbours rounds to [n]. *)
Lemma round_half_even_near (y : R) (n : Z) :
  IZR n - 1 / 2 < y < IZR n + 1 / 2 -> round_half_even y = n.
Proof.
  intros [Hlo Hhi]. unfold round_half_even.
  destruct (Int_part_bounds y) as [Hf1 Hf2].
  set (f := Int_part y) in *.
  assert (Hle : (f <= n)%Z).
  { apply Z.lt_succ_r. apply lt_IZR. rewrite succ_IZR. lra. }
  assert (Hge : (n - 1 <= f)%Z).
  { apply Z.lt_succ_r. apply lt_IZR. rewrite succ_IZR, minus_IZR. lra. }
  assert (Hcase : f = n \/ f = (n - 1)%Z) by lia.
  destruct Hcase as [-> | ->].
  - destruct (Rlt_dec (y - IZR n) (1 / 2)); [reflexivity | lra].
  - rewrite minus_IZR.
    destruct (Rlt_dec (y - (IZR n - 1)) (1 / 2)); [lra |].
    destruct (Rlt_dec (1 / 2) (y - (IZR n - 1))); [lia | lra].
Qed.

(** The rounded value is at distance at most one half. *)
Lemma round_half_even_bounds (y : R) :
  IZR (round_half_even y) - 1 / 2 <= y <= IZR (round_half_even y) + 1 / 2.
Proof.
  unfold round_half_even.
  destruct (Int_part_bounds y) as [Hf1 Hf2].
  set (f := Int_part y) in *.
  destruct (Rlt_dec (y - IZR f) (1 / 2)); [lra |].
  destruct (Rlt_dec (1 / 2) (y - IZR f)).
  - rewrite plus_IZR. lra.
  - destruct (Z.even f); [lra | rewrite plus_IZR; lra].
Qed.

(** Rounding is monotone. *)
Lemma round_half_even_mono (x y : R) :
  x <= y -> (round_half_even x <= round_half_even y)%Z.
Proof.
  intros Hxy.
  destruct (Z.le_gt_cases (round_half_even x) (round_half_even y)) as [H | H];
    [exact H | exfalso].
  destruct (round_half_even_bounds x) as [Hx1 _].
  destruct (round_half_even_bounds y) as [_ Hy2].
  assert (H1 : (round_half_even y + 1 <= round_half_even x)%Z) by lia.
  apply IZR_le in H1. rewrite plus_IZR in H1.
  assert (Heq : x = y) by lra.
  subst y. lia.
Qed.

Lemma pow10_pos (n : nat) : 0 < 10 ^ n.
Proof. apply pow_lt. lra. Qed.

Lemma py_round_mono (x y : R) (n : nat) :
  x <= y -> py_round x n <= py_round y n.
Proof.
  intros Hxy. unfold py_round.
  pose proof (pow10_pos n) as Hp.
  apply Rmult_le_compat_r; [left; apply Rinv_0_lt_compat; exact Hp |].
  apply IZR_le, round_half_even_mono.
  apply Rmult_le_compat_r; lra.
Qed.

(** [round(x, n)] when [x * 10^n] lies strictly within one half of [k]. *)
Lemma py_round_near (x : R) (n : nat) (k : Z) :
  IZR k - 1 / 2 < x * 10 ^ n < IZR k + 1 / 2 ->
  py_round x n = IZR k / 10 ^ n.
Proof.
  intros H. unfold py_round. rewrite (round_half_even_near _ k H). reflexivity.
Qed.



End Rounding.

(** ** Level 3 on the worked example *)

Section Level3Example.

Local Open Scope R_scope.

Lemma ex3_steps :
  scenario_steps ex3_text =
  ["we investigate the issue"; "we rollback the change"; "we monitor after"].
Proof. vm_compute. reflexivity. Qed.

Lemma ex3_hits :
  fold_left scan_step (scenario_steps ex3_text) ([], []) =
  (["diagnose"; "contain"; "prevent"], []).
Proof. vm_compute. reflexivity. Qed.

Lemma ex3_terms :
  scenario_terms (scenario_steps ex3_text) = Ok (0.75, 0, 0).
Proof.
  unfold scenario_terms. rewrite ex3_hits.
  replace (py_set ["diagnose"; "contain"; "prevent"])
    with ["diagnose"; "contain"; "prevent"] by (vm_compute; reflexivity).
  unfold lenR, PHASES, py_div. cbn [List.length INR List.concat rbind].
  destruct (Req_dec_T (1 + 1 + 1 + 1) 0) as [E | _]; [lra |].
  cbn [rbind]. f_equal. f_equal; [f_equal |]; lra.
Qed.

(** C5. On "We investigate the issue. We rollback the change. We monitor
    after." Level 3 hits the phases diagnose, contain and prevent and no
    dimension, so flow = 0.75, tradeoff = 0 and stability = 0; the score
    is round(100 * 0.45 * 0.75, 2) = 33.75 and the answer does not pass. *)
Theorem level3_worked_example :
  fold_left scan_step (scenario_steps ex3_text) ([], []) =
    (["diagnose"; "contain"; "prevent"], [])
  /\ List.length (py_set ["diagnose"; "contain"; "prevent"]) = 3%nat
  /\ List.length PHASES = 4%nat
  /\ scenario_terms (scenario_steps ex3_text) = Ok (0.75, 0, 0)
  /\ py_round (100 * (0.45 * 0.75)) 2 = 33.75
  /\ level3_scenario (PyStr ex3_text) =
       Ok {| pass := false; score := 33.75;
             reason := "Weak scenario reasoning" |}.
Proof.
  assert (Hround : forall x, x = 33.75 -> py_round x 2 = 33.75).
  { intros x ->. rewrite (py_round_near _ 2 3375); cbn [pow]; lra. }
  split; [exact ex3_hits |].
  split; [vm_compute; reflexivity |].
  split; [reflexivity |].
  split; [exact ex3_terms |].
  split; [apply Hround; lra |].
  unfold level3_scenario. rewrite ex3_terms, ex3_steps.
  cbn [List.length Nat.ltb Nat.leb rbind].
  assert (Hlt : Rleb 75 (100 * (0.45 * 0.75 + 0.35 * 0 + 0.20 * 0)) = false).
  { unfold Rleb. destruct (Rle_dec _ _); [lra | reflexivity]. }
  rewrite Hlt. f_equal. f_equal. apply Hround. lra.
Qed.

End Level3Example.

(** ** Level 2 *)

Section Level2.

Local Open Scope R_scope.

Lemma grade_entry_counts (t c : Z) (v : pyval) :
  grade_entry (t, c) v =
  ((t + if gradable v then 1 else 0)%Z,
   (c + if graded_correct v then 1 else 0)%Z).
Proof.
  unfold grade_entry, gradable, graded_correct, dict_has.
  destruct v; try (f_equal; lia).
  destruct (dict_get d "correct") as [x |]; [| f_equal; lia].
  destruct (py_truth x); f_equal; lia.
Qed.

Lemma grade_from (vs : list pyval) (t c : Z) :
  fold_left grade_entry vs (t, c) =
  ((t + Z.of_nat (List.length (filter gradable vs)))%Z,
   (c + Z.of_nat (List.length (filter graded_correct vs)))%Z).
Proof.
  revert t c. induction vs as [| v vs IH]; intros t c; cbn [fold_left filter].
  - cbn. f_equal; lia.
  - rewrite grade_entry_counts, IH.
    destruct (gradable v); destruct (graded_correct v);
      cbn [List.length]; f_equal; lia.
Qed.

(** The loop counts exactly the gradable entries and, among them, the
    correct ones. *)
Lemma grade_counts (d : list (string * pyval)) :
  grade d = (Z.of_nat (gradable_total d), Z.of_nat (gradable_correct d)).
Proof.
  unfold grade, gradable_total, gradable_correct. rewrite grade_from.
  f_equal.
Qed.

Lemma gradable_correct_le (d : list (string * pyval)) :
  (gradable_correct d <= gradable_total d)%nat.
Proof.
  unfold gradable_correct, gradable_total.
  induction (dict_values d) as [| v vs IH]; cbn [filter]; [lia |].
  assert (Himp : graded_correct v = true -> gradable v = true).
  { unfold graded_correct, gradable, dict_has. destruct v; try discriminate.
    destruct (dict_get d0 "correct"); [reflexivity | discriminate]. }
  destruct (graded_correct v); destruct (gradable v); cbn [List.length];
    try lia.
Qed.

(** What Level 2 returns once the loop has found [t > 0] gradable entries,
    [c] of them correct. *)
Lemma level2_on_counts (d : list (string * pyval)) (t c : Z) :
  grade d = (t, c) -> (0 < t)%Z ->
  level2_technical (PyDict d) =
  Ok {| l2_pass := Rleb 0.5 (IZR c / IZR t);
        prob_pass := py_round (IZR c / IZR t) 3;
        l2_reason := if Rleb 0.5 (IZR c / IZR t) then "OK"
                     else "Weak technical fundamentals" |}.
Proof.
  intros Hg Ht. destruct d as [| e d].
  - cbv in Hg. inversion Hg. lia.
  - unfold level2_technical. rewrite Hg.
    destruct (Z.eqb_spec t 0) as [E | _]; [lia |].
    unfold py_div. destruct (Req_dec_T (IZR t) 0) as [E | _].
    + apply eq_IZR in E. lia.
    + reflexivity.
Qed.

Lemma level2_gradable (d : list (string * pyval)) :
  (0 < gradable_total d)%nat ->
  level2_technical (PyDict d) =
  Ok {| l2_pass := Rleb 0.5 (gradable_ratio d);
        prob_pass := py_round (gradable_ratio d) 3;
        l2_reason := if Rleb 0.5 (gradable_ratio d) then "OK"
                     else "Weak technical fundamentals" |}.
Proof.
  intros Ht. unfold gradable_ratio. rewrite !INR_IZR_INZ.
  apply level2_on_counts; [apply grade_counts | lia].
Qed.

Lemma Rleb_true_iff (x y : R) : Rleb x y = true <-> x <= y.
Proof.
  unfold Rleb. destruct (Rle_dec x y); split; intros; try easy.
Qed.

Lemma Rleb_false_iff (x y : R) : Rleb x y = false <-> y < x.
Proof.
  unfold Rleb. destruct (Rle_dec x y); split; intros; try easy; lra.
Qed.

Lemma level2_ex2 :
  level2_technical (PyDict ex2_answers) =
  Ok {| l2_pass := true; prob_pass := 0.5; l2_reason := "OK" |}.
Proof.
  rewrite (level2_on_counts ex2_answers 2 1);
    [| vm_compute; reflexivity | lia].
  assert (Hp : Rleb 0.5 (1 / 2) = true) by (apply Rleb_true_iff; lra).
  rewrite Hp. f_equal. f_equal.
  rewrite (py_round_near _ 3 500); cbn [pow]; lra.
Qed.




(** C7. Level 2 never raises on an input without gradable entries: a value
    that is not a mapping, an empty mapping, or a mapping none of whose
    values is a mapping with a "correct" key. It returns pass = false and
    prob_pass = 0.0. *)
Theorem level2_soft_failure (answers : pyval)
  (Hnone : forall d, answers = PyDict d -> gradable_total d = 0%nat) :
  exists r,
    level2_technical answers = Ok r
    /\ l2_pass r = false /\ prob_pass r = 0.0
    /\ (l2_reason r = "No answers" \/ l2_reason r = "Malformed input").
Proof.
  destruct answers as [| b | z | x | s | l | d];
    try (eexists; split; [reflexivity |]; cbn; auto).
  destruct d as [| e d].
  - eexists; split; [reflexivity |]; cbn; auto.
  - pose proof (Hnone _ eq_refl) as H0.
    unfold level2_technical. rewrite grade_counts, H0.
    cbn [Z.of_nat Z.eqb]. eexists; split; [reflexivity |]; cbn; auto.
Qed.

Lemma level2_soft_failure_witness :
  exists r,
    level2_technical (PyDict [("q1", PyStr "yes"); ("q2", PyDict [])]) = Ok r
    /\ l2_pass r = false /\ prob_pass r = 0.0
    /\ (l2_reason r = "No answers" \/ l2_reason r = "Malformed input").
Proof.
  apply level2_soft_failure.
  intros d Hd. injection Hd as <-. vm_compute. reflexivity.
Defined.

(** C8, in its weak form. A larger ratio correct/total never yields a
    smaller prob_pass. *)
Theorem level2_monotone (d1 d2 : list (string * pyval))
  (H1 : (0 < gradable_total d1)%nat) (H2 : (0 < gradable_total d2)%nat)
  (Hratio : gradable_ratio d1 <= gradable_ratio d2) :
  exists r1 r2,
    level2_technical (PyDict d1) = Ok r1
    /\ level2_technical (PyDict d2) = Ok r2
    /\ prob_pass r1 <= prob_pass r2.
Proof.
  do 2 eexists.
  split; [apply level2_gradable; exact H1 |].
  split; [apply level2_gradable; exact H2 |].
  cbn [prob_pass]. apply py_round_mono. exact Hratio.
Qed.

Lemma c8_ratio_44 : gradable_ratio c8_answers_44 = 1 / 44.
Proof.
  unfold gradable_ratio.
  replace (gradable_correct c8_answers_44) with 1%nat
    by (vm_compute; reflexivity).
  replace (gradable_total c8_answers_44) with 44%nat
    by (vm_compute; reflexivity).
  rewrite !INR_IZR_INZ. cbn [Z.of_nat Pos.of_succ_nat Pos.succ]. reflexivity.
Qed.

Lemma c8_ratio_43 : gradable_ratio c8_answers_43 = 1 / 43.
Proof.
  unfold gradable_ratio.
  replace (gradable_correct c8_answers_43) with 1%nat
    by (vm_compute; reflexivity).
  replace (gradable_total c8_answers_43) with 43%nat
    by (vm_compute; reflexivity).
  rewrite !INR_IZR_INZ. cbn [Z.of_nat Pos.of_succ_nat Pos.succ]. reflexivity.
Qed.

Lemma level2_monotone_witness :
  exists r1 r2,
    level2_technical (PyDict c8_answers_44) = Ok r1
    /\ level2_technical (PyDict c8_answers_43) = Ok r2
    /\ prob_pass r1 <= prob_pass r2.
Proof.
  apply level2_monotone.
  - vm_compute. lia.
  - vm_compute. lia.
  - rewrite c8_ratio_44, c8_ratio_43. lra.
Defined.

(** C8 does not hold strictly: 1/44 < 1/43, and both ratios round to 0.023. *)
Lemma level2_not_strictly_monotone :
  gradable_ratio c8_answers_44 < gradable_ratio c8_answers_43
  /\ exists r1 r2,
      level2_technical (PyDict c8_answers_44) = Ok r1
      /\ level2_technical (PyDict c8_answers_43) = Ok r2
      /\ prob_pass r1 = 0.023 /\ prob_pass r2 = 0.023
      /\ ~ (prob_pass r1 < prob_pass r2).
Proof.
  split; [rewrite c8_ratio_44, c8_ratio_43; lra |].
  do 2 eexists.
  split; [apply level2_gradable; vm_compute; lia |].
  split; [apply level2_gradable; vm_compute; lia |].
  cbn [prob_pass]. rewrite c8_ratio_44, c8_ratio_43.
  assert (Ha : py_round (1 / 44) 3 = 0.023)
    by (rewrite (py_round_near _ 3 23); cbn [pow]; lra).
  assert (Hb : py_round (1 / 43) 3 = 0.023)
    by (rewrite (py_round_near _ 3 23); cbn [pow]; lra).
  rewrite Ha, Hb. repeat split; lra.
Qed.

End Level2.

(** ** Counters *)

Section Counters.

Lemma mem_In (x : string) (l : list string) : mem x l = true <-> In x l.
Proof.
  unfold mem. rewrite existsb_exists. split.
  - intros [y [Hy E]]. apply String.eqb_eq in E. subst y. exact Hy.
  - intros H. exists x. split; [exact H | apply String.eqb_refl].
Qed.

Lemma keys_counter_incr (c : list (string * Z)) (x : string) :
  map fst (counter_incr c x) = set_add (map fst c) x.
Proof.
  unfold set_add. induction c as [| [k n] c IH]; cbn [counter_incr map fst].
  - reflexivity.
  - cbn [mem existsb]. rewrite (String.eqb_sym x k).
    destruct (String.eqb k x); cbn [map fst orb]; [reflexivity |].
    rewrite IH. fold (mem x (map fst c)).
    destruct (mem x (map fst c)); reflexivity.
Qed.

Lemma keys_fold_counter (l : list string) (c : list (string * Z)) :
  map fst (fold_left counter_incr l c) = fold_left set_add l (map fst c).
Proof.
  revert c. induction l as [| x l IH]; intros c; cbn [fold_left].
  - reflexivity.
  - rewrite IH, keys_counter_incr. reflexivity.
Qed.

Lemma keys_Counter (l : list string) : map fst (Counter l) = py_set l.
Proof. apply keys_fold_counter. Qed.

Lemma cget_counter_incr (c : list (string * Z)) (x t : string) :
  cget (counter_incr c x) t =
  (cget c t + if String.eqb t x then 1 else 0)%Z.
Proof.
  unfold cget. induction c as [| [k n] c IH]; cbn [counter_incr dict_get].
  - rewrite (String.eqb_sym t x). destruct (String.eqb x t); reflexivity.
  - destruct (String.eqb_spec k x) as [-> | Hkx]; cbn [dict_get].
    + rewrite (String.eqb_sym t x). destruct (String.eqb x t); lia.
    + destruct (String.eqb_spec k t) as [-> | Hkt].
      * destruct (String.eqb_spec t x) as [E | _]; [congruence | lia].
      * exact IH.
Qed.

Lemma cget_fold_counter (l : list string) (c : list (string * Z)) (t : string) :
  cget (fold_left counter_incr l c) t =
  (cget c t + Z.of_nat (occurrences t l))%Z.
Proof.
  unfold occurrences. revert c.
  induction l as [| x l IH]; intros c; cbn [fold_left filter].
  - cbn. lia.
  - rewrite IH, cget_counter_incr.
    destruct (String.eqb t x); cbn [List.length]; lia.
Qed.

Lemma NoDup_set_add (s : list string) (x : string) :
  NoDup s -> NoDup (set_add s x).
Proof.
  intros Hs. unfold set_add. destruct (mem x s) eqn:E; [exact Hs |].
  assert (Hx : ~ In x s).
  { intros H. apply mem_In in H. congruence. }
  clear E. induction Hs as [| y s Hy Hs IH]; cbn [app].
  - constructor; [intros [] | constructor].
  - constructor.
    + rewrite in_app_iff. intros [H | [H | []]]; [exact (Hy H) |].
      apply Hx. left. symmetry. exact H.
    + apply IH. intros H. apply Hx. right. exact H.
Qed.

Lemma NoDup_fold_set_add (l s : list string) :
  NoDup s -> NoDup (fold_left set_add l s).
Proof.
  revert s. induction l as [| x l IH]; intros s Hs; cbn [fold_left].
  - exact Hs.
  - apply IH, NoDup_set_add, Hs.
Qed.

Lemma NoDup_py_set (l : list string) : NoDup (py_set l).
Proof. apply NoDup_fold_set_add. constructor. Qed.

(** A dictionary with distinct keys is determined by its keys and the
    value found under each. *)
Lemma dict_by_keys (c : list (string * Z)) :
  NoDup (map fst c) -> c = map (fun t => (t, cget c t)) (map fst c).
Proof.
  induction c as [| [k n] c IH]; cbn [map fst]; intros Hnd.
  - reflexivity.
  - inversion Hnd as [| k' ks Hk Hks]; subst.
    unfold cget at 1. cbn [dict_get]. rewrite String.eqb_refl. f_equal.
    rewrite (IH Hks) at 1. apply map_ext_in. intros t Ht.
    unfold cget. cbn [dict_get].
    destruct (String.eqb_spec k t) as [-> | _]; [contradiction | reflexivity].
Qed.

(** The counter maps each distinct token, in order of first occurrence,
    to its number of occurrences. *)
Lemma Counter_values (l : list string) :
  dict_values (Counter l) =
  map (fun t => Z.of_nat (occurrences t l)) (py_set l).
Proof.
  unfold dict_values.
  rewrite (dict_by_keys (Counter l)) by (rewrite keys_Counter; apply NoDup_py_set).
  rewrite keys_Counter, map_map. apply map_ext. intros t. cbn [snd].
  unfold Counter. rewrite cget_fold_counter. reflexivity.
Qed.

Lemma sumZ_from (xs : list Z) (a : Z) :
  fold_left Z.add xs a = (a + sumZ xs)%Z.
Proof.
  unfold sumZ. revert a. induction xs as [| x xs IH]; intros a; cbn [fold_left].
  - lia.
  - rewrite IH, (IH (0 + x)%Z). lia.
Qed.

Lemma sumZ_cons (x : Z) (xs : list Z) : sumZ (x :: xs) = (x + sumZ xs)%Z.
Proof. unfold sumZ at 1. cbn [fold_left]. rewrite sumZ_from. lia. Qed.

Lemma sumZ_counter_incr (c : list (string * Z)) (x : string) :
  sumZ (dict_values (counter_incr c x)) = (sumZ (dict_values c) + 1)%Z.
Proof.
  unfold dict_values.
  induction c as [| [k n] c IH]; cbn [counter_incr map snd].
  - reflexivity.
  - destruct (String.eqb k x); cbn [map snd]; rewrite !sumZ_cons; lia.
Qed.

Lemma sumZ_fold_counter (l : list string) (c : list (string * Z)) :
  sumZ (dict_values (fold_left counter_incr l c)) =
  (sumZ (dict_values c) + Z.of_nat (List.length l))%Z.
Proof.
  revert c. induction l as [| x l IH]; intros c; cbn [fold_left List.length].
  - lia.
  - rewrite IH, sumZ_counter_incr. lia.
Qed.

(** [sum(counts.values())] is the number of tokens. *)
Lemma Counter_total (l : list string) :
  sumZ (dict_values (Counter l)) = Z.of_nat (List.length l).
Proof. unfold Counter. rewrite sumZ_fold_counter. reflexivity. Qed.

Lemma positive_counter_incr (c : list (string * Z)) (x : string) :
  Forall (fun n => (1 <= n)%Z) (dict_values c) ->
  Forall (fun n => (1 <= n)%Z) (dict_values (counter_incr c x)).
Proof.
  unfold dict_values.
  induction c as [| [k n] c IH]; cbn [counter_incr map snd]; intros H.
  - constructor; [lia | constructor].
  - inversion H as [| n' ns Hn Hns]; subst.
    destruct (String.eqb k x); cbn [map snd]; constructor; auto; lia.
Qed.

(** Every stored count is at least 1. *)
Lemma Counter_positive (l : list string) :
  Forall (fun n => (1 <= n)%Z) (dict_values (Counter l)).
Proof.
  unfold Counter.
  assert (H : Forall (fun n => (1 <= n)%Z) (dict_values (@nil (string * Z))))
    by constructor.
  revert H. generalize (@nil (string * Z)).
  induction l as [| x l IH]; intros c Hc; cbn [fold_left].
  - exact Hc.
  - apply IH, positive_counter_incr, Hc.
Qed.

Lemma Counter_nonempty (x : string) (l : list string) :
  Counter (x :: l) <> [].
Proof.
  intros E. pose proof (Counter_total (x :: l)) as H.
  rewrite E in H. cbn in H. lia.
Qed.

End Counters.

(** ** Level 1 *)

Section Level1.

Local Open Scope R_scope.

Lemma py_sum_from (xs : list R) (a : R) :
  fold_left Rplus xs a = a + sum_list xs.
Proof.
  revert a. induction xs as [| x xs IH]; intros a; cbn [fold_left sum_list fold_right].
  - lra.
  - rewrite IH. unfold sum_list. lra.
Qed.

Lemma py_sum_sum_list (xs : list R) : py_sum xs = sum_list xs.
Proof. unfold py_sum. rewrite py_sum_from. lra. Qed.

Lemma py_div_ok (x y : R) : y <> 0 -> py_div x y = Ok (x / y).
Proof.
  intros Hy. unfold py_div. destruct (Req_dec_T y 0); [contradiction | reflexivity].
Qed.

Lemma py_log_ok (x : R) : 0 < x -> py_log x = Ok (ln x).
Proof.
  intros Hx. unfold py_log. destruct (Rlt_dec 0 x); [reflexivity | contradiction].
Qed.

Lemma ln_pos (x : R) : 1 < x -> 0 < ln x.
Proof. intros Hx. rewrite <- ln_1. apply ln_increasing; lra. Qed.

(** Every term of the entropy sum is defined: the quotient of a positive
    count by a positive total is positive. *)
Lemma entropy_terms_ok (cs : list Z) (total : Z) :
  (0 < total)%Z -> Forall (fun c => (1 <= c)%Z) cs ->
  rmap (fun c : Z =>
          rbind (py_div (IZR c) (IZR total)) (fun p =>
          rbind (py_div (IZR c) (IZR total)) (fun q =>
          rbind (py_log q) (fun l => Ok (p * l)))))
       cs
  = Ok (map (fun c => IZR c / IZR total * ln (IZR c / IZR total)) cs).
Proof.
  intros Ht Hcs. apply IZR_lt in Ht.
  induction Hcs as [| c cs Hc Hcs IH]; cbn [rmap map].
  - reflexivity.
  - apply IZR_le in Hc.
    rewrite py_div_ok by lra. cbn [rbind].
    rewrite py_log_ok by (apply Rdiv_lt_0_compat; lra).
    cbn [rbind]. rewrite IH. reflexivity.
Qed.

(** What Level 1 computes on a text of at least 30 tokens. *)
Lemma level1_long (s : string) :
  (30 <= List.length (tokens_of s))%nat ->
  level1_screen (PyStr s) =
  Ok {| pass := Rleb 60 (level1_formula (tokens_of s));
        score := py_round (level1_formula (tokens_of s)) 2;
        reason := if Rleb 60 (level1_formula (tokens_of s)) then "OK"
                  else "Low signal" |}.
Proof.
  intros Hlen. unfold level1_screen. fold (tokens_of s).
  set (toks := tokens_of s) in *.
  destruct (Nat.ltb_spec (List.length toks) 30) as [Hlt | _]; [lia |].
  rewrite Counter_total.
  assert (HN : 30 <= IZR (Z.of_nat (List.length toks))).
  { apply IZR_le. lia. }
  rewrite entropy_terms_ok; [| lia | apply Counter_positive].
  cbn [rbind].
  rewrite py_log_ok by lra. cbn [rbind].
  assert (Hln : 0 < ln (IZR (Z.of_nat (List.length toks)))) by (apply ln_pos; lra).
  rewrite py_div_ok by lra. cbn [rbind].
  rewrite py_div_ok by lra. cbn [rbind].
  assert (Hscore :
    100 * (0.55 * Rmin (- py_sum
                          (map (fun c : Z =>
                                  IZR c / IZR (Z.of_nat (List.length toks))
                                  * ln (IZR c / IZR (Z.of_nat (List.length toks))))
                               (dict_values (Counter toks)))
                        / ln (IZR (Z.of_nat (List.length toks)))) 1.0
           + 0.45 * (INR (List.length (py_set toks))
                     / IZR (Z.of_nat (List.length toks))))
    = level1_formula toks).
  { unfold level1_formula, shannon_entropy, token_counts.
    rewrite Counter_values, py_sum_sum_list, !map_map.
    rewrite <- (INR_IZR_INZ (List.length toks)).
    erewrite map_ext; [reflexivity |].
    intros t. cbv beta. rewrite <- INR_IZR_INZ. reflexivity. }
  rewrite Hscore. reflexivity.
Qed.


Lemma level1_short (s : string) :
  (List.length (tokens_of s) < 30)%nat ->
  level1_screen (PyStr s) =
  Ok {| pass := false; score := 0.0; reason := "Too short" |}.
Proof.
  intros H. unfold level1_screen. fold (tokens_of s).
  destruct (Nat.ltb_spec (List.length (tokens_of s)) 30); [reflexivity | lia].
Qed.

(** C6. A text of fewer than 30 tokens is answered by exactly
    [{pass: false, score: 0.0, reason: "Too short"}], and an input that is
    not text by a non-passing result instead of an exception. *)
Theorem level1_soft_failure (v : pyval)
  (Hshort : forall s, v = PyStr s -> (List.length (tokens_of s) < 30)%nat) :
  match v with
  | PyStr _ =>
      level1_screen v =
      Ok {| pass := false; score := 0.0; reason := "Too short" |}
  | _ =>
      level1_screen v =
      Ok {| pass := false; score := 0.0; reason := "Invalid input" |}
  end.
Proof.
  destruct v; try reflexivity.
  apply level1_short, Hshort. reflexivity.
Qed.

End Level1.

(** ** Level 1 on a text whose score rounds up to 60 *)

Section Level1Rounding.

Local Open Scope R_scope.




Lemma ln_div (x y : R) : 0 < x -> 0 < y -> ln (x / y) = ln x - ln y.
Proof.
  intros Hx Hy. unfold Rdiv.
  rewrite ln_mult by (auto using Rinv_0_lt_compat).
  rewrite ln_Rinv by exact Hy. lra.
Qed.








Lemma level1_soft_failure_witness :
  level1_screen (PyStr "Senior backend engineer, ten years of Python.") =
  Ok {| pass := false; score := 0.0; reason := "Too short" |}.
Proof.
  apply (level1_soft_failure
           (PyStr "Senior backend engineer, ten years of Python.")).
  intros s Hs. injection Hs as <-. vm_compute. lia.
Defined.

End Level1Rounding.

(** ** Totality of the scorers *)

Section Totality.

Local Open Scope R_scope.

Lemma lenR_cons_pos {A : Type} (x : A) (l : list A) : 0 < lenR (x :: l).
Proof. unfold lenR. apply lt_0_INR. cbn. lia. Qed.

Lemma lenR_PHASES : lenR PHASES = 4.
Proof. unfold lenR, PHASES. cbn [List.length INR]. lra. Qed.

Lemma lenR_DIMENSIONS : lenR DIMENSIONS = 4.
Proof. unfold lenR, DIMENSIONS. cbn [List.length INR]. lra. Qed.

(** The three terms are always defined: each division is by the constant
    4 or guarded by the non-emptiness of its list. *)
Lemma scenario_terms_closed (steps : list string) :
  scenario_terms steps =
  let (phase_hits, dim_hits) := fold_left scan_step steps ([], []) in
  Ok (lenR (py_set phase_hits) / 4,
      tradeoff_of dim_hits,
      1 - dominance_of (List.concat dim_hits)).
Proof.
  unfold scenario_terms.
  destruct (fold_left scan_step steps ([], [])) as [ph dh].
  rewrite py_div_ok by (rewrite lenR_PHASES; lra).
  cbn [rbind]. rewrite lenR_PHASES.
  assert (Ht : match dh with
               | [] => Ok 0
               | _ :: _ => py_div (py_sum (map lenR dh))
                                  (lenR dh * lenR DIMENSIONS)
               end = Ok (tradeoff_of dh)).
  { destruct dh as [| d dh']; [reflexivity |].
    apply py_div_ok. rewrite lenR_DIMENSIONS.
    pose proof (lenR_cons_pos d dh'). lra. }
  rewrite Ht. cbn [rbind].
  assert (Hd : match List.concat dh with
               | [] => Ok 1.0
               | _ :: _ =>
                   rbind (py_max (dict_values (Counter (List.concat dh))))
                         (fun m => py_div (IZR m) (lenR (List.concat dh)))
               end = Ok (dominance_of (List.concat dh))).
  { destruct (List.concat dh) as [| x l] eqn:E; [reflexivity |].
    unfold dominance_of, max_count, py_max.
    pose proof (Counter_nonempty x l) as Hne.
    destruct (Counter (x :: l)) as [| kn c]; [contradiction |].
    cbn [dict_values map rbind].
    apply py_div_ok. pose proof (lenR_cons_pos x l). lra. }
  rewrite Hd. reflexivity.
Qed.

Lemma level3_total (s : string) : exists r, level3_scenario (PyStr s) = Ok r.
Proof.
  unfold level3_scenario.
  destruct (List.length (scenario_steps s) <? 2)%nat; [eexists; reflexivity |].
  rewrite scenario_terms_closed.
  destruct (fold_left scan_step (scenario_steps s) ([], [])) as [ph dh].
  cbn [rbind]. eexists; reflexivity.
Qed.

Lemma level1_total (s : string) : exists r, level1_screen (PyStr s) = Ok r.
Proof.
  destruct (Nat.lt_ge_cases (List.length (tokens_of s)) 30) as [H | H].
  - eexists. apply level1_short. exact H.
  - eexists. apply level1_long. exact H.
Qed.

(** C10. Both scorers return on every string. In Level 1, past the
    30-token guard the total is at least 30, its logarithm is positive and
    every quotient count/total fed to the logarithm is positive. In Level 3
    the flow denominator is the constant 4, and tradeoff and dominance
    divide only by the sizes of non-empty lists, falling back to 0 and 1.0
    on empty ones. *)
Theorem scorers_total (s : string) :
  (exists r, level1_screen (PyStr s) = Ok r)
  /\ (let toks := tokens_of s in
      let total := sumZ (dict_values (Counter toks)) in
      (List.length toks < 30)%nat
      \/ ((30 <= total)%Z
          /\ 0 < IZR total /\ 0 < ln (IZR total)
          /\ Forall (fun c => 0 < IZR c / IZR total)
                    (dict_values (Counter toks))))
  /\ (exists r, level3_scenario (PyStr s) = Ok r)
  /\ lenR PHASES = 4
  /\ (let (phase_hits, dim_hits) :=
        fold_left scan_step (scenario_steps s) ([], []) in
      scenario_terms (scenario_steps s) =
        Ok (lenR (py_set phase_hits) / 4,
            tradeoff_of dim_hits,
            1 - dominance_of (List.concat dim_hits))
      /\ match dim_hits with
         | [] => tradeoff_of dim_hits = 0
         | _ :: _ => 0 < lenR dim_hits * lenR DIMENSIONS
         end
      /\ match List.concat dim_hits with
         | [] => dominance_of (List.concat dim_hits) = 1.0
         | _ :: _ => 0 < lenR (List.concat dim_hits)
         end).
Proof.
  split; [apply level1_total |].
  split.
  { cbv zeta. destruct (Nat.lt_ge_cases (List.length (tokens_of s)) 30) as [H | H];
      [left; exact H | right].
    rewrite Counter_total.
    assert (HN : 30 <= IZR (Z.of_nat (List.length (tokens_of s))))
      by (apply IZR_le; lia).
    split; [lia |]. split; [lra |]. split; [apply ln_pos; lra |].
    eapply Forall_impl; [| apply Counter_positive].
    intros c Hc. cbv beta in Hc. apply IZR_le in Hc.
    apply Rdiv_lt_0_compat; lra. }
  split; [apply level3_total |].
  split; [apply lenR_PHASES |].
  pose proof (scenario_terms_closed (scenario_steps s)) as Hc.
  destruct (fold_left scan_step (scenario_steps s) ([], [])) as [ph dh].
  split; [exact Hc |]. split.
  - destruct dh as [| d dh']; [reflexivity |].
    rewrite lenR_DIMENSIONS. pose proof (lenR_cons_pos d dh'). lra.
  - destruct (List.concat dh) as [| x l]; [reflexivity | apply lenR_cons_pos].
Qed.

End Totality.

(** ** The persistence store *)

Section Store.

Lemma init_db_run (w : world) : init_db w = (Ok tt, w).
Proof. reflexivity. Qed.

Lemma upsert_candidate_run (vfn vem vph vro : pyval) (fn em ph ro : sqlval)
  (w : world) :
  sql_bind_text vfn = Ok fn -> sql_bind_text vem = Ok em ->
  sql_bind_text vph = Ok ph -> sql_bind_text vro = Ok ro ->
  upsert_candidate vfn vem vph vro None w =
  (Ok (next_id "cand" w), upsert_world fn em ph ro w).
Proof.
  intros Hfn Hem Hph Hro.
  unfold upsert_candidate, upsert_world, mbind, transaction, new_id, get_db,
    utc_now, lift, put_db, mret.
  rewrite init_db_run. cbn [w_db draw].
  destruct (has_candidate (w_db w) (next_id "cand" w));
    rewrite Hfn, Hem, Hph, Hro; reflexivity.
Qed.

Lemma upsert_world_sessions fn em ph ro w :
  sessions (w_db (upsert_world fn em ph ro w)) = sessions (w_db w).
Proof. unfold upsert_world. destruct (has_candidate _ _); reflexivity. Qed.

Lemma upsert_world_results fn em ph ro w :
  round_results (w_db (upsert_world fn em ph ro w)) = round_results (w_db w).
Proof. unfold upsert_world. destruct (has_candidate _ _); reflexivity. Qed.

Lemma upsert_world_draws fn em ph ro w :
  w_draws (upsert_world fn em ph ro w) = S (w_draws w).
Proof. unfold upsert_world. destruct (has_candidate _ _); reflexivity. Qed.

Lemma upsert_world_hex fn em ph ro w :
  w_uuid4_hex (upsert_world fn em ph ro w) = w_uuid4_hex w.
Proof. unfold upsert_world. destruct (has_candidate _ _); reflexivity. Qed.

Lemma candidate_id_update cid fn em ph ro c :
  candidate_id (update_candidate cid fn em ph ro c) = candidate_id c.
Proof. unfold update_candidate. destruct (String.eqb _ _); reflexivity. Qed.

Lemma upsert_world_has_candidate fn em ph ro w :
  has_candidate (w_db (upsert_world fn em ph ro w)) (next_id "cand" w) = true.
Proof.
  unfold upsert_world.
  destruct (has_candidate (w_db w) (next_id "cand" w)) eqn:E;
    unfold has_candidate in *; cbn [w_db set_db candidates update_candidates
                                     insert_candidate].
  - rewrite existsb_exists in *. destruct E as [c [Hc Hid]].
    exists (update_candidate (next_id "cand" w) fn em ph ro c).
    split; [apply in_map; exact Hc | rewrite candidate_id_update; exact Hid].
  - rewrite existsb_app. cbn [existsb candidate_id].
    rewrite String.eqb_refl. apply orb_true_iff. right. reflexivity.
Qed.

Lemma create_session_run (cid : string) (w : world) :
  has_session (w_db w) (next_id "sess" w) = false ->
  has_candidate (w_db w) cid = true ->
  create_session cid w =
  (Ok (next_id "sess" w),
   set_db (tick (draw w))
          (insert_session (w_db w)
             (mk_session (next_id "sess" w) cid "IN_PROGRESS"
                         None None (now_str w) None))).
Proof.
  intros Hs Hc.
  unfold create_session, mbind, transaction, new_id, get_db, utc_now,
    put_db, mret, mraise.
  rewrite init_db_run. cbn [w_db draw]. rewrite Hs, Hc. reflexivity.
Qed.

Lemma save_round_result_run (sid : string) (n : Z) (own q : string)
  (a : pyval) (ans : sqlval) (raw sc : R) (p : bool) (th : R)
  (qid : option string) (vio : option (list string))
  (met fea : option (list (string * pyval))) (ent : option R) (w : world) :
  in_int64 n = true -> sql_bind_text a = Ok ans ->
  has_result (w_db w) (next_id "res" w) = false ->
  has_session (w_db w) sid = true ->
  save_round_result sid n own q a raw sc p th qid vio met fea ent w =
  (Ok (next_id "res" w),
   set_db (tick (draw w))
          (insert_result (w_db w)
             (mk_round (next_id "res" w) sid n own qid q ans raw sc
                       (if p then 1 else 0) th (or_empty vio) (or_empty met)
                       (or_empty fea) ent (now_str w)))).
Proof.
  intros Hn Ha Hr Hs.
  unfold save_round_result, mbind, transaction, new_id, get_db, utc_now,
    put_db, mret, mraise, lift.
  rewrite init_db_run. cbn [w_db draw tick]. rewrite Hn, Ha, Hr, Hs.
  reflexivity.
Qed.

Lemma complete_session_run (sid : string) (fs : R) (fd : string) (w : world) :
  complete_session sid fs fd w =
  (Ok tt, set_db (tick w) (update_completed (w_db w) sid fs fd (now_str w))).
Proof. reflexivity. Qed.

(** Rows of other sessions are untouched by the completing UPDATE. *)
Lemma complete_row_other (sid : string) (fs : R) (fd now : string)
  (l : list session_row) :
  existsb (fun r => String.eqb (session_id r) sid) l = false ->
  map (complete_row sid fs fd now) l = l.
Proof.
  induction l as [| r l IH]; cbn [existsb map]; intros H; [reflexivity |].
  apply orb_false_iff in H. destruct H as [Hr Hl].
  unfold complete_row at 1. rewrite Hr, (IH Hl). reflexivity.
Qed.

Lemma find_app_fresh {A : Type} (p : A -> bool) (l : list A) (x : A) :
  existsb p l = false -> p x = true -> find p (l ++ [x]) = Some x.
Proof.
  induction l as [| y l IH]; cbn [existsb app find]; intros Hl Hx.
  - rewrite Hx. reflexivity.
  - apply orb_false_iff in Hl. destruct Hl as [Hy Hl].
    rewrite Hy. apply IH; assumption.
Qed.

(** With consistent foreign keys a session id that names no session has
    no round result. *)
Lemma fresh_session_no_results (db : database) (sid : string) :
  fk_consistent db = true -> has_session db sid = false ->
  results_of db sid = [].
Proof.
  unfold fk_consistent, results_of. intros Hfk Hs.
  rewrite forallb_forall in Hfk.
  induction (round_results db) as [| r l IH]; [reflexivity |].
  cbn [filter].
  destruct (String.eqb_spec (res_session_id r) sid) as [E | _].
  - pose proof (Hfk r (or_introl eq_refl)) as H. rewrite E in H. congruence.
  - apply IH. intros x Hx. apply Hfk. right. exact Hx.
Qed.

End Store.

(** ** The orchestrator *)

Section OrchestratorProperties.

Variable py_str : pyval -> string.

Lemma sql_bindable_inv (v : pyval) :
  sql_bindable v = true -> exists x, sql_bind_text v = Ok x.
Proof.
  unfold sql_bindable, sql_bind_text.
  destruct (sql_bind v) as [x | e]; [| discriminate].
  intros _. eexists. reflexivity.
Qed.

Lemma sql_unbindable_inv (v : pyval) :
  sql_bindable v = false -> exists e, sql_bind_text v = Raise e.
Proof.
  unfold sql_bindable, sql_bind_text.
  destruct (sql_bind v) as [x | e]; [discriminate |].
  intros _. exists e. reflexivity.
Qed.

Lemma sql_bind_text_raise (v : pyval) (e : pyerr) :
  sql_bind_text v = Raise e -> sql_bindable v = false.
Proof.
  unfold sql_bindable, sql_bind_text.
  destruct (sql_bind v) as [x | e']; [discriminate | reflexivity].
Qed.

Lemma nth_id_next (prefix : string) (w w0 : world) (k : nat) :
  w_uuid4_hex w = w_uuid4_hex w0 -> w_draws w = (w_draws w0 + k)%nat ->
  next_id prefix w = nth_id prefix w0 k.
Proof. intros Hh Hd. unfold next_id, nth_id. rewrite Hh, Hd. reflexivity. Qed.

Lemma has_session_insert_session (db : database) (r : session_row) (sid : string) :
  has_session (insert_session db r) sid =
  has_session db sid || String.eqb (session_id r) sid.
Proof.
  unfold has_session, insert_session. cbn [sessions].
  rewrite existsb_app. cbn [existsb]. rewrite orb_false_r. reflexivity.
Qed.

Lemma has_result_insert_result (db : database) (r : round_row) (rid : string) :
  has_result (insert_result db r) rid =
  has_result db rid || String.eqb (result_id r) rid.
Proof.
  unfold has_result, insert_result. cbn [round_results].
  rewrite existsb_app. cbn [existsb]. rewrite orb_false_r. reflexivity.
Qed.

Lemma results_of_insert_result (db : database) (r : round_row) (sid : string) :
  results_of (insert_result db r) sid =
  results_of db sid ++ (if String.eqb (res_session_id r) sid then [r] else []).
Proof.
  unfold results_of, insert_result. cbn [round_results].
  rewrite filter_app. reflexivity.
Qed.

(** Completing a session that was inserted last and whose id is otherwise
    unused. *)
Lemma find_completed (db : database) (sid cid : string) (fs : R)
  (fd now created : string) (rs : list round_row) :
  has_session db sid = false ->
  find_session
    (update_completed
       {| candidates := candidates db;
          sessions := sessions db ++
                      [mk_session sid cid "IN_PROGRESS" None None created None];
          round_results := rs |}
       sid fs fd now) sid =
  Some (mk_session sid cid "COMPLETED" (Some fs) (Some fd) created (Some now)).
Proof.
  intros Hs. unfold find_session, update_completed. cbn [sessions].
  rewrite map_app, (complete_row_other sid fs fd now _ Hs).
  cbn [map]. unfold complete_row. cbn [session_id].
  rewrite String.eqb_refl.
  apply find_app_fresh; [exact Hs | cbn [session_id]; apply String.eqb_refl].
Qed.

(** The four writes common to every run: candidate, session, Level 1
    result. [w3] is the world after them. *)
Lemma evaluate_round1 (payload : list (string * pyval)) (w : world)
  (l1 : score_result) :
  level1_screen (resume_of payload) = Ok l1 ->
  accepts_round1 payload w = true ->
  exists (w1 : world) (ans : sqlval),
    let cid := next_id "cand" w in
    let sid := nth_id "sess" w 1 in
    let row0 := mk_session sid cid "IN_PROGRESS" None None (now_str w1) None in
    let w2 := set_db (tick (draw w1)) (insert_session (w_db w1) row0) in
    let r1 := mk_round (nth_id "res" w 2) sid 1 "Interviewer L1" None
                       "Resume Screening" ans (score l1) (score l1)
                       (if pass l1 then 1 else 0) 60.0 [] []
                       (score_dict l1) None (now_str w2) in
    let w3 := set_db (tick (draw w2)) (insert_result (w_db w2) r1) in
    sessions (w_db w1) = sessions (w_db w)
    /\ round_results (w_db w1) = round_results (w_db w)
    /\ w_uuid4_hex w1 = w_uuid4_hex w
    /\ w_draws w1 = S (w_draws w)
    /\ forall k : string -> score_result -> M pyval,
         mbind (upsert_candidate
                  (dict_get_default payload "full_name" (PyStr "Unknown"))
                  (dict_get_default payload "email" (PyStr ""))
                  (dict_get_default payload "phone" (PyStr ""))
                  (dict_get_default payload "role" (PyStr "Backend Engineer"))
                  None)
           (fun candidate_id =>
              mbind (create_session candidate_id) (fun session_id =>
              mbind (lift (level1_screen (resume_of payload))) (fun l1 =>
              mbind (save_round_result session_id 1 "Interviewer L1"
                       "Resume Screening" (resume_of payload)
                       (score l1) (score l1) (pass l1) 60.0
                       None None None (Some (score_dict l1)) None)
                    (fun _ => k session_id l1)))) w
         = k sid l1 w3.
Proof.
  intros Hl1 Hacc. unfold accepts_round1 in Hacc.
  rewrite !andb_true_iff in Hacc.
  destruct Hacc as [[[[[[B1 B2] B3] B4] B5] H4] H].
  destruct (sql_bindable_inv _ B1) as [fn Hfn].
  destruct (sql_bindable_inv _ B2) as [em Hem].
  destruct (sql_bindable_inv _ B3) as [ph Hph].
  destruct (sql_bindable_inv _ B4) as [ro Hro].
  destruct (sql_bindable_inv _ B5) as [ans Hans].
  apply negb_true_iff in H, H4.
  exists (upsert_world fn em ph ro w), ans. cbv zeta.
  set (w1 := upsert_world fn em ph ro w).
  assert (Hs1 : sessions (w_db w1) = sessions (w_db w))
    by apply upsert_world_sessions.
  assert (Hr1 : round_results (w_db w1) = round_results (w_db w))
    by apply upsert_world_results.
  assert (Hh1 : w_uuid4_hex w1 = w_uuid4_hex w) by apply upsert_world_hex.
  assert (Hd1 : w_draws w1 = S (w_draws w)) by apply upsert_world_draws.
  repeat (split; [assumption |]).
  intros k.
  assert (Hsid : next_id "sess" w1 = nth_id "sess" w 1).
  { apply nth_id_next; [exact Hh1 | rewrite Hd1; lia]. }
  unfold mbind at 1. rewrite (upsert_candidate_run _ _ _ _ fn em ph ro w Hfn Hem Hph Hro).
  fold w1. unfold mbind at 1.
  rewrite (create_session_run (next_id "cand" w) w1);
    [| rewrite Hsid; unfold has_session; rewrite Hs1; exact H4
     | apply upsert_world_has_candidate].
  rewrite Hsid.
  set (sid := nth_id "sess" w 1) in *.
  set (w2 := set_db (tick (draw w1)) _).
  unfold mbind at 1. unfold lift at 1. rewrite Hl1.
  unfold mbind at 1.
  assert (Hrid : next_id "res" w2 = nth_id "res" w 2).
  { apply nth_id_next; [exact Hh1 | cbn [w_draws w2 set_db tick draw]; rewrite Hd1; lia]. }
  rewrite (save_round_result_run sid 1 _ _ (resume_of payload) ans);
    [| reflexivity | exact Hans
     | rewrite Hrid; unfold has_result; cbn [w_db w2 set_db round_results insert_session];
       rewrite Hr1; exact H
     | cbn [w_db w2 set_db]; rewrite has_session_insert_session;
       cbn [session_id]; rewrite String.eqb_refl; apply orb_true_r].
  rewrite Hrid. reflexivity.
Qed.

Lemma evaluate_candidate_by_stage (payload : list (string * pyval)) :
  evaluate_candidate py_str payload =
  mbind (upsert_candidate
           (dict_get_default payload "full_name" (PyStr "Unknown"))
           (dict_get_default payload "email" (PyStr ""))
           (dict_get_default payload "phone" (PyStr ""))
           (dict_get_default payload "role" (PyStr "Backend Engineer"))
           None)
    (fun candidate_id =>
       mbind (create_session candidate_id) (fun session_id =>
       mbind (lift (level1_screen (resume_of payload))) (fun l1 =>
       mbind (save_round_result session_id 1 "Interviewer L1"
                "Resume Screening" (resume_of payload)
                (score l1) (score l1) (pass l1) 60.0
                None None None (Some (score_dict l1)) None)
             (fun _ =>
                (fun sid r1 =>
                   if negb (pass r1) then finish_level1 sid r1
                   else run_level2 py_str payload sid r1) session_id l1)))).
Proof. reflexivity. Qed.

Lemma accepts_round1_fresh (payload : list (string * pyval)) (w : world) :
  accepts_round1 payload w = true ->
  has_session (w_db w) (nth_id "sess" w 1) = false
  /\ has_result (w_db w) (nth_id "res" w 2) = false.
Proof.
  unfold accepts_round1. rewrite !andb_true_iff, !negb_true_iff. tauto.
Qed.

(** C3. When Level 1 does not pass, the run stops there: the result holds
    failed_at = "level1" and the Level 1 output and no level2 or level3
    entry, the session is COMPLETED with decision REJECT and the Level 1
    score, and the session has exactly one round result, with round_no 1. *)
Theorem level1_failure_rejects (payload : list (string * pyval)) (w : world)
  (l1 : score_result)
  (Hl1 : level1_screen (resume_of payload) = Ok l1)
  (Hfail : pass l1 = false)
  (Hfk : fk_consistent (w_db w) = true)
  (Hacc : accepts_round1 payload w = true) :
  exists (ret : list (string * pyval)) (w' : world) (row : session_row)
         (r : round_row),
    evaluate_candidate py_str payload w = (Ok (PyDict ret), w')
    /\ ret = [ ("final_pass", PyBool false);
               ("failed_at", PyStr "level1");
               ("session_id", PyStr (nth_id "sess" w 1));
               ("level1", PyDict (score_dict l1)) ]
    /\ dict_get ret "level2" = None /\ dict_get ret "level3" = None
    /\ find_session (w_db w') (nth_id "sess" w 1) = Some row
    /\ status row = "COMPLETED"
    /\ final_decision row = Some "REJECT"
    /\ final_score row = Some (score l1)
    /\ completed_at row <> None
    /\ results_of (w_db w') (nth_id "sess" w 1) = [r]
    /\ round_no r = 1%Z /\ threshold r = 60.0%R
    /\ res_score r = score l1 /\ passed r = 0%Z.
Proof.
  destruct (accepts_round1_fresh _ _ Hacc) as [Hs Hr].
  destruct (evaluate_round1 payload w l1 Hl1 Hacc)
    as (w1 & ans & Hs1 & Hr1 & Hh1 & Hd1 & Hk).
  cbv zeta in Hk.
  rewrite evaluate_candidate_by_stage, Hk. cbv beta. rewrite Hfail.
  cbn [negb]. unfold finish_level1, mbind. rewrite complete_session_run.
  unfold mret.
  do 4 eexists.
  split; [reflexivity |]. split; [reflexivity |].
  split; [reflexivity |]. split; [reflexivity |].
  cbn [w_db set_db tick draw insert_result insert_session candidates sessions
       round_results].
  split.
  { apply (find_completed (w_db w1)). unfold has_session. rewrite Hs1. exact Hs. }
  cbn [status final_decision final_score completed_at].
  do 3 (split; [reflexivity |]). split; [discriminate |].
  split.
  { unfold results_of, update_completed.
    cbn [round_results insert_result insert_session].
    rewrite filter_app, Hr1.
    fold (results_of (w_db w) (nth_id "sess" w 1)).
    rewrite (fresh_session_no_results _ _ Hfk Hs).
    cbn [filter res_session_id app]. rewrite String.eqb_refl. reflexivity. }
  cbn [round_no threshold res_score passed].
  repeat split; reflexivity.
Qed.

Lemma level3_total_any (v : pyval) : exists r, level3_scenario v = Ok r.
Proof.
  destruct v; try (eexists; reflexivity). apply level3_total.
Qed.

Lemma accepts_all_rounds_inv (payload : list (string * pyval)) (w : world) :
  accepts_all_rounds payload w = true ->
  accepts_round1 payload w = true
  /\ (exists ans, sql_bind_text (scenario_of payload) = Ok ans)
  /\ has_result (w_db w) (nth_id "res" w 3) = false
  /\ has_result (w_db w) (nth_id "res" w 4) = false
  /\ String.eqb (nth_id "res" w 2) (nth_id "res" w 3) = false
  /\ String.eqb (nth_id "res" w 2) (nth_id "res" w 4) = false
  /\ String.eqb (nth_id "res" w 3) (nth_id "res" w 4) = false.
Proof.
  unfold accepts_all_rounds. rewrite !andb_true_iff, !negb_true_iff.
  intros [[[[[[H1 Hb] H3] H4] H23] H24] H34].
  repeat split; try assumption. apply sql_bindable_inv. exact Hb.
Qed.

(** C4. When Level 1 and Level 2 pass, Level 3 is evaluated and the
    session is completed whatever Level 3 returns: the decision is HIRE if
    Level 3 passed and HOLD otherwise, the final score is the Level 3
    score, the session has three round results with round_no 1, 2, 3 and
    thresholds 60.0, 50.0, 75.0, and the result holds level1, level2 and
    level3. *)
Theorem full_run_decides (payload : list (string * pyval)) (w : world)
  (l1 : score_result) (l2 : prob_result)
  (Hl1 : level1_screen (resume_of payload) = Ok l1)
  (Hp1 : pass l1 = true)
  (Hl2 : level2_technical (technical_of payload) = Ok l2)
  (Hp2 : l2_pass l2 = true)
  (Hfk : fk_consistent (w_db w) = true)
  (Hacc : accepts_all_rounds payload w = true) :
  exists (l3 : score_result) (ret : list (string * pyval)) (w' : world)
         (row : session_row) (r1 r2 r3 : round_row),
    level3_scenario (scenario_of payload) = Ok l3
    /\ evaluate_candidate py_str payload w = (Ok (PyDict ret), w')
    /\ ret = [ ("final_pass", PyBool (pass l3));
               ("decision", PyStr (if pass l3 then "HIRE" else "HOLD"));
               ("session_id", PyStr (nth_id "sess" w 1));
               ("level1", PyDict (score_dict l1));
               ("level2", PyDict (prob_dict l2));
               ("level3", PyDict (score_dict l3)) ]
    /\ find_session (w_db w') (nth_id "sess" w 1) = Some row
    /\ status row = "COMPLETED"
    /\ final_decision row = Some (if pass l3 then "HIRE" else "HOLD")
    /\ final_score row = Some (score l3)
    /\ completed_at row <> None
    /\ results_of (w_db w') (nth_id "sess" w 1) = [r1; r2; r3]
    /\ (round_no r1 = 1 /\ round_no r2 = 2 /\ round_no r3 = 3)%Z
    /\ (threshold r1 = 60.0 /\ threshold r2 = 50.0 /\ threshold r3 = 75.0)%R
    /\ res_score r3 = score l3.
Proof.
  destruct (accepts_all_rounds_inv _ _ Hacc)
    as (Hacc1 & [ans3 Hans3] & Hr3 & Hr4 & H23 & H24 & H34).
  destruct (accepts_round1_fresh _ _ Hacc1) as [Hs Hr2].
  destruct (level3_total_any (scenario_of payload)) as [l3 Hl3].
  destruct (evaluate_round1 payload w l1 Hl1 Hacc1)
    as (w1 & ans & Hs1 & Hr1 & Hh1 & Hd1 & Hk).
  cbv zeta in Hk.
  rewrite evaluate_candidate_by_stage, Hk. cbv beta. rewrite Hp1.
  cbn [negb]. clear Hk.
  set (sid := nth_id "sess" w 1) in *.
  match goal with
  | |- context [run_level2 _ _ _ _ ?W] => set (w3 := W)
  end.
  assert (Hid3 : next_id "res" w3 = nth_id "res" w 3).
  { apply nth_id_next; [exact Hh1 |].
    cbn [w_draws w3 set_db tick draw]. rewrite Hd1. lia. }
  assert (Hsess3 : has_session (w_db w3) sid = true).
  { cbn [w_db w3 set_db]. unfold has_session.
    cbn [sessions insert_result insert_session].
    rewrite existsb_app. cbn [existsb session_id].
    rewrite String.eqb_refl. apply orb_true_iff. right. reflexivity. }
  assert (Hres3 : forall rid,
             has_result (w_db w3) rid =
             has_result (w_db w) rid || String.eqb (nth_id "res" w 2) rid).
  { intros rid. cbn [w_db w3 set_db]. rewrite has_result_insert_result.
    cbn [result_id]. unfold has_result at 1.
    cbn [round_results insert_session]. rewrite Hr1. reflexivity. }
  unfold run_level2. unfold mbind at 1. unfold lift at 1. rewrite Hl2.
  unfold mbind at 1.
  rewrite (save_round_result_run sid 2 _ _ _ (SqlText (py_str (technical_of payload))));
    [| reflexivity | reflexivity
     | rewrite Hid3, Hres3, Hr3, H23; reflexivity
     | exact Hsess3].
  rewrite Hp2. cbn [negb]. rewrite Hid3.
  match goal with
  | |- context [run_level3 _ _ _ _ ?W] => set (w4 := W)
  end.
  assert (Hid4 : next_id "res" w4 = nth_id "res" w 4).
  { apply nth_id_next; [exact Hh1 |].
    cbn [w_draws w4 w3 set_db tick draw]. rewrite Hd1. lia. }
  assert (Hsess4 : has_session (w_db w4) sid = true) by exact Hsess3.
  assert (Hres4 : has_result (w_db w4) (nth_id "res" w 4) = false).
  { cbn [w_db w4 set_db]. rewrite has_result_insert_result, Hres3.
    cbn [result_id]. rewrite Hr4, H24, H34. reflexivity. }
  unfold run_level3. unfold mbind at 1. unfold lift at 1. rewrite Hl3.
  unfold mbind at 1.
  rewrite (save_round_result_run sid 3 _ _ _ ans3);
    [| reflexivity | exact Hans3 | rewrite Hid4; exact Hres4 | exact Hsess4].
  rewrite Hid4. unfold mbind. rewrite complete_session_run. unfold mret.
  exists l3. do 6 eexists.
  split; [reflexivity |]. split; [reflexivity |]. split; [reflexivity |].
  cbn [w_db w4 w3 set_db tick draw insert_result insert_session candidates
       sessions round_results].
  split.
  { apply (find_completed (w_db w1)). unfold has_session. rewrite Hs1. exact Hs. }
  cbn [status final_decision final_score completed_at].
  do 3 (split; [reflexivity |]). split; [discriminate |].
  split.
  { unfold results_of, update_completed.
    cbn [round_results insert_result insert_session].
    rewrite !filter_app, Hr1.
    fold (results_of (w_db w) sid).
    rewrite (fresh_session_no_results _ _ Hfk Hs).
    cbn [filter res_session_id app]. rewrite String.eqb_refl. reflexivity. }
  cbn [round_no threshold res_score].
  repeat split; reflexivity.
Qed.

End OrchestratorProperties.

(** ** Session status *)

Section SessionStatus.

Section Keeps.

Context {X : Type} (f : database -> X) (l : X).

Lemma keeps_mret {A : Type} (a : A) : keeps f l (mret a).
Proof. intros w H. exact H. Qed.

Lemma keeps_mraise {A : Type} (e : pyerr) : keeps f l (@mraise A e).
Proof. intros w H. exact H. Qed.

Lemma keeps_lift {A : Type} (r : result A) : keeps f l (lift r).
Proof. intros w H. exact H. Qed.

Lemma keeps_utc_now : keeps f l utc_now.
Proof. intros w H. exact H. Qed.

Lemma keeps_new_id (prefix : string) : keeps f l (new_id prefix).
Proof. intros w H. exact H. Qed.

Lemma keeps_put_db (db : database) : f db = l -> keeps f l (put_db db).
Proof. intros Hdb w _. exact Hdb. Qed.

Lemma keeps_mbind {A B : Type} (m : M A) (k : A -> M B) :
  keeps f l m -> (forall a, keeps f l (k a)) -> keeps f l (mbind m k).
Proof.
  intros Hm Hk w H. unfold mbind. specialize (Hm w H).
  destruct (m w) as [[a | e] w1]; cbn [snd] in *.
  - apply Hk. exact Hm.
  - exact Hm.
Qed.

Lemma keeps_get_db {B : Type} (k : database -> M B) :
  (forall db, f db = l -> keeps f l (k db)) -> keeps f l (mbind get_db k).
Proof. intros Hk w H. unfold mbind, get_db. apply Hk; exact H. Qed.

Lemma keeps_transaction {A : Type} (m : M A) :
  keeps f l m -> keeps f l (transaction m).
Proof.
  intros Hm w H. unfold transaction. specialize (Hm w H).
  destruct (m w) as [[a | e] w1]; cbn [snd] in *.
  - exact Hm.
  - exact H.
Qed.

Lemma keeps_init_db : keeps f l init_db.
Proof. apply keeps_transaction, keeps_mret. Qed.

End Keeps.

Create HintDb keeps.

#[local] Hint Resolve keeps_mret keeps_mraise keeps_lift keeps_utc_now
  keeps_new_id keeps_init_db : keeps.

Ltac keeps_step :=
  first [ apply keeps_get_db; intros ? ?
        | apply keeps_mbind; [| intros ?]
        | apply keeps_transaction
        | apply keeps_put_db; assumption
        | solve [auto with keeps] ].

(** [upsert_candidate] writes the candidates table only. *)
Lemma upsert_candidate_keeps {X : Type} (f : database -> X)
  (Hf : forall db c, f (insert_candidate db c) = f db)
  (Hg : forall db cid fn em ph ro, f (update_candidates db cid fn em ph ro) = f db)
  fn em ph ro cid w :
  f (w_db (snd (upsert_candidate fn em ph ro cid w))) = f (w_db w).
Proof.
  assert (H : keeps f (f (w_db w)) (upsert_candidate fn em ph ro cid)).
  { unfold upsert_candidate.
    apply keeps_mbind; [auto with keeps | intros _].
    apply keeps_mbind.
    { destruct cid as [c |]; [destruct (is_empty c) |]; auto with keeps. }
    intros c. apply keeps_mbind; [| intros _; auto with keeps].
    apply keeps_transaction, keeps_get_db. intros db Hdb.
    destruct (has_candidate db c).
    - do 4 (apply keeps_mbind; [auto with keeps | intros ?]).
      apply keeps_put_db. rewrite Hg. exact Hdb.
    - do 5 (apply keeps_mbind; [auto with keeps | intros ?]).
      apply keeps_put_db. rewrite Hf. exact Hdb. }
  apply H. reflexivity.
Qed.

Lemma upsert_candidate_sessions fn em ph ro cid w :
  sessions (w_db (snd (upsert_candidate fn em ph ro cid w))) =
  sessions (w_db w).
Proof. apply upsert_candidate_keeps; reflexivity. Qed.

Lemma upsert_candidate_results fn em ph ro cid w :
  round_results (w_db (snd (upsert_candidate fn em ph ro cid w))) =
  round_results (w_db w).
Proof. apply upsert_candidate_keeps; reflexivity. Qed.

Lemma save_round_result_sessions sid n own q a raw sc p th qid vio met fea ent w :
  sessions
    (w_db (snd (save_round_result sid n own q a raw sc p th qid vio met fea ent w)))
  = sessions (w_db w).
Proof.
  assert (H : keeps sessions (sessions (w_db w))
                (save_round_result sid n own q a raw sc p th qid vio met fea ent)).
  { unfold save_round_result.
    apply keeps_mbind; [auto with keeps | intros _].
    apply keeps_mbind; [auto with keeps | intros rid].
    apply keeps_mbind; [| intros _; auto with keeps].
    apply keeps_transaction, keeps_get_db. intros db Hdb.
    do 3 (apply keeps_mbind; [auto with keeps | intros ?]).
    destruct (has_result db rid || negb (has_session db sid));
      repeat keeps_step. }
  apply H. reflexivity.
Qed.

Lemma create_session_cases (cid : string) (w : world) :
  (has_session (w_db w) (next_id "sess" w) = false
   /\ has_candidate (w_db w) cid = true
   /\ create_session cid w =
      (Ok (next_id "sess" w),
       set_db (tick (draw w))
              (insert_session (w_db w)
                 (mk_session (next_id "sess" w) cid "IN_PROGRESS"
                             None None (now_str w) None))))
  \/ (create_session cid w = (Raise IntegrityError, tick (draw w))).
Proof.
  destruct (has_session (w_db w) (next_id "sess" w)) eqn:Hs;
    [right | destruct (has_candidate (w_db w) cid) eqn:Hc; [left | right]].
  - unfold create_session, mbind, transaction, new_id, get_db, utc_now,
      put_db, mret, mraise. rewrite init_db_run. cbn [w_db draw].
    rewrite Hs. reflexivity.
  - split; [reflexivity |]. split; [reflexivity |].
    apply create_session_run; assumption.
  - unfold create_session, mbind, transaction, new_id, get_db, utc_now,
      put_db, mret, mraise. rewrite init_db_run. cbn [w_db draw].
    rewrite Hs, Hc. reflexivity.
Qed.

Lemma run_call_step (c : store_call) (w : world) :
  sessions_step (sessions (w_db w)) (sessions (w_db (run_call c w))).
Proof.
  destruct c as [| fn em ph ro cid | cid
                 | sid n own q a raw sc p th qid vio met fea ent
                 | sid fs fd | sid]; cbn [run_call].
  - apply step_same.
  - rewrite upsert_candidate_sessions. apply step_same.
  - destruct (create_session_cases cid w) as [(Hs & _ & E) | E];
      rewrite E; cbn [snd w_db set_db tick draw insert_session sessions].
    + apply step_open. exact Hs.
    + apply step_same.
  - rewrite save_round_result_sessions. apply step_same.
  - rewrite complete_session_run.
    cbn [snd w_db set_db update_completed sessions]. apply step_complete.
  - apply step_same.
Qed.

Lemma session_id_complete_row sid fs fd now r :
  session_id (complete_row sid fs fd now r) = session_id r.
Proof. unfold complete_row. destruct (String.eqb _ _); reflexivity. Qed.

Lemma find_complete_row (sid0 sid : string) (fs : R) (fd now : string)
  (l : list session_row) :
  find (fun r => String.eqb (session_id r) sid0)
       (map (complete_row sid fs fd now) l) =
  option_map (complete_row sid fs fd now)
             (find (fun r => String.eqb (session_id r) sid0) l).
Proof.
  induction l as [| r l IH]; cbn [map find option_map]; [reflexivity |].
  rewrite session_id_complete_row.
  destruct (String.eqb (session_id r) sid0); [reflexivity | exact IH].
Qed.

Lemma find_app_found {A : Type} (p : A -> bool) (l l' : list A) (x : A) :
  find p l = Some x -> find p (l ++ l') = Some x.
Proof.
  induction l as [| y l IH]; cbn [find app]; [discriminate |].
  destruct (p y); [intros H; exact H | exact IH].
Qed.

(** One step keeps every session, and leaves its status as it was or sets
    it to COMPLETED. *)
Lemma sessions_step_status (l l' : list session_row) (sid : string)
  (row : session_row) :
  sessions_step l l' ->
  find (fun r => String.eqb (session_id r) sid) l = Some row ->
  exists row',
    find (fun r => String.eqb (session_id r) sid) l' = Some row'
    /\ (status row' = status row \/ status row' = "COMPLETED").
Proof.
  intros Hstep Hfind. destruct Hstep as [| sid1 cid now Hfresh | sid1 fs fd now].
  - exists row. split; [exact Hfind | left; reflexivity].
  - exists row. split; [apply find_app_found; exact Hfind | left; reflexivity].
  - exists (complete_row sid1 fs fd now row).
    rewrite find_complete_row, Hfind. split; [reflexivity |].
    unfold complete_row. destruct (String.eqb _ _); [right | left]; reflexivity.
Qed.

Lemma run_calls_status (cs : list store_call) (w : world) (sid : string)
  (row : session_row) :
  find_session (w_db w) sid = Some row ->
  exists row',
    find_session (w_db (run_calls cs w)) sid = Some row'
    /\ (status row' = status row \/ status row' = "COMPLETED").
Proof.
  revert w row. induction cs as [| c cs IH]; intros w row Hfind.
  - exists row. split; [exact Hfind | left; reflexivity].
  - cbn [run_calls fold_left]. fold (run_calls cs (run_call c w)).
    destruct (sessions_step_status _ _ sid row (run_call_step c w) Hfind)
      as (row1 & Hfind1 & Hst1).
    destruct (IH _ _ Hfind1) as (row' & Hfind' & Hst').
    exists row'. split; [exact Hfind' |].
    destruct Hst' as [E | E]; [rewrite E; exact Hst1 | right; exact E].
Qed.

(** C9. [create_session] opens a session IN_PROGRESS with null
    final_score, final_decision and completed_at; [complete_session] sets
    status COMPLETED together with completed_at, final_score and
    final_decision; and through any sequence of store calls a session's
    status stays as it is or becomes COMPLETED, so a COMPLETED session
    never goes back to IN_PROGRESS. *)
Theorem session_status_forward :
  (forall cid w sid w',
      create_session cid w = (Ok sid, w') ->
      find_session (w_db w) sid = None
      /\ exists row,
          find_session (w_db w') sid = Some row
          /\ status row = "IN_PROGRESS"
          /\ final_score row = None /\ final_decision row = None
          /\ completed_at row = None)
  /\ (forall sid fs fd w row,
         find_session (w_db w) sid = Some row ->
         exists w' row' now,
           complete_session sid fs fd w = (Ok tt, w')
           /\ find_session (w_db w') sid = Some row'
           /\ status row' = "COMPLETED"
           /\ completed_at row' = Some now
           /\ final_score row' = Some fs
           /\ final_decision row' = Some fd)
  /\ (forall cs w sid row,
         find_session (w_db w) sid = Some row ->
         exists row',
           find_session (w_db (run_calls cs w)) sid = Some row'
           /\ (status row' = status row \/ status row' = "COMPLETED")
           /\ (status row = "COMPLETED" -> status row' = "COMPLETED")).
Proof.
  split; [| split].
  - intros cid w sid w' Hrun.
    destruct (create_session_cases cid w) as [(Hs & _ & E) | E];
      rewrite E in Hrun; [| discriminate].
    injection Hrun as <- <-.
    assert (Hnone : find_session (w_db w) (next_id "sess" w) = None).
    { unfold find_session. unfold has_session in Hs.
      induction (sessions (w_db w)) as [| r l IH]; [reflexivity |].
      cbn [existsb find] in *. apply orb_false_iff in Hs.
      destruct Hs as [Hr Hl]. rewrite Hr. exact (IH Hl). }
    split; [exact Hnone |].
    eexists. split.
    + unfold find_session. cbn [w_db set_db insert_session sessions].
      apply find_app_fresh; [exact Hs | cbn [session_id]; apply String.eqb_refl].
    + cbn. repeat split; reflexivity.
  - intros sid fs fd w row Hfind.
    exists (set_db (tick w) (update_completed (w_db w) sid fs fd (now_str w))).
    exists (complete_row sid fs fd (now_str w) row), (now_str w).
    split; [apply complete_session_run |].
    assert (Hid : String.eqb (session_id row) sid = true).
    { unfold find_session in Hfind. apply find_some in Hfind. tauto. }
    split.
    + unfold find_session. cbn [w_db set_db update_completed sessions].
      rewrite find_complete_row. unfold find_session in Hfind.
      rewrite Hfind. reflexivity.
    + unfold complete_row. rewrite Hid. cbn. repeat split; reflexivity.
  - intros cs w sid row Hfind.
    destruct (run_calls_status cs w sid row Hfind) as (row' & Hfind' & Hst).
    exists row'. split; [exact Hfind' |]. split; [exact Hst |].
    intros Hc. destruct Hst as [E | E]; [rewrite E; exact Hc | exact E].
Qed.

(** *** Foreign keys stay consistent *)

Lemma save_round_result_cases sid n own q a raw sc p th qid vio met fea ent w :
  (exists ans,
      has_session (w_db w) sid = true
      /\ save_round_result sid n own q a raw sc p th qid vio met fea ent w =
         (Ok (next_id "res" w),
          set_db (tick (draw w))
                 (insert_result (w_db w)
                    (mk_round (next_id "res" w) sid n own qid q ans raw sc
                              (if p then 1 else 0) th (or_empty vio)
                              (or_empty met) (or_empty fea) ent (now_str w)))))
  \/ w_db (snd (save_round_result sid n own q a raw sc p th qid vio met fea ent w))
     = w_db w.
Proof.
  destruct (in_int64 n) eqn:Hn;
    [destruct (sql_bind_text a) as [ans | e] eqn:Ha;
     [destruct (has_result (w_db w) (next_id "res" w)) eqn:Hr;
      [| destruct (has_session (w_db w) sid) eqn:Hs] |] |].
  2: { left. exists ans. split; [reflexivity |].
       apply save_round_result_run; assumption. }
  all: right; unfold save_round_result, mbind, transaction, new_id, get_db,
         utc_now, put_db, mret, mraise, lift; rewrite init_db_run;
       cbn [w_db draw tick]; rewrite ?Hn, ?Ha, ?Hr, ?Hs; reflexivity.
Qed.

Lemma fk_consistent_ext (db db' : database) :
  sessions db' = sessions db -> round_results db' = round_results db ->
  fk_consistent db' = fk_consistent db.
Proof.
  intros Hs Hr. unfold fk_consistent, has_session. rewrite Hs, Hr. reflexivity.
Qed.

Lemma fk_consistent_insert_session (db : database) (r : session_row) :
  fk_consistent db = true -> fk_consistent (insert_session db r) = true.
Proof.
  unfold fk_consistent. rewrite !forallb_forall. intros H x Hx.
  rewrite has_session_insert_session, (H x Hx). reflexivity.
Qed.

Lemma fk_consistent_insert_result (db : database) (r : round_row) :
  fk_consistent db = true -> has_session db (res_session_id r) = true ->
  fk_consistent (insert_result db r) = true.
Proof.
  unfold fk_consistent. rewrite !forallb_forall. intros H Hr x Hx.
  change (has_session db (res_session_id x) = true).
  cbn [round_results insert_result] in Hx. apply in_app_or in Hx.
  destruct Hx as [Hx | [<- | []]]; [exact (H x Hx) | exact Hr].
Qed.

Lemma has_session_update_completed (db : database) (sid : string) (fs : R)
  (fd now sid0 : string) :
  has_session (update_completed db sid fs fd now) sid0 = has_session db sid0.
Proof.
  unfold has_session, update_completed. cbn [sessions].
  induction (sessions db) as [| r l IH]; cbn [map existsb]; [reflexivity |].
  rewrite session_id_complete_row, IH. reflexivity.
Qed.

Lemma fk_consistent_update_completed (db : database) (sid : string) (fs : R)
  (fd now : string) :
  fk_consistent (update_completed db sid fs fd now) = fk_consistent db.
Proof.
  unfold fk_consistent. cbn [round_results update_completed].
  induction (round_results db) as [| r l IH]; cbn [forallb]; [reflexivity |].
  rewrite has_session_update_completed, IH. reflexivity.
Qed.

(** Every call keeps every stored round result attached to a stored
    session. *)
Lemma run_call_fk_consistent (c : store_call) (w : world) :
  fk_consistent (w_db w) = true -> fk_consistent (w_db (run_call c w)) = true.
Proof.
  intros H.
  destruct c as [| fn em ph ro cid | cid
                 | sid n own q a raw sc p th qid vio met fea ent
                 | sid fs fd | sid]; cbn [run_call].
  - exact H.
  - rewrite (fk_consistent_ext (w_db w));
      [exact H | apply upsert_candidate_sessions | apply upsert_candidate_results].
  - destruct (create_session_cases cid w) as [(_ & _ & E) | E];
      rewrite E; cbn [snd w_db set_db tick draw].
    + apply fk_consistent_insert_session. exact H.
    + exact H.
  - destruct (save_round_result_cases sid n own q a raw sc p th qid vio met
                fea ent w)
      as [(ans & Hs & E) | E]; rewrite E.
    + cbn [snd w_db set_db tick draw].
      apply fk_consistent_insert_result; [exact H | exact Hs].
    + exact H.
  - rewrite complete_session_run. cbn [snd w_db set_db].
    rewrite fk_consistent_update_completed. exact H.
  - exact H.
Qed.

Lemma run_calls_fk_consistent (cs : list store_call) (w : world) :
  fk_consistent (w_db w) = true -> fk_consistent (w_db (run_calls cs w)) = true.
Proof.
  revert w. induction cs as [| c cs IH]; intros w H; [exact H |].
  cbn [run_calls fold_left]. apply IH, run_call_fk_consistent, H.
Qed.

End SessionStatus.

(** ** Worked runs *)

Section WorkedRuns.

Local Open Scope R_scope.

Lemma ex1_formula : level1_formula (tokens_of ex1_text) = 100.
Proof.
  unfold level1_formula, shannon_entropy.
  replace (token_counts (tokens_of ex1_text)) with (repeat 1%nat 30)
    by (vm_compute; reflexivity).
  replace (List.length (tokens_of ex1_text)) with 30%nat
    by (vm_compute; reflexivity).
  replace (List.length (py_set (tokens_of ex1_text))) with 30%nat
    by (vm_compute; reflexivity).
  cbn [repeat map sum_list fold_right].
  rewrite !INR_IZR_INZ. cbn [Z.of_nat Pos.of_succ_nat Pos.succ].
  rewrite ln_div by lra. rewrite ln_1.
  pose proof (ln_pos 30 ltac:(lra)) as HL.
  set (L := ln 30) in *.
  match goal with
  | |- 100 * (0.55 * Rmin ?n 1.0 + _) = _ =>
      assert (Hn : n = 1) by (field; lra)
  end.
  rewrite Hn, Rmin_left by lra. lra.
Qed.

(** End-to-end example 1: thirty distinct words score 100.0 and pass. *)
Lemma ex1_level1 :
  level1_screen (PyStr ex1_text) =
  Ok {| pass := true; score := 100; reason := "OK" |}.
Proof.
  rewrite level1_long by (vm_compute; lia).
  rewrite ex1_formula.
  assert (Hp : Rleb 60 100 = true) by (apply Rleb_true_iff; lra).
  rewrite Hp. f_equal. f_equal.
  rewrite (py_round_near _ 2 10000); cbn [pow]; lra.
Qed.

Lemma level1_failure_rejects_witness :
  exists ret w',
    evaluate_candidate (fun _ => "{}"%string) short_payload demo_world =
      (Ok (PyDict ret), w')
    /\ dict_get ret "failed_at" = Some (PyStr "level1")
    /\ dict_get ret "level2" = None /\ dict_get ret "level3" = None
    /\ List.length (results_of (w_db w') "sess_1c0ffee5eed1") = 1%nat.
Proof.
  destruct (level1_failure_rejects (fun _ => "{}"%string) short_payload
              demo_world
              {| pass := false; score := 0.0; reason := "Too short" |})
    as (ret & w' & row & r & Hrun & Hret & H2 & H3 & _ & _ & _ & _ & _ & Hres & _).
  - apply level1_short. vm_compute. lia.
  - reflexivity.
  - vm_compute. reflexivity.
  - vm_compute. reflexivity.
  - exists ret, w'. split; [exact Hrun |].
    split; [rewrite Hret; reflexivity |].
    split; [exact H2 |]. split; [exact H3 |].
    change "sess_1c0ffee5eed1"%string with (nth_id "sess" demo_world 1).
    rewrite Hres. reflexivity.
Defined.

Lemma full_run_decides_witness :
  exists ret w',
    evaluate_candidate (fun _ => "{}"%string) full_payload demo_world =
      (Ok (PyDict ret), w')
    /\ dict_has ret "level1" = true
    /\ dict_has ret "level2" = true
    /\ dict_has ret "level3" = true
    /\ List.length (results_of (w_db w') "sess_1c0ffee5eed1") = 3%nat.
Proof.
  destruct (full_run_decides (fun _ => "{}"%string) full_payload demo_world
              {| pass := true; score := 100; reason := "OK" |}
              {| l2_pass := true; prob_pass := 0.5; l2_reason := "OK" |})
    as (l3 & ret & w' & row & r1 & r2 & r3 & _ & Hrun & Hret & _ & _ & _ & _
        & _ & Hres & _).
  - exact ex1_level1.
  - reflexivity.
  - exact level2_ex2.
  - reflexivity.
  - vm_compute. reflexivity.
  - vm_compute. reflexivity.
  - exists ret, w'. split; [exact Hrun |].
    rewrite Hret. do 3 (split; [reflexivity |]).
    change "sess_1c0ffee5eed1"%string with (nth_id "sess" demo_world 1).
    rewrite Hres. reflexivity.
Defined.

End WorkedRuns.

(* ================================================================== *)
(** * Further properties *)
(* ================================================================== *)

(** ** Rounding between bounds *)

Section RoundingBounds.

Local Open Scope R_scope.

Lemma round_half_even_int (k : Z) : round_half_even (IZR k) = k.
Proof. apply round_half_even_near. lra. Qed.

(** A multiple of [10^-n] rounds to itself. *)
Lemma py_round_exact (k : Z) (n : nat) :
  py_round (IZR k / 10 ^ n) n = IZR k / 10 ^ n.
Proof.
  unfold py_round. pose proof (pow10_pos n) as Hp.
  replace (IZR k / 10 ^ n * 10 ^ n) with (IZR k) by (field; lra).
  rewrite round_half_even_int. reflexivity.
Qed.

Lemma py_round_ge (x : R) (k : Z) (n : nat) :
  IZR k / 10 ^ n <= x -> IZR k / 10 ^ n <= py_round x n.
Proof.
  intros H. rewrite <- (py_round_exact k n). apply py_round_mono. exact H.
Qed.

Lemma py_round_le (x : R) (k : Z) (n : nat) :
  x <= IZR k / 10 ^ n -> py_round x n <= IZR k / 10 ^ n.
Proof.
  intros H. rewrite <- (py_round_exact k n). apply py_round_mono. exact H.
Qed.

End RoundingBounds.

Ltac Rleb_true := rewrite (proj2 (Rleb_true_iff _ _)) by (cbn [pow]; lra).
Ltac Rleb_false := rewrite (proj2 (Rleb_false_iff _ _)) by (cbn [pow]; lra).

(** ** The interactive adapter *)

Section InteractiveAdapterProperties.

Local Open Scope R_scope.

(** The checkbox quiz passes exactly when at least two boxes are ticked;
    the probability shown is 0.0, 0.333, 0.667 or 1.0 by the number of
    ticked boxes. *)
Theorem technical_evaluation_two_of_three (apis db scale : bool) :
  exists r,
    technical_evaluation apis db scale = Ok r
    /\ te_pass r = (apis && db) || (apis && scale) || (db && scale)
    /\ te_probability r =
       match (int_of_bool apis + int_of_bool db + int_of_bool scale)%Z with
       | 0%Z => 0.0
       | 1%Z => 0.333
       | 2%Z => 0.667
       | _ => 1.0
       end.
Proof.
  unfold technical_evaluation. rewrite py_div_ok by lra. cbn [rbind].
  eexists. split; [reflexivity |]. cbn [te_pass te_probability].
  destruct apis, db, scale; cbn [int_of_bool Z.add Pos.add Pos.succ andb orb];
    split;
    try (apply Rleb_true_iff; lra);
    try (apply Rleb_false_iff; lra).
  - rewrite (py_round_near _ 3 1000); cbn [pow]; lra.
  - rewrite (py_round_near _ 3 667); cbn [pow]; lra.
  - rewrite (py_round_near _ 3 667); cbn [pow]; lra.
  - rewrite (py_round_near _ 3 333); cbn [pow]; lra.
  - rewrite (py_round_near _ 3 667); cbn [pow]; lra.
  - rewrite (py_round_near _ 3 333); cbn [pow]; lra.
  - rewrite (py_round_near _ 3 333); cbn [pow]; lra.
  - rewrite (py_round_near _ 3 0); cbn [pow]; lra.
Qed.

(** The adapter's scenario check passes exactly when a flow word, a
    trade-off word and a stability word all occur, in any letter case; its
    score is 0.0, 33.33, 66.67 or 100.0 by the number of groups found. *)
Theorem scenario_evaluation_all_three (answer : string) :
  exists r,
    scenario_evaluation answer = Ok r
    /\ se_flow r = any_key_in ["first"; "then"; "finally"] (py_lower answer)
    /\ se_tradeoff r =
       any_key_in ["tradeoff"; "latency"; "cost"] (py_lower answer)
    /\ se_stability r =
       any_key_in ["monitor"; "rollback"; "reliability"] (py_lower answer)
    /\ se_pass r = se_flow r && se_tradeoff r && se_stability r
    /\ se_score r =
       match (int_of_bool (se_flow r) + int_of_bool (se_tradeoff r)
              + int_of_bool (se_stability r))%Z with
       | 0%Z => 0.0
       | 1%Z => 33.33
       | 2%Z => 66.67
       | _ => 100.0
       end.
Proof.
  unfold scenario_evaluation. rewrite py_div_ok by lra. cbn [rbind].
  eexists. split; [reflexivity |].
  cbn [se_flow se_tradeoff se_stability se_pass se_score].
  do 3 (split; [reflexivity |]).
  destruct (any_key_in ["first"; "then"; "finally"] (py_lower answer)),
    (any_key_in ["tradeoff"; "latency"; "cost"] (py_lower answer)),
    (any_key_in ["monitor"; "rollback"; "reliability"] (py_lower answer));
    cbn [int_of_bool Z.add Pos.add Pos.succ andb].
  - rewrite (py_round_near _ 2 10000) by (cbn [pow]; lra).
    split; [apply Rleb_true_iff; cbn [pow]; lra | cbn [pow]; lra].
  - rewrite (py_round_near _ 2 6667) by (cbn [pow]; lra).
    split; [apply Rleb_false_iff; cbn [pow]; lra | cbn [pow]; lra].
  - rewrite (py_round_near _ 2 6667) by (cbn [pow]; lra).
    split; [apply Rleb_false_iff; cbn [pow]; lra | cbn [pow]; lra].
  - rewrite (py_round_near _ 2 3333) by (cbn [pow]; lra).
    split; [apply Rleb_false_iff; cbn [pow]; lra | cbn [pow]; lra].
  - rewrite (py_round_near _ 2 6667) by (cbn [pow]; lra).
    split; [apply Rleb_false_iff; cbn [pow]; lra | cbn [pow]; lra].
  - rewrite (py_round_near _ 2 3333) by (cbn [pow]; lra).
    split; [apply Rleb_false_iff; cbn [pow]; lra | cbn [pow]; lra].
  - rewrite (py_round_near _ 2 3333) by (cbn [pow]; lra).
    split; [apply Rleb_false_iff; cbn [pow]; lra | cbn [pow]; lra].
  - rewrite (py_round_near _ 2 0) by (cbn [pow]; lra).
    split; [apply Rleb_false_iff; cbn [pow]; lra | cbn [pow]; lra].
Qed.

Lemma lenR_SKILLS : lenR SKILLS = 6.
Proof. unfold lenR, SKILLS. cbn [List.length INR]. lra. Qed.

Lemma skills_found_range (text : string) :
  (0 <= skills_found text <= 6)%Z.
Proof.
  unfold skills_found.
  pose proof (filter_length_le (fun s => py_contains s (py_lower text)) SKILLS)
    as H.
  change (List.length SKILLS) with 6%nat in H. lia.
Qed.

(** The mean of the three metrics, by number of skills found and
    structure mark. *)
Lemma resume_mean_cases (k st : Z) :
  (0 <= k <= 6)%Z -> st = 70%Z \/ st = 100%Z ->
  (Rleb 60 (py_round ((Rmin 100 (IZR k / 6 * 100) + IZR st
                       + IZR (Z.min 100 (k * 15))) / 3) 2) = true
   <-> (4 <= k)%Z \/ ((3 <= k)%Z /\ st = 100%Z))
  /\ 23.33 <= py_round ((Rmin 100 (IZR k / 6 * 100) + IZR st
                        + IZR (Z.min 100 (k * 15))) / 3) 2 <= 96.67.
Proof.
  intros Hk Hst.
  assert (Hcases : (k = 0 \/ k = 1 \/ k = 2 \/ k = 3 \/ k = 4 \/ k = 5
                    \/ k = 6)%Z) by lia.
  destruct Hcases as [-> | [-> | [-> | [-> | [-> | [-> | ->]]]]]];
    destruct Hst as [-> | ->];
    match goal with
    | |- context [Z.min ?a ?b] =>
        let v := eval vm_compute in (Z.min a b) in
        change (Z.min a b) with v
    end;
    rewrite Rmin_right by lra;
    match goal with
    | |- (Rleb 60 (py_round ?x 2) = true <-> _) /\ _ =>
        assert (Hb : 23.33 <= py_round x 2 <= 96.67)
          by (split;
              [ eapply Rle_trans;
                [| apply (py_round_ge _ 2333 2); cbn [pow]; lra];
                cbn [pow]; lra
              | eapply Rle_trans;
                [apply (py_round_le _ 9667 2); cbn [pow]; lra |];
                cbn [pow]; lra ]);
        first
          [ assert (Hp : Rleb 60 (py_round x 2) = true)
              by (apply Rleb_true_iff; eapply Rle_trans;
                  [| apply (py_round_ge _ 6000 2); cbn [pow]; lra];
                  cbn [pow]; lra);
            rewrite Hp; split; [split; [intros _; lia | reflexivity] | exact Hb]
          | assert (Hp : Rleb 60 (py_round x 2) = false)
              by (apply Rleb_false_iff; eapply Rle_lt_trans;
                  [apply (py_round_le _ 5999 2); cbn [pow]; lra |];
                  cbn [pow]; lra);
            rewrite Hp;
            split; [split; [discriminate | intros ?; exfalso; lia] | exact Hb] ]
    end.
Qed.

(** The adapter's resume check passes exactly when four of the six skill
    words occur, or three of them in a resume of more than 200 words; its
    score lies between 23.33 and 96.67. *)
Theorem resume_screening_pass (resume_text role : string) :
  exists r,
    resume_screening resume_text role = Ok r
    /\ (rs_pass r = true <->
        (4 <= skills_found resume_text)%Z
        \/ ((3 <= skills_found resume_text)%Z
            /\ (200 < List.length (py_split resume_text))%nat))
    /\ 23.33 <= rs_score r <= 96.67
    /\ rs_keyword_coverage r = (15 * skills_found resume_text)%Z.
Proof.
  unfold resume_screening.
  rewrite py_div_ok by (rewrite lenR_SKILLS; lra).
  cbn [rbind]. rewrite py_div_ok by lra. cbn [rbind].
  eexists. split; [reflexivity |]. cbn [rs_pass rs_score rs_keyword_coverage].
  rewrite lenR_SKILLS.
  pose proof (skills_found_range resume_text) as Hk.
  destruct (Nat.ltb_spec 200 (List.length (py_split resume_text))) as [Hw | Hw].
  - destruct (resume_mean_cases (skills_found resume_text) 100 Hk
                (or_intror eq_refl)) as [Hiff Hb].
    split; [| split; [exact Hb | lia]].
    rewrite Hiff. split; intros [H | [H _]]; auto.
  - destruct (resume_mean_cases (skills_found resume_text) 70 Hk
                (or_introl eq_refl)) as [Hiff Hb].
    split; [| split; [exact Hb | lia]].
    rewrite Hiff. split; intros [H | [H H']]; auto; exfalso; lia.
Qed.

End InteractiveAdapterProperties.

(** ** Level 3: range of the score and what passing needs *)

Section Level3Range.

Local Open Scope R_scope.

Lemma level3_short (s : string) :
  (List.length (scenario_steps s) < 2)%nat ->
  level3_scenario (PyStr s) =
  Ok {| pass := false; score := 0.0; reason := "Too shallow" |}.
Proof.
  intros H. unfold level3_scenario.
  destruct (Nat.ltb_spec (List.length (scenario_steps s)) 2); [reflexivity | lia].
Qed.

(** An answer of fewer than two steps is answered by
    [{pass: false, score: 0.0, reason: "Too shallow"}], and an input that
    is not text by a non-passing result instead of an exception. *)
Theorem level3_soft_failure (v : pyval)
  (Hshallow : forall s, v = PyStr s ->
                        (List.length (scenario_steps s) < 2)%nat) :
  match v with
  | PyStr _ =>
      level3_scenario v =
      Ok {| pass := false; score := 0.0; reason := "Too shallow" |}
  | _ =>
      level3_scenario v =
      Ok {| pass := false; score := 0.0; reason := "Invalid input" |}
  end.
Proof.
  destruct v; try reflexivity. apply level3_short, Hshallow. reflexivity.
Qed.

Lemma level3_soft_failure_witness :
  level3_scenario (PyStr "  Restart the service and monitor it...
") = Ok {| pass := false; score := 0.0; reason := "Too shallow" |}.
Proof.
  apply (level3_soft_failure (PyStr "  Restart the service and monitor it...
")).
  intros s Hs. injection Hs as <-. vm_compute. lia.
Defined.

(** The loop over the steps collects the phase hits step by step, and the
    non-empty dimension sets. *)
Lemma fold_scan_step (steps : list string) (ph : list string)
  (dh : list (list string)) :
  fold_left scan_step steps (ph, dh) =
  (ph ++ List.concat (map (hits PHASES) steps),
   dh ++ filter (fun d => match d with [] => false | _ :: _ => true end)
                (map (hits DIMENSIONS) steps)).
Proof.
  revert ph dh. induction steps as [| st steps IH]; intros ph dh;
    cbn [fold_left map List.concat filter].
  - rewrite !app_nil_r. reflexivity.
  - unfold scan_step at 2.
    destruct (hits DIMENSIONS st) as [| d ds] eqn:E; rewrite IH.
    + rewrite app_assoc. reflexivity.
    + rewrite <- !app_assoc. reflexivity.
Qed.

Lemma In_fold_set_add (x : string) (l acc : list string) :
  In x (fold_left set_add l acc) <-> In x acc \/ In x l.
Proof.
  revert acc. induction l as [| y l IH]; intros acc; cbn [fold_left In].
  - tauto.
  - rewrite IH. unfold set_add. destruct (mem y acc) eqn:E.
    + apply mem_In in E. split; [tauto |].
      intros [H | [<- | H]]; auto.
    + rewrite in_app_iff. cbn [In]. tauto.
Qed.

Lemma In_py_set (x : string) (l : list string) : In x (py_set l) <-> In x l.
Proof. unfold py_set. rewrite In_fold_set_add. cbn [In]. tauto. Qed.

Lemma hits_incl (table : list (string * list string)) (step x : string) :
  In x (hits table step) -> In x (map fst table).
Proof.
  unfold hits. rewrite !in_map_iff. intros [pk [E H]].
  apply filter_In in H. exists pk. tauto.
Qed.

Lemma length_hits (table : list (string * list string)) (step : string) :
  (List.length (hits table step) <= List.length table)%nat.
Proof. unfold hits. rewrite length_map. apply filter_length_le. Qed.

(** A duplicate-free list drawn from the four names of a table has at
    most four elements. *)
Lemma py_set_le_4 (table : list (string * list string)) (l : list string) :
  List.length table = 4%nat ->
  (forall x, In x l -> In x (map fst table)) ->
  (List.length (py_set l) <= 4)%nat.
Proof.
  intros Ht Hin. rewrite <- Ht, <- (length_map fst table).
  apply NoDup_incl_length; [apply NoDup_py_set |].
  intros x Hx. apply Hin, In_py_set, Hx.
Qed.

Lemma In_concat_hits (table : list (string * list string))
  (steps : list string) (x : string) :
  In x (List.concat (map (hits table) steps)) -> In x (map fst table).
Proof.
  rewrite in_concat. intros [d [Hd Hx]]. apply in_map_iff in Hd.
  destruct Hd as [st [<- _]]. eapply hits_incl, Hx.
Qed.

Lemma py_sum_lenR_bounds (dh : list (list string)) :
  (forall d, In d dh -> (List.length d <= 4)%nat) ->
  0 <= py_sum (map lenR dh) <= lenR dh * 4.
Proof.
  intros H. rewrite py_sum_sum_list. unfold lenR.
  induction dh as [| d dh IH]; cbn [map sum_list fold_right List.length].
  - cbn [INR]. lra.
  - fold (sum_list (map (fun l : list string => INR (List.length l)) dh)).
    rewrite S_INR.
    assert (Hd : (List.length d <= 4)%nat) by (apply H; left; reflexivity).
    apply le_INR in Hd. pose proof (pos_INR (List.length d)) as Hp.
    assert (IH' := IH (fun d' Hd' => H d' (or_intror Hd'))).
    unfold lenR in IH'. cbn [INR] in Hd. lra.
Qed.

Lemma tradeoff_of_range (dh : list (list string)) :
  (forall d, In d dh -> (List.length d <= 4)%nat) ->
  0 <= tradeoff_of dh <= 1.
Proof.
  intros H. destruct dh as [| d dh']; cbn [tradeoff_of]; [lra |].
  pose proof (py_sum_lenR_bounds (d :: dh') H) as [Hlo Hhi].
  pose proof (lenR_cons_pos d dh') as Hpos.
  rewrite lenR_DIMENSIONS.
  split.
  - apply Rmult_le_pos; [exact Hlo |]. left. apply Rinv_0_lt_compat. lra.
  - apply (Rmult_le_reg_r (lenR (d :: dh') * 4)); [lra |].
    unfold Rdiv. rewrite Rmult_assoc, Rinv_l by lra. lra.
Qed.

Lemma fold_max_spec (xs : list Z) (x : Z) :
  (x <= fold_left Z.max xs x)%Z
  /\ (forall y, In y xs -> (y <= fold_left Z.max xs x)%Z)
  /\ In (fold_left Z.max xs x) (x :: xs).
Proof.
  revert x. induction xs as [| z xs IH]; intros x; cbn [fold_left].
  - split; [lia |]. split; [intros y [] | left; reflexivity].
  - destruct (IH (Z.max x z)) as (H1 & H2 & H3).
    split; [lia |]. split.
    + intros y [<- | Hy]; [lia | apply H2, Hy].
    + destruct H3 as [E | H3]; [| right; right; exact H3].
      rewrite <- E. destruct (Z.max_spec x z) as [[_ ->] | [_ ->]];
        [right; left | left]; reflexivity.
Qed.

Lemma sumZ_le_length_max (l : list Z) (m : Z) :
  (forall y, In y l -> (y <= m)%Z) ->
  (sumZ l <= Z.of_nat (List.length l) * m)%Z.
Proof.
  intros H. induction l as [| y l IH]; [cbn; lia |].
  rewrite sumZ_cons. cbn [List.length].
  specialize (IH (fun z Hz => H z (or_intror Hz))).
  specialize (H y (or_introl eq_refl)). lia.
Qed.

Lemma In_le_sumZ (l : list Z) (m : Z) :
  Forall (fun n => (1 <= n)%Z) l -> In m l -> (m <= sumZ l)%Z.
Proof.
  intros Hpos. induction Hpos as [| y l Hy Hl IH]; [intros [] |].
  rewrite sumZ_cons.
  assert (Hs : (0 <= sumZ l)%Z).
  { clear IH. induction Hl as [| z l Hz Hl IH]; [cbn; lia |].
    rewrite sumZ_cons. lia. }
  intros [<- | Hin]; [lia | specialize (IH Hin); lia].
Qed.

(** The most frequent of at most four names accounts for a quarter of the
    hits at least, and never for more than all of them. *)
Lemma max_count_range (x : string) (l : list string) :
  (List.length (py_set (x :: l)) <= 4)%nat ->
  (Z.of_nat (List.length (x :: l)) <= 4 * max_count (x :: l)
   /\ max_count (x :: l) <= Z.of_nat (List.length (x :: l)))%Z.
Proof.
  intros H4. unfold max_count.
  pose proof (Counter_total (x :: l)) as Htot.
  pose proof (Counter_positive (x :: l)) as Hpos.
  assert (Hlen : List.length (dict_values (Counter (x :: l))) =
                 List.length (py_set (x :: l))).
  { unfold dict_values. rewrite length_map, <- keys_Counter, length_map.
    reflexivity. }
  destruct (dict_values (Counter (x :: l))) as [| c cs] eqn:E.
  - cbn in Htot. cbn [List.length] in Htot. lia.
  - destruct (fold_max_spec cs c) as (H1 & H2 & H3).
    set (m := fold_left Z.max cs c) in *.
    assert (Hall : forall y, In y (c :: cs) -> (y <= m)%Z).
    { intros y [<- | Hy]; [exact H1 | apply H2, Hy]. }
    pose proof (sumZ_le_length_max (c :: cs) m Hall) as Hs.
    pose proof (In_le_sumZ (c :: cs) m Hpos H3) as Hm.
    rewrite Htot in Hs, Hm. rewrite Hlen in Hs.
    assert (Hm1 : (1 <= m)%Z).
    { rewrite Forall_forall in Hpos. apply Hpos, H3. }
    split; [nia | exact Hm].
Qed.

Lemma dominance_of_range (flat : list string) :
  (List.length (py_set flat) <= 4)%nat ->
  1 / 4 <= dominance_of flat <= 1.
Proof.
  intros H4. destruct flat as [| x l]; cbn [dominance_of]; [lra |].
  destruct (max_count_range x l H4) as [Hlo Hhi].
  pose proof (lenR_cons_pos x l) as Hpos.
  unfold lenR in *. rewrite INR_IZR_INZ in *.
  apply IZR_le in Hlo, Hhi. rewrite mult_IZR in Hlo.
  set (n := IZR (Z.of_nat (List.length (x :: l)))) in *.
  set (m := IZR (max_count (x :: l))) in *.
  split.
  - apply (Rmult_le_reg_r n); [exact Hpos |].
    unfold Rdiv. rewrite (Rmult_assoc m), Rinv_l by lra. lra.
  - apply (Rmult_le_reg_r n); [exact Hpos |].
    unfold Rdiv. rewrite (Rmult_assoc m), Rinv_l by lra. lra.
Qed.

End Level3Range.

Section Level3Score.

Local Open Scope R_scope.

(** What Level 3 computes on an answer of at least two steps. *)
Lemma level3_long (s : string) :
  (2 <= List.length (scenario_steps s))%nat ->
  level3_scenario (PyStr s) =
  Ok {| pass := Rleb 75 (scenario_formula (scenario_steps s));
        score := py_round (scenario_formula (scenario_steps s)) 2;
        reason := if Rleb 75 (scenario_formula (scenario_steps s)) then "OK"
                  else "Weak scenario reasoning" |}.
Proof.
  intros H. unfold level3_scenario.
  destruct (Nat.ltb_spec (List.length (scenario_steps s)) 2); [lia |].
  rewrite scenario_terms_closed.
  unfold scenario_formula, phase_hits_of, dim_hits_of.
  destruct (fold_left scan_step (scenario_steps s) ([], [])) as [ph dh].
  reflexivity.
Qed.

Lemma phase_hits_of_eq (steps : list string) :
  phase_hits_of steps = List.concat (map (hits PHASES) steps).
Proof. unfold phase_hits_of. rewrite fold_scan_step. reflexivity. Qed.

Lemma dim_hits_of_eq (steps : list string) :
  dim_hits_of steps =
  filter (fun d => match d with [] => false | _ :: _ => true end)
         (map (hits DIMENSIONS) steps).
Proof. unfold dim_hits_of. rewrite fold_scan_step. reflexivity. Qed.

Lemma flow_range (steps : list string) :
  0 <= lenR (py_set (phase_hits_of steps)) / 4 <= 1.
Proof.
  assert (H : (List.length (py_set (phase_hits_of steps)) <= 4)%nat).
  { apply (py_set_le_4 PHASES); [reflexivity |].
    intros x Hx. rewrite phase_hits_of_eq in Hx.
    eapply In_concat_hits, Hx. }
  unfold lenR. apply le_INR in H.
  pose proof (pos_INR (List.length (py_set (phase_hits_of steps)))) as Hp.
  cbn [INR] in H. lra.
Qed.

Lemma dim_hits_small (steps : list string) (d : list string) :
  In d (dim_hits_of steps) -> (List.length d <= 4)%nat.
Proof.
  rewrite dim_hits_of_eq. intros H. apply filter_In in H.
  destruct H as [H _]. apply in_map_iff in H. destruct H as [st [<- _]].
  apply (length_hits DIMENSIONS).
Qed.

Lemma flat_dims_small (steps : list string) :
  (List.length (py_set (List.concat (dim_hits_of steps))) <= 4)%nat.
Proof.
  apply (py_set_le_4 DIMENSIONS); [reflexivity |].
  intros x Hx. rewrite dim_hits_of_eq in Hx. apply in_concat in Hx.
  destruct Hx as [d [Hd Hx]]. apply filter_In in Hd. destruct Hd as [Hd _].
  apply in_map_iff in Hd. destruct Hd as [st [<- _]]. eapply hits_incl, Hx.
Qed.

Lemma scenario_formula_range (steps : list string) :
  0 <= scenario_formula steps <= 95.
Proof.
  unfold scenario_formula.
  pose proof (flow_range steps) as Hf.
  pose proof (tradeoff_of_range _ (dim_hits_small steps)) as Ht.
  pose proof (dominance_of_range _ (flat_dims_small steps)) as Hd.
  lra.
Qed.

(** Level 3 never raises, and its score lies between 0 and 95: the
    stability term is at most 0.75, since the most frequent of the four
    dimensions accounts for a quarter of the hits at least. *)
Theorem level3_score_range (v : pyval) :
  exists r, level3_scenario v = Ok r /\ 0 <= score r <= 95.
Proof.
  destruct v; try (eexists; split; [reflexivity | cbn [score]; lra]).
  destruct (Nat.lt_ge_cases (List.length (scenario_steps s)) 2) as [H | H].
  - eexists. split; [apply level3_short; exact H | cbn [score]; lra].
  - eexists. split; [apply level3_long; exact H |]. cbn [score].
    destruct (scenario_formula_range (scenario_steps s)) as [Hlo Hhi].
    split.
    + eapply Rle_trans; [| apply (py_round_ge _ 0 2); cbn [pow]; lra].
      cbn [pow]. lra.
    + eapply Rle_trans; [apply (py_round_le _ 9500 2); cbn [pow]; lra |].
      cbn [pow]. lra.
Qed.

(** An answer passes Level 3 only if it has at least two steps, hits at
    least three of the four phases, and names a dimension in some step. *)
Theorem level3_pass_needs (s : string) (r : score_result)
  (Hrun : level3_scenario (PyStr s) = Ok r)
  (Hpass : pass r = true) :
  (2 <= List.length (scenario_steps s))%nat
  /\ (3 <= List.length (py_set (phase_hits_of (scenario_steps s))))%nat
  /\ exists step,
      In step (scenario_steps s) /\ hits DIMENSIONS step <> [].
Proof.
  destruct (Nat.lt_ge_cases (List.length (scenario_steps s)) 2) as [H | H].
  { rewrite (level3_short s H) in Hrun. injection Hrun as <-. discriminate. }
  split; [exact H |].
  rewrite (level3_long s H) in Hrun. injection Hrun as <-.
  cbn [pass] in Hpass. apply Rleb_true_iff in Hpass.
  unfold scenario_formula in Hpass.
  pose proof (flow_range (scenario_steps s)) as Hf.
  pose proof (tradeoff_of_range _ (dim_hits_small (scenario_steps s))) as Ht.
  pose proof (dominance_of_range _ (flat_dims_small (scenario_steps s))) as Hd.
  split.
  - destruct (Nat.lt_ge_cases
                (List.length (py_set (phase_hits_of (scenario_steps s)))) 3)
      as [Hlt | Hge]; [exfalso | exact Hge].
    assert (Hle : (List.length (py_set (phase_hits_of (scenario_steps s)))
                   <= 2)%nat) by lia.
    apply le_INR in Hle. unfold lenR in *. cbn [INR] in Hle. lra.
  - destruct (dim_hits_of (scenario_steps s)) as [| d dh] eqn:E.
    + exfalso. cbn [tradeoff_of List.concat dominance_of] in *. lra.
    + assert (Hin : In d (dim_hits_of (scenario_steps s)))
        by (rewrite E; left; reflexivity).
      rewrite dim_hits_of_eq in Hin. apply filter_In in Hin.
      destruct Hin as [Hin Hne]. apply in_map_iff in Hin.
      destruct Hin as [step [Hd' Hstep]]. exists step.
      split; [exact Hstep |]. rewrite Hd'. destruct d; [discriminate |].
      discriminate.
Qed.

Lemma balanced_answer_passes :
  level3_scenario (PyStr balanced_answer) =
  Ok {| pass := true; score := 95; reason := "OK" |}.
Proof.
  rewrite level3_long by (vm_compute; lia).
  assert (E : scenario_formula (scenario_steps balanced_answer) = 95).
  { unfold scenario_formula.
    replace (py_set (phase_hits_of (scenario_steps balanced_answer)))
      with ["diagnose"; "contain"; "fix"; "prevent"]
      by (vm_compute; reflexivity).
    replace (dim_hits_of (scenario_steps balanced_answer))
      with (repeat ["risk"; "cost"; "time"; "reliability"] 4)
      by (vm_compute; reflexivity).
    cbn [repeat tradeoff_of dominance_of List.concat app].
    replace (max_count _) with 4%Z by (vm_compute; reflexivity).
    rewrite py_sum_sum_list, lenR_DIMENSIONS. unfold lenR.
    cbn [map sum_list fold_right List.length INR]. lra. }
  rewrite E. Rleb_true. f_equal. f_equal.
  rewrite (py_round_near _ 2 9500); cbn [pow]; lra.
Qed.

Lemma level3_pass_needs_witness :
  (2 <= List.length (scenario_steps balanced_answer))%nat
  /\ (3 <= List.length
             (py_set (phase_hits_of (scenario_steps balanced_answer))))%nat
  /\ exists step,
      In step (scenario_steps balanced_answer)
      /\ hits DIMENSIONS step <> [].
Proof.
  exact (level3_pass_needs balanced_answer _ balanced_answer_passes eq_refl).
Defined.

End Level3Score.

(** ** Level 1: range of the score, distinct tokens *)

Section Level1Range.

Local Open Scope R_scope.

Lemma INR_ge_30 (n : nat) : (30 <= n)%nat -> 30 <= INR n.
Proof.
  intros H. apply le_INR in H. rewrite (INR_IZR_INZ 30) in H. exact H.
Qed.

Lemma occurrences_le (t : string) (l : list string) :
  (occurrences t l <= List.length l)%nat.
Proof. apply filter_length_le. Qed.

Lemma occurrences_pos (t : string) (l : list string) :
  In t l -> (1 <= occurrences t l)%nat.
Proof.
  unfold occurrences. induction l as [| x l IH]; [intros [] |].
  cbn [filter]. intros [-> | H].
  - rewrite String.eqb_refl. cbn [List.length]. lia.
  - specialize (IH H). destruct (String.eqb t x); cbn [List.length]; lia.
Qed.

Lemma ln_le_0 (p : R) : 0 < p <= 1 -> ln p <= 0.
Proof.
  intros [Hp [Hlt | ->]].
  - left. rewrite <- ln_1. apply ln_increasing; assumption.
  - rewrite ln_1. lra.
Qed.

Lemma sum_list_nonpos (xs : list R) :
  Forall (fun x => x <= 0) xs -> sum_list xs <= 0.
Proof.
  intros H. induction H as [| x xs Hx Hxs IH]; cbn [sum_list fold_right].
  - lra.
  - fold (sum_list xs). lra.
Qed.

(** The entropy of the token frequencies is not negative. *)
Lemma shannon_entropy_nonneg (toks : list string) :
  (1 <= List.length toks)%nat -> 0 <= shannon_entropy toks.
Proof.
  intros HN. unfold shannon_entropy, token_counts.
  assert (HNR : 0 < INR (List.length toks)) by (apply lt_0_INR; lia).
  assert (H : sum_list
                (map (fun n : nat =>
                        INR n / INR (List.length toks)
                        * ln (INR n / INR (List.length toks)))
                     (map (fun t => occurrences t toks) (py_set toks))) <= 0).
  { apply sum_list_nonpos. rewrite Forall_forall. intros x Hx.
    apply in_map_iff in Hx. destruct Hx as [n [<- Hn]].
    apply in_map_iff in Hn. destruct Hn as [t [<- Ht]].
    apply (proj1 (In_py_set t toks)) in Ht.
    pose proof (occurrences_pos t toks Ht) as H1.
    pose proof (occurrences_le t toks) as H2.
    apply le_INR in H1, H2. cbn [INR] in H1.
    set (p := INR (occurrences t toks) / INR (List.length toks)).
    assert (Hp : 0 < p <= 1).
    { unfold p. split; [apply Rdiv_lt_0_compat; lra |].
      apply (Rmult_le_reg_r (INR (List.length toks))); [exact HNR |].
      unfold Rdiv. rewrite Rmult_assoc, Rinv_l by lra. lra. }
    pose proof (ln_le_0 p Hp) as Hl. destruct Hp as [Hp0 _].
    replace 0 with (p * 0) by lra. apply Rmult_le_compat_l; lra. }
  lra.
Qed.

Lemma py_set_le_length (l : list string) :
  (List.length (py_set l) <= List.length l)%nat.
Proof.
  apply NoDup_incl_length; [apply NoDup_py_set |].
  intros x Hx. apply In_py_set, Hx.
Qed.

Lemma level1_formula_range (toks : list string) :
  (30 <= List.length toks)%nat -> 0 <= level1_formula toks <= 100.
Proof.
  intros HN. unfold level1_formula.
  pose proof (INR_ge_30 _ HN) as HNR.
  pose proof (shannon_entropy_nonneg toks ltac:(lia)) as HH.
  pose proof (ln_pos (INR (List.length toks)) ltac:(lra)) as HL.
  assert (Hq : 0 <= shannon_entropy toks / ln (INR (List.length toks))).
  { apply Rmult_le_pos; [exact HH | left; apply Rinv_0_lt_compat; exact HL]. }
  assert (Hmin : 0 <= Rmin (shannon_entropy toks / ln (INR (List.length toks)))
                           1.0 <= 1).
  { split; [apply Rmin_glb; lra |].
    eapply Rle_trans; [apply Rmin_r | lra]. }
  pose proof (py_set_le_length toks) as Hs. apply le_INR in Hs.
  pose proof (pos_INR (List.length (py_set toks))) as Hs0.
  assert (Hred : 0 <= INR (List.length (py_set toks))
                      / INR (List.length toks) <= 1).
  { split.
    - apply Rmult_le_pos; [exact Hs0 | left; apply Rinv_0_lt_compat; lra].
    - apply (Rmult_le_reg_r (INR (List.length toks))); [lra |].
      unfold Rdiv. rewrite Rmult_assoc, Rinv_l by lra. lra. }
  lra.
Qed.

(** Level 1 never raises, and its score lies between 0 and 100. *)
Theorem level1_score_range (v : pyval) :
  exists r, level1_screen v = Ok r /\ 0 <= score r <= 100.
Proof.
  destruct v; try (eexists; split; [reflexivity | cbn [score]; lra]).
  destruct (Nat.lt_ge_cases (List.length (tokens_of s)) 30) as [H | H].
  - eexists. split; [apply level1_short; exact H | cbn [score]; lra].
  - eexists. split; [apply level1_long; exact H |]. cbn [score].
    destruct (level1_formula_range _ H) as [Hlo Hhi].
    split.
    + eapply Rle_trans; [| apply (py_round_ge _ 0 2); cbn [pow]; lra].
      cbn [pow]. lra.
    + eapply Rle_trans; [apply (py_round_le _ 10000 2); cbn [pow]; lra |].
      cbn [pow]. lra.
Qed.

(** A text passes Level 1 only if it has at least 30 tokens and at least
    one token in nine is distinct. *)
Theorem level1_pass_needs (s : string) (r : score_result)
  (Hrun : level1_screen (PyStr s) = Ok r)
  (Hpass : pass r = true) :
  (30 <= List.length (tokens_of s))%nat
  /\ (List.length (tokens_of s)
      <= 9 * List.length (py_set (tokens_of s)))%nat.
Proof.
  destruct (Nat.lt_ge_cases (List.length (tokens_of s)) 30) as [H | H].
  { rewrite (level1_short s H) in Hrun. injection Hrun as <-. discriminate. }
  split; [exact H |].
  rewrite (level1_long s H) in Hrun. injection Hrun as <-.
  cbn [pass] in Hpass. apply Rleb_true_iff in Hpass.
  unfold level1_formula in Hpass.
  set (toks := tokens_of s) in *.
  pose proof (INR_ge_30 _ H) as HNR.
  assert (Hmin : Rmin (shannon_entropy toks / ln (INR (List.length toks))) 1.0
                 <= 1) by (eapply Rle_trans; [apply Rmin_r | lra]).
  assert (Hred : 1 / 9 <= INR (List.length (py_set toks))
                          / INR (List.length toks)) by lra.
  apply (Rmult_le_compat_r (INR (List.length toks))) in Hred; [| lra].
  unfold Rdiv in Hred at 2. rewrite Rmult_assoc, Rinv_l, Rmult_1_r in Hred by lra.
  apply INR_le. rewrite mult_INR. cbn [INR]. lra.
Qed.

Lemma py_set_NoDup_from (l acc : list string) :
  NoDup (acc ++ l) -> fold_left set_add l acc = acc ++ l.
Proof.
  revert acc. induction l as [| x l IH]; intros acc H; cbn [fold_left].
  - rewrite app_nil_r. reflexivity.
  - assert (Hx : mem x acc = false).
    { destruct (mem x acc) eqn:E; [| reflexivity].
      apply mem_In in E. apply NoDup_remove_2 in H.
      exfalso. apply H. apply in_or_app. left. exact E. }
    unfold set_add at 2. rewrite Hx.
    rewrite IH; rewrite <- app_assoc; [reflexivity | exact H].
Qed.

Lemma py_set_NoDup (l : list string) : NoDup l -> py_set l = l.
Proof. intros H. unfold py_set. rewrite py_set_NoDup_from; auto. Qed.

Lemma occurrences_NoDup (t : string) (l : list string) :
  NoDup l -> In t l -> occurrences t l = 1%nat.
Proof.
  unfold occurrences. intros Hnd. induction Hnd as [| x l Hx Hl IH];
    [intros [] |].
  cbn [filter]. intros [-> | Hin].
  - rewrite String.eqb_refl. cbn [List.length]. f_equal.
    assert (E : filter (String.eqb t) l = []).
    { clear IH Hl. induction l as [| y l IHl]; [reflexivity |].
      cbn [filter]. destruct (String.eqb_spec t y) as [-> | _].
      - exfalso. apply Hx. left. reflexivity.
      - apply IHl. intros H. apply Hx. right. exact H. }
    rewrite E. reflexivity.
  - destruct (String.eqb_spec t x) as [-> | _]; [contradiction | apply IH, Hin].
Qed.

(** A text of at least 30 tokens that are all distinct scores 100.0 and
    passes. *)
Theorem level1_all_distinct (s : string)
  (Hlong : (30 <= List.length (tokens_of s))%nat)
  (Hdistinct : NoDup (tokens_of s)) :
  level1_screen (PyStr s) = Ok {| pass := true; score := 100; reason := "OK" |}.
Proof.
  rewrite (level1_long s Hlong).
  set (toks := tokens_of s) in *.
  pose proof (INR_ge_30 _ Hlong) as HNR.
  assert (E : level1_formula toks = 100).
  { unfold level1_formula, shannon_entropy, token_counts.
    rewrite (py_set_NoDup toks Hdistinct), map_map.
    rewrite (map_ext_in _ (fun _ => 1 / INR (List.length toks)
                                    * ln (1 / INR (List.length toks)))).
    2:{ intros t Ht. rewrite (occurrences_NoDup t toks Hdistinct Ht).
        cbn [INR]. reflexivity. }
    assert (Hc : forall (c : R) (l : list string),
               sum_list (map (fun _ => c) l) = INR (List.length l) * c).
    { intros c l. induction l as [| x l IH];
        cbn [map sum_list fold_right List.length].
      - cbn [INR]. lra.
      - fold (sum_list (map (fun _ : string => c) l)). rewrite IH, S_INR. lra. }
    rewrite Hc, ln_div, ln_1 by lra.
    pose proof (ln_pos (INR (List.length toks)) ltac:(lra)) as HL.
    set (N := INR (List.length toks)) in *. set (L := ln N) in *.
    replace (- (N * (1 / N * (0 - L))) / L) with 1 by (field; lra).
    rewrite Rmin_left by lra.
    replace (N / N) with 1 by (field; lra). lra. }
  rewrite E. Rleb_true. f_equal. f_equal.
  rewrite (py_round_near _ 2 10000); cbn [pow]; lra.
Qed.

Lemma ex1_tokens_distinct : NoDup (tokens_of ex1_text).
Proof.
  assert (E : py_set (tokens_of ex1_text) = tokens_of ex1_text)
    by (vm_compute; reflexivity).
  rewrite <- E. apply NoDup_py_set.
Qed.

Lemma level1_all_distinct_witness :
  level1_screen (PyStr ex1_text) =
  Ok {| pass := true; score := 100; reason := "OK" |}.
Proof.
  apply (level1_all_distinct ex1_text).
  - vm_compute. lia.
  - exact ex1_tokens_distinct.
Defined.

Lemma level1_pass_needs_witness :
  (30 <= List.length (tokens_of ex1_text))%nat
  /\ (List.length (tokens_of ex1_text)
      <= 9 * List.length (py_set (tokens_of ex1_text)))%nat.
Proof.
  exact (level1_pass_needs ex1_text _ ex1_level1 eq_refl).
Defined.

End Level1Range.

(** ** Level 2: range, extremes, what the result depends on *)

Section Level2Range.

Local Open Scope R_scope.

Lemma gradable_ratio_range (d : list (string * pyval)) :
  (0 < gradable_total d)%nat -> 0 <= gradable_ratio d <= 1.
Proof.
  intros Ht. unfold gradable_ratio.
  pose proof (gradable_correct_le d) as Hle. apply le_INR in Hle.
  apply lt_INR in Ht. cbn [INR] in Ht.
  pose proof (pos_INR (gradable_correct d)) as Hc.
  split.
  - apply Rmult_le_pos; [exact Hc | left; apply Rinv_0_lt_compat; exact Ht].
  - apply (Rmult_le_reg_r (INR (gradable_total d))); [exact Ht |].
    unfold Rdiv. rewrite Rmult_assoc, Rinv_l by lra. lra.
Qed.

(** Level 2 never raises, and its prob_pass lies between 0 and 1. *)
Theorem level2_prob_range (v : pyval) :
  exists r, level2_technical v = Ok r /\ 0 <= prob_pass r <= 1.
Proof.
  destruct v; try (eexists; split; [reflexivity | cbn [prob_pass]; lra]).
  destruct (Nat.eq_0_gt_0_cases (gradable_total d)) as [H0 | Hpos].
  - destruct d as [| e d'];
      [eexists; split; [reflexivity | cbn [prob_pass]; lra] |].
    unfold level2_technical. rewrite grade_counts, H0. cbn [Z.of_nat Z.eqb].
    eexists; split; [reflexivity | cbn [prob_pass]; lra].
  - eexists. split; [apply level2_gradable; exact Hpos |]. cbn [prob_pass].
    destruct (gradable_ratio_range d Hpos) as [Hlo Hhi].
    split.
    + eapply Rle_trans; [| apply (py_round_ge _ 0 3); cbn [pow]; lra].
      cbn [pow]. lra.
    + eapply Rle_trans; [apply (py_round_le _ 1000 3); cbn [pow]; lra |].
      cbn [pow]. lra.
Qed.

(** With every gradable entry correct Level 2 returns prob_pass 1.0 and
    passes. *)
Theorem level2_all_correct (d : list (string * pyval))
  (Hgradable : (0 < gradable_total d)%nat)
  (Hall : gradable_correct d = gradable_total d) :
  level2_technical (PyDict d) =
  Ok {| l2_pass := true; prob_pass := 1; l2_reason := "OK" |}.
Proof.
  rewrite (level2_gradable d Hgradable).
  assert (E : gradable_ratio d = 1).
  { unfold gradable_ratio. rewrite Hall. apply lt_INR in Hgradable.
    cbn [INR] in Hgradable. field. lra. }
  rewrite E. Rleb_true. f_equal. f_equal.
  rewrite (py_round_near _ 3 1000); cbn [pow]; lra.
Qed.

(** With no gradable entry correct Level 2 returns prob_pass 0.0 and does
    not pass. *)
Theorem level2_none_correct (d : list (string * pyval))
  (Hgradable : (0 < gradable_total d)%nat)
  (Hnone : gradable_correct d = 0%nat) :
  level2_technical (PyDict d) =
  Ok {| l2_pass := false; prob_pass := 0;
        l2_reason := "Weak technical fundamentals" |}.
Proof.
  rewrite (level2_gradable d Hgradable).
  assert (E : gradable_ratio d = 0).
  { unfold gradable_ratio. rewrite Hnone. cbn [INR]. unfold Rdiv. lra. }
  rewrite E. Rleb_false. f_equal. f_equal.
  rewrite (py_round_near _ 3 0); cbn [pow]; lra.
Qed.

Lemma level2_by_grade (d d' : list (string * pyval)) :
  d <> [] -> d' <> [] -> grade d = grade d' ->
  level2_technical (PyDict d) = level2_technical (PyDict d').
Proof.
  intros Hd Hd' E. destruct d as [| e d]; [contradiction |].
  destruct d' as [| e' d']; [contradiction |].
  unfold level2_technical. rewrite E. reflexivity.
Qed.

(** An entry that is not gradable does not change what Level 2 returns,
    as long as some other entry is left. *)
Theorem level2_ignores_ungradable (d1 d2 : list (string * pyval))
  (k : string) (v : pyval)
  (Hv : gradable v = false)
  (Hrest : d1 ++ d2 <> []) :
  level2_technical (PyDict (d1 ++ (k, v) :: d2)) =
  level2_technical (PyDict (d1 ++ d2)).
Proof.
  apply level2_by_grade; [destruct d1; discriminate | exact Hrest |].
  rewrite !grade_counts. unfold gradable_total, gradable_correct, dict_values.
  rewrite !map_app, !filter_app. cbn [map filter snd].
  assert (Hc : graded_correct v = false).
  { destruct v; try reflexivity. unfold gradable, dict_has in Hv.
    unfold graded_correct. destruct (dict_get d "correct"); [discriminate |].
    reflexivity. }
  rewrite Hv, Hc. reflexivity.
Qed.

Lemma level2_ignores_ungradable_witness :
  level2_technical
    (PyDict ([("q1", PyDict [("correct", PyBool true)])]
             ++ ("note", PyStr "skipped")
             :: [("q2", PyDict [("correct", PyBool false)])])) =
  level2_technical
    (PyDict ([("q1", PyDict [("correct", PyBool true)])]
             ++ [("q2", PyDict [("correct", PyBool false)])])).
Proof.
  apply level2_ignores_ungradable; [reflexivity | discriminate].
Defined.

Lemma level2_all_correct_witness :
  level2_technical
    (PyDict [("q1", PyDict [("correct", PyBool true)]);
             ("q2", PyDict [("correct", PyInt 1)]);
             ("q3", PyNone)]) =
  Ok {| l2_pass := true; prob_pass := 1; l2_reason := "OK" |}.
Proof.
  apply level2_all_correct; [vm_compute; lia | vm_compute; reflexivity].
Defined.

Lemma level2_none_correct_witness :
  level2_technical
    (PyDict [("q1", PyDict [("correct", PyBool false)]);
             ("q2", PyDict [("correct", PyStr "")])]) =
  Ok {| l2_pass := false; prob_pass := 0;
        l2_reason := "Weak technical fundamentals" |}.
Proof.
  apply level2_none_correct; [vm_compute; lia | vm_compute; reflexivity].
Defined.

End Level2Range.

(** ** The store: outcomes of the writes *)

Section StoreOutcomes.

(** The three ways [upsert_candidate] can end. *)
Lemma upsert_candidate_outcome (vfn vem vph vro : pyval)
  (cid : option string) (w : world) :
  let c := fst (chosen_id cid w) in
  let w0 := snd (chosen_id cid w) in
  (exists e w',
      upsert_candidate vfn vem vph vro cid w = (Raise e, w')
      /\ w_db w' = w_db w)
  \/ (exists fn em ph ro,
         has_candidate (w_db w) c = true
         /\ sql_bind_text vfn = Ok fn /\ sql_bind_text vem = Ok em
         /\ sql_bind_text vph = Ok ph /\ sql_bind_text vro = Ok ro
         /\ upsert_candidate vfn vem vph vro cid w =
            (Ok c, set_db w0 (update_candidates (w_db w) c fn em ph ro)))
  \/ (exists fn em ph ro,
         has_candidate (w_db w) c = false
         /\ sql_bind_text vfn = Ok fn /\ sql_bind_text vem = Ok em
         /\ sql_bind_text vph = Ok ph /\ sql_bind_text vro = Ok ro
         /\ upsert_candidate vfn vem vph vro cid w =
            (Ok c,
             set_db (tick w0)
                    (insert_candidate (w_db w)
                       (mk_candidate c fn em ph ro (now_str w0))))).
Proof.
  cbv zeta.
  unfold chosen_id, upsert_candidate, mbind, transaction, new_id, get_db,
    utc_now, lift, put_db, mret.
  rewrite init_db_run.
  destruct cid as [c0 |]; [destruct (is_empty c0) |];
    cbn [fst snd w_db draw];
    match goal with
    | |- context [has_candidate (w_db w) ?c] =>
        destruct (has_candidate (w_db w) c) eqn:Hc
    end;
    destruct (sql_bind_text vfn) as [fn | e1] eqn:Hfn;
    try (left; do 2 eexists; split; reflexivity);
    destruct (sql_bind_text vem) as [em | e2] eqn:Hem;
    try (left; do 2 eexists; split; reflexivity);
    destruct (sql_bind_text vph) as [ph | e3] eqn:Hph;
    try (left; do 2 eexists; split; reflexivity);
    destruct (sql_bind_text vro) as [ro | e4] eqn:Hro;
    try (left; do 2 eexists; split; reflexivity);
    right; [left | right | left | right | left | right];
    exists fn, em, ph, ro; repeat split; reflexivity.
Qed.

(** The two ways [save_round_result] can end. *)
Lemma save_round_result_outcome sid n own q a raw sc p th qid vio met fea ent w :
  (exists ans,
      in_int64 n = true /\ sql_bind_text a = Ok ans
      /\ has_result (w_db w) (next_id "res" w) = false
      /\ has_session (w_db w) sid = true
      /\ save_round_result sid n own q a raw sc p th qid vio met fea ent w =
         (Ok (next_id "res" w),
          set_db (tick (draw w))
                 (insert_result (w_db w)
                    (mk_round (next_id "res" w) sid n own qid q ans raw sc
                              (if p then 1 else 0) th (or_empty vio)
                              (or_empty met) (or_empty fea) ent (now_str w)))))
  \/ (exists e,
         save_round_result sid n own q a raw sc p th qid vio met fea ent w =
         (Raise e, tick (draw w))
         /\ (in_int64 n = false /\ e = OverflowError
             \/ in_int64 n = true
                /\ (sql_bind_text a = Raise e
                    \/ (exists ans, sql_bind_text a = Ok ans)
                       /\ e = IntegrityError
                       /\ (has_result (w_db w) (next_id "res" w) = true
                           \/ has_session (w_db w) sid = false)))).
Proof.
  destruct (in_int64 n) eqn:Hn;
    [destruct (sql_bind_text a) as [ans | e] eqn:Ha;
     [destruct (has_result (w_db w) (next_id "res" w)) eqn:Hr;
      [| destruct (has_session (w_db w) sid) eqn:Hs] |] |].
  2: { left. exists ans. repeat split; try reflexivity.
       apply save_round_result_run; assumption. }
  all: right; eexists; split;
    [ unfold save_round_result, mbind, transaction, new_id, get_db,
        utc_now, put_db, mret, mraise, lift; rewrite init_db_run;
      cbn [w_db draw tick]; rewrite ?Hn, ?Ha, ?Hr, ?Hs; reflexivity
    | ].
  - right. split; [reflexivity |]. right.
    split; [eexists; reflexivity |]. split; [reflexivity |]. left. reflexivity.
  - right. split; [reflexivity |]. right.
    split; [eexists; reflexivity |]. split; [reflexivity |]. right. reflexivity.
  - right. split; [reflexivity |]. left. reflexivity.
  - left. split; reflexivity.
Qed.

End StoreOutcomes.

(** ** The store: one call, one transaction *)

Section StoreSteps.

Lemma run_call_db_step (c : store_call) (w : world) :
  db_step (w_db w) (w_db (run_call c w)).
Proof.
  destruct c as [| fn em ph ro cid | cid
                 | sid n own q a raw sc p th qid vio met fea ent
                 | sid fs fd | sid]; cbn [run_call].
  - apply db_same.
  - pose proof (upsert_candidate_outcome fn em ph ro cid w) as H.
    cbv zeta in H.
    destruct H as [(e & w' & E & Hdb)
                  | [(fn' & em' & ph' & ro' & Hc & _ & _ & _ & _ & E)
                    | (fn' & em' & ph' & ro' & Hc & _ & _ & _ & _ & E)]];
      rewrite E; cbn [snd w_db set_db].
    + rewrite Hdb. apply db_same.
    + apply db_update_candidate. exact Hc.
    + apply db_insert_candidate. exact Hc.
  - destruct (create_session_cases cid w) as [(Hs & Hc & E) | E];
      rewrite E; cbn [snd w_db set_db tick draw].
    + apply db_insert_session; assumption.
    + apply db_same.
  - destruct (save_round_result_outcome sid n own q a raw sc p th qid vio met
                fea ent w)
      as [(ans & _ & _ & Hr & Hs & E) | (e & E & _)];
      rewrite E; cbn [snd w_db set_db tick draw].
    + apply db_insert_result; assumption.
    + apply db_same.
  - rewrite complete_session_run. cbn [snd w_db set_db]. apply db_complete.
  - apply db_same.
Qed.

Lemma db_steps_trans (a b c : database) :
  db_steps a b -> db_steps b c -> db_steps a c.
Proof.
  intros Hab Hbc. induction Hbc as [| c1 c2 _ IH Hstep]; [exact Hab |].
  exact (steps_snoc a c1 c2 IH Hstep).
Qed.

Lemma db_steps_one (a b : database) : db_step a b -> db_steps a b.
Proof. intros H. exact (steps_snoc a a b (steps_refl a) H). Qed.

Lemma run_calls_db_steps (cs : list store_call) (w : world) :
  db_steps (w_db w) (w_db (run_calls cs w)).
Proof.
  revert w. induction cs as [| c cs IH]; intros w; [apply steps_refl |].
  cbn [run_calls fold_left]. fold (run_calls cs (run_call c w)).
  exact (db_steps_trans _ _ _ (db_steps_one _ _ (run_call_db_step c w))
           (IH (run_call c w))).
Qed.

(** A call that raises leaves every table as it found it: each call is
    one transaction, rolled back as a whole. *)
Theorem raising_call_keeps_store (c : store_call) (w : world) :
  call_raises c w = true -> w_db (run_call c w) = w_db w.
Proof.
  destruct c as [| fn em ph ro cid | cid
                 | sid n own q a raw sc p th qid vio met fea ent
                 | sid fs fd | sid]; cbn [run_call call_raises]; intros Hr.
  - reflexivity.
  - pose proof (upsert_candidate_outcome fn em ph ro cid w) as H.
    cbv zeta in H.
    destruct H as [(e & w' & E & Hdb)
                  | [(fn' & em' & ph' & ro' & _ & _ & _ & _ & _ & E)
                    | (fn' & em' & ph' & ro' & _ & _ & _ & _ & _ & E)]];
      rewrite E in *; [exact Hdb | discriminate | discriminate].
  - destruct (create_session_cases cid w) as [(_ & _ & E) | E];
      rewrite E in *; [discriminate | reflexivity].
  - destruct (save_round_result_outcome sid n own q a raw sc p th qid vio met
                fea ent w)
      as [(ans & _ & _ & _ & _ & E) | (e & E & _)];
      rewrite E in *; [discriminate | reflexivity].
  - rewrite complete_session_run in Hr. discriminate.
  - reflexivity.
Qed.

Lemma raising_call_keeps_store_witness :
  w_db (run_call (CallCreateSession "cand_unknown") demo_world)
  = w_db demo_world.
Proof.
  apply (raising_call_keeps_store (CallCreateSession "cand_unknown") demo_world).
  vm_compute. reflexivity.
Defined.

End StoreSteps.

(** ** The store: integrity through any sequence of calls *)

Section StoreIntegrity.

Lemma existsb_eqb_In {A : Type} (f : A -> string) (l : list A) (k : string) :
  existsb (fun r => String.eqb (f r) k) l = true <-> In k (map f l).
Proof.
  rewrite existsb_exists, in_map_iff. split.
  - intros (r & Hr & E). exists r. apply String.eqb_eq in E. tauto.
  - intros (r & E & Hr). exists r. split; [exact Hr |].
    apply String.eqb_eq. exact E.
Qed.

Lemma existsb_eqb_notin {A : Type} (f : A -> string) (l : list A) (k : string) :
  existsb (fun r => String.eqb (f r) k) l = false -> ~ In k (map f l).
Proof.
  intros H Hin. apply existsb_eqb_In in Hin. congruence.
Qed.

Lemma NoDup_snoc {A : Type} (l : list A) (x : A) :
  NoDup l -> ~ In x l -> NoDup (l ++ [x]).
Proof.
  induction l as [| y l IH]; cbn [app]; intros Hl Hx.
  - constructor; [intros [] | constructor].
  - inversion Hl as [| y' l' Hy Hl']; subst. constructor.
    + intros Hin. apply in_app_or in Hin. destruct Hin as [Hin | [E | []]].
      * exact (Hy Hin).
      * apply Hx. left. symmetry. exact E.
    + apply IH; [exact Hl' |]. intros Hin. apply Hx. right. exact Hin.
Qed.

Lemma map_candidate_id_update (cid : string) (fn em ph ro : sqlval)
  (l : list candidate_row) :
  map candidate_id (map (update_candidate cid fn em ph ro) l)
  = map candidate_id l.
Proof.
  rewrite map_map. apply map_ext. intros c. apply candidate_id_update.
Qed.

Lemma map_session_id_complete (sid : string) (fs : R) (fd now : string)
  (l : list session_row) :
  map session_id (map (complete_row sid fs fd now) l) = map session_id l.
Proof.
  rewrite map_map. apply map_ext. intros r. apply session_id_complete_row.
Qed.

Lemma db_step_pk_unique (db db' : database) :
  db_step db db' -> pk_unique db -> pk_unique db'.
Proof.
  intros Hstep (Hc & Hs & Hr).
  destruct Hstep as [| cid fn em ph ro _ | c Hfresh | sid cid now Hfresh _
                     | r Hfresh _ | sid fs fd now];
    unfold pk_unique;
    cbn [candidates sessions round_results update_candidates insert_candidate
           insert_session insert_result update_completed].
  - auto.
  - rewrite map_candidate_id_update. auto.
  - rewrite map_app. cbn [map]. repeat split; try assumption.
    apply NoDup_snoc; [exact Hc |]. apply existsb_eqb_notin. exact Hfresh.
  - rewrite map_app. cbn [map session_id]. repeat split; try assumption.
    apply NoDup_snoc; [exact Hs |]. apply existsb_eqb_notin. exact Hfresh.
  - rewrite map_app. cbn [map]. repeat split; try assumption.
    apply NoDup_snoc; [exact Hr |]. apply existsb_eqb_notin. exact Hfresh.
  - rewrite map_session_id_complete. auto.
Qed.

Lemma has_candidate_ids (db db' : database) (cid : string) :
  map candidate_id (candidates db') = map candidate_id (candidates db) ->
  has_candidate db' cid = has_candidate db cid.
Proof.
  intros H. unfold has_candidate.
  destruct (existsb _ (candidates db)) eqn:E.
  - apply existsb_eqb_In. rewrite H. apply existsb_eqb_In. exact E.
  - destruct (existsb _ (candidates db')) eqn:E'; [| reflexivity].
    apply existsb_eqb_In in E'. rewrite H in E'.
    apply existsb_eqb_In in E'. congruence.
Qed.

Lemma session_fk_ext (db db' : database) :
  map candidate_id (candidates db') = map candidate_id (candidates db) ->
  sessions db' = sessions db ->
  session_fk db' = session_fk db.
Proof.
  intros Hc Hs. unfold session_fk. rewrite Hs. clear Hs.
  induction (sessions db) as [| r l IH]; cbn [forallb]; [reflexivity |].
  rewrite (has_candidate_ids db db' _ Hc), IH. reflexivity.
Qed.

Lemma has_candidate_insert_candidate (db : database) (c : candidate_row)
  (cid : string) :
  has_candidate (insert_candidate db c) cid =
  has_candidate db cid || String.eqb (candidate_id c) cid.
Proof.
  unfold has_candidate, insert_candidate. cbn [candidates].
  rewrite existsb_app. cbn [existsb]. rewrite orb_false_r. reflexivity.
Qed.

Lemma sess_candidate_id_complete_row sid fs fd now r :
  sess_candidate_id (complete_row sid fs fd now r) = sess_candidate_id r.
Proof. unfold complete_row. destruct (String.eqb _ _); reflexivity. Qed.

Lemma db_step_session_fk (db db' : database) :
  db_step db db' -> session_fk db = true -> session_fk db' = true.
Proof.
  intros Hstep H.
  destruct Hstep as [| cid fn em ph ro _ | c _ | sid cid now _ Hcand
                     | r _ _ | sid fs fd now].
  - exact H.
  - rewrite (session_fk_ext db); [exact H | | reflexivity].
    apply map_candidate_id_update.
  - unfold session_fk in *. rewrite forallb_forall in *. intros x Hx.
    rewrite has_candidate_insert_candidate.
    change (In x (sessions db)) in Hx. rewrite (H x Hx). reflexivity.
  - unfold session_fk in *. cbn [sessions insert_session].
    rewrite forallb_app. cbn [forallb sess_candidate_id].
    change (has_candidate (insert_session db _) cid)
      with (has_candidate db cid).
    rewrite Hcand. cbn [andb]. rewrite andb_true_r. exact H.
  - exact H.
  - unfold session_fk in *. cbn [sessions update_completed].
    rewrite forallb_forall in *. intros x Hx.
    apply in_map_iff in Hx. destruct Hx as (r & <- & Hr).
    rewrite sess_candidate_id_complete_row. exact (H r Hr).
Qed.

Lemma db_step_fk_consistent (db db' : database) :
  db_step db db' -> fk_consistent db = true -> fk_consistent db' = true.
Proof.
  intros Hstep H.
  destruct Hstep as [| cid fn em ph ro _ | c _ | sid cid now _ _
                     | r _ Hsess | sid fs fd now].
  - exact H.
  - rewrite (fk_consistent_ext db); [exact H | reflexivity | reflexivity].
  - rewrite (fk_consistent_ext db); [exact H | reflexivity | reflexivity].
  - apply fk_consistent_insert_session. exact H.
  - apply fk_consistent_insert_result; assumption.
  - rewrite fk_consistent_update_completed. exact H.
Qed.

Lemma row_coherent_complete_row sid fs fd now r :
  row_coherent r -> row_coherent (complete_row sid fs fd now r).
Proof.
  intros H. unfold complete_row.
  destruct (String.eqb (session_id r) sid); [| exact H].
  right. cbn. repeat split; discriminate.
Qed.

Lemma db_step_row_coherent (db db' : database) :
  db_step db db' ->
  Forall row_coherent (sessions db) -> Forall row_coherent (sessions db').
Proof.
  intros Hstep H.
  destruct Hstep as [| cid fn em ph ro _ | c _ | sid cid now _ _
                     | r _ _ | sid fs fd now];
    cbn [sessions update_candidates insert_candidate insert_session
           insert_result update_completed]; try exact H.
  - apply Forall_app. split; [exact H |].
    constructor; [| constructor]. left. cbn. repeat split; reflexivity.
  - rewrite Forall_forall in *. intros x Hx.
    apply in_map_iff in Hx. destruct Hx as (r & <- & Hr).
    apply row_coherent_complete_row. exact (H r Hr).
Qed.

Lemma db_step_store_ok (db db' : database) :
  db_step db db' -> store_ok db -> store_ok db'.
Proof.
  intros Hstep (Hpk & Hsf & Hfk & Hco). repeat split.
  - exact (proj1 (db_step_pk_unique _ _ Hstep Hpk)).
  - exact (proj1 (proj2 (db_step_pk_unique _ _ Hstep Hpk))).
  - exact (proj2 (proj2 (db_step_pk_unique _ _ Hstep Hpk))).
  - exact (db_step_session_fk _ _ Hstep Hsf).
  - exact (db_step_fk_consistent _ _ Hstep Hfk).
  - exact (db_step_row_coherent _ _ Hstep Hco).
Qed.

Lemma db_steps_store_ok (db db' : database) :
  db_steps db db' -> store_ok db -> store_ok db'.
Proof.
  intros Hsteps H. induction Hsteps as [| db1 db2 _ IH Hstep]; [exact H |].
  exact (db_step_store_ok _ _ Hstep IH).
Qed.

(** Primary keys stay unique: through any sequence of store calls no two
    candidates, no two sessions and no two round results share an id. *)
Theorem run_calls_pk_unique (cs : list store_call) (w : world) :
  pk_unique (w_db w) -> pk_unique (w_db (run_calls cs w)).
Proof.
  intros H. pose proof (run_calls_db_steps cs w) as Hsteps.
  induction Hsteps as [| db1 db2 _ IH Hstep]; [exact H |].
  exact (db_step_pk_unique _ _ Hstep IH).
Qed.

(** Foreign keys stay satisfied: through any sequence of store calls every
    session names a stored candidate and every round result a stored
    session. *)
Theorem run_calls_foreign_keys (cs : list store_call) (w : world) :
  session_fk (w_db w) = true -> fk_consistent (w_db w) = true ->
  session_fk (w_db (run_calls cs w)) = true
  /\ fk_consistent (w_db (run_calls cs w)) = true.
Proof.
  intros Hs Hr. pose proof (run_calls_db_steps cs w) as Hsteps.
  induction Hsteps as [| db1 db2 _ IH Hstep]; [split; assumption |].
  destruct IH as [IHs IHr]. split.
  - exact (db_step_session_fk _ _ Hstep IHs).
  - exact (db_step_fk_consistent _ _ Hstep IHr).
Qed.

(** A session row is never half completed: through any sequence of store
    calls its status is IN_PROGRESS with final_score, final_decision and
    completed_at null, or COMPLETED with all three set. *)
Theorem run_calls_row_coherent (cs : list store_call) (w : world) :
  Forall row_coherent (sessions (w_db w)) ->
  Forall row_coherent (sessions (w_db (run_calls cs w))).
Proof.
  intros H. pose proof (run_calls_db_steps cs w) as Hsteps.
  induction Hsteps as [| db1 db2 _ IH Hstep]; [exact H |].
  exact (db_step_row_coherent _ _ Hstep IH).
Qed.

Lemma demo_calls_sessions :
  sessions (w_db (run_calls demo_calls demo_world)) =
  [ mk_session "sess_1c0ffee5eed1" "cand_0c0ffee5eed1" "COMPLETED"
      (Some 0%R) (Some "REJECT") "2024-05-17T10:00:01Z"
      (Some "2024-05-17T10:00:03Z") ].
Proof. reflexivity. Qed.

Lemma run_calls_pk_unique_witness :
  pk_unique (w_db (run_calls demo_calls demo_world)).
Proof.
  apply (run_calls_pk_unique demo_calls demo_world).
  repeat split; constructor.
Defined.

Lemma run_calls_foreign_keys_witness :
  session_fk (w_db (run_calls demo_calls demo_world)) = true
  /\ fk_consistent (w_db (run_calls demo_calls demo_world)) = true.
Proof.
  apply (run_calls_foreign_keys demo_calls demo_world); reflexivity.
Defined.

Lemma run_calls_row_coherent_witness :
  Forall row_coherent (sessions (w_db (run_calls demo_calls demo_world))).
Proof.
  apply (run_calls_row_coherent demo_calls demo_world). constructor.
Defined.

Lemma extends_refl (db : database) : extends db db.
Proof.
  repeat split; exists []; rewrite app_nil_r; reflexivity.
Qed.

Lemma extends_trans (a b c : database) :
  extends a b -> extends b c -> extends a c.
Proof.
  intros ([l1 H1] & [l2 H2] & [l3 H3]) ([m1 G1] & [m2 G2] & [m3 G3]).
  repeat split.
  - exists (l1 ++ m1). rewrite G1, H1, app_assoc. reflexivity.
  - exists (l2 ++ m2). rewrite G2, H2, app_assoc. reflexivity.
  - exists (l3 ++ m3). rewrite G3, H3, app_assoc. reflexivity.
Qed.

Lemma candidate_key_update cid fn em ph ro c :
  candidate_key (update_candidate cid fn em ph ro c) = candidate_key c.
Proof. unfold update_candidate. destruct (String.eqb _ _); reflexivity. Qed.

Lemma session_key_complete_row sid fs fd now r :
  session_key (complete_row sid fs fd now r) = session_key r.
Proof. unfold complete_row. destruct (String.eqb _ _); reflexivity. Qed.

Lemma db_step_extends (db db' : database) : db_step db db' -> extends db db'.
Proof.
  intros Hstep.
  destruct Hstep as [| cid fn em ph ro _ | c _ | sid cid now _ _
                     | r _ _ | sid fs fd now];
    unfold extends;
    cbn [candidates sessions round_results update_candidates insert_candidate
           insert_session insert_result update_completed].
  - apply extends_refl.
  - repeat split; exists []; rewrite app_nil_r; [| reflexivity | reflexivity].
    rewrite map_map. apply map_ext. intros c. apply candidate_key_update.
  - repeat split; [eexists; apply map_app | |];
      exists []; rewrite app_nil_r; reflexivity.
  - repeat split; [| eexists; apply map_app |];
      exists []; rewrite app_nil_r; reflexivity.
  - repeat split; [| | eexists; reflexivity];
      exists []; rewrite app_nil_r; reflexivity.
  - repeat split; exists []; rewrite app_nil_r; [reflexivity | | reflexivity].
    rewrite map_map. apply map_ext. intros r. apply session_key_complete_row.
Qed.

(** Nothing is ever deleted or rewritten in place beyond the documented
    columns: through any sequence of store calls every candidate and
    every session stays where it is with its id, owner and creation time,
    and every round result stays exactly as it was saved. *)
Theorem run_calls_extends (cs : list store_call) (w : world) :
  extends (w_db w) (w_db (run_calls cs w)).
Proof.
  pose proof (run_calls_db_steps cs w) as Hsteps.
  induction Hsteps as [| db1 db2 _ IH Hstep]; [apply extends_refl |].
  exact (extends_trans _ _ _ IH (db_step_extends _ _ Hstep)).
Qed.

End StoreIntegrity.

(** ** The store: what each write refuses, and what it overwrites *)

Section StoreWrites.

Local Open Scope R_scope.

(** A session cannot be opened for a candidate id that names no stored
    candidate: the INSERT violates the foreign key, [create_session]
    raises IntegrityError after one id draw and one clock reading, and no
    table changes. *)
Theorem create_session_unknown_candidate (cid : string) (w : world) :
  has_candidate (w_db w) cid = false ->
  create_session cid w = (Raise IntegrityError, tick (draw w)).
Proof.
  intros Hc. destruct (create_session_cases cid w) as [(_ & Hc' & _) | E].
  - congruence.
  - exact E.
Qed.

Lemma create_session_unknown_candidate_witness :
  create_session "cand_unknown" demo_world
  = (Raise IntegrityError, tick (draw demo_world)).
Proof.
  apply (create_session_unknown_candidate "cand_unknown" demo_world).
  reflexivity.
Defined.

(** A round result cannot be saved for a session id that names no stored
    session: [save_round_result] raises, after one id draw and one clock
    reading, and no table changes; when the round number and the answer
    bind, what it raises is IntegrityError. *)
Theorem save_round_result_unknown_session (sid : string) (n : Z)
  (own q : string) (a : pyval) (raw sc : R) (p : bool) (th : R)
  (qid : option string) (vio : option (list string))
  (met fea : option (list (string * pyval))) (ent : option R) (w : world) :
  has_session (w_db w) sid = false ->
  exists e,
    save_round_result sid n own q a raw sc p th qid vio met fea ent w
    = (Raise e, tick (draw w))
    /\ (in_int64 n = true -> sql_bindable a = true -> e = IntegrityError).
Proof.
  intros Hs.
  destruct (save_round_result_outcome sid n own q a raw sc p th qid vio met
              fea ent w)
    as [(ans & _ & _ & _ & Hs' & _) | (e & E & Hwhy)]; [congruence |].
  exists e. split; [exact E |]. intros Hn Ha.
  destruct Hwhy as [[Hn' _] | [_ [Ha' | (_ & He & _)]]].
  - congruence.
  - rewrite (sql_bind_text_raise _ _ Ha') in Ha. discriminate.
  - exact He.
Qed.

Lemma save_round_result_unknown_session_witness :
  exists e,
    save_round_result "sess_unknown" 1 "Interviewer L1" "Resume Screening"
      (PyStr "Ten years of Python.") 0 0 false 60 None None None None None
      demo_world
    = (Raise e, tick (draw demo_world))
    /\ (in_int64 1 = true ->
        sql_bindable (PyStr "Ten years of Python.") = true ->
        e = IntegrityError).
Proof.
  apply (save_round_result_unknown_session "sess_unknown" 1 "Interviewer L1"
           "Resume Screening" (PyStr "Ten years of Python.") 0 0 false 60
           None None None None None demo_world).
  reflexivity.
Defined.

Lemma update_completed_unknown (db : database) (sid : string) (fs : R)
  (fd now : string) :
  has_session db sid = false -> update_completed db sid fs fd now = db.
Proof.
  intros Hs. unfold update_completed.
  rewrite (complete_row_other sid fs fd now _ Hs). destruct db; reflexivity.
Qed.

(** Completing a session id that names no stored session is not an
    error: [complete_session] returns, the UPDATE matches no row, and no
    table changes. *)
Theorem complete_session_unknown_session (sid : string) (fs : R)
  (fd : string) (w : world) :
  has_session (w_db w) sid = false ->
  exists w',
    complete_session sid fs fd w = (Ok tt, w') /\ w_db w' = w_db w.
Proof.
  intros Hs. eexists. split; [apply complete_session_run |].
  cbn [w_db set_db]. apply update_completed_unknown. exact Hs.
Qed.

Lemma complete_session_unknown_session_witness :
  exists w',
    complete_session "sess_unknown" 88 "HIRE" demo_world = (Ok tt, w')
    /\ w_db w' = w_db demo_world.
Proof.
  apply (complete_session_unknown_session "sess_unknown" 88 "HIRE" demo_world).
  reflexivity.
Defined.

(** Nothing guards a completed session: a second [complete_session]
    overwrites the score, the decision and the completion time of the
    first, and leaves the id, the candidate and the creation time. *)
Theorem complete_session_overwrites (sid : string) (fs1 fs2 : R)
  (fd1 fd2 : string) (w : world) (row : session_row) :
  find_session (w_db w) sid = Some row ->
  exists w1 w2 row2,
    complete_session sid fs1 fd1 w = (Ok tt, w1)
    /\ complete_session sid fs2 fd2 w1 = (Ok tt, w2)
    /\ find_session (w_db w2) sid = Some row2
    /\ status row2 = "COMPLETED"
    /\ final_score row2 = Some fs2
    /\ final_decision row2 = Some fd2
    /\ completed_at row2 = Some (now_str w1)
    /\ session_key row2 = session_key row.
Proof.
  intros Hfind.
  assert (Hid : String.eqb (session_id row) sid = true).
  { unfold find_session in Hfind. apply find_some in Hfind. tauto. }
  do 3 eexists.
  split; [apply complete_session_run |].
  split; [apply complete_session_run |].
  split.
  { unfold find_session in *. cbn [w_db set_db update_completed sessions].
    rewrite !find_complete_row, Hfind. reflexivity. }
  cbn [option_map]. unfold complete_row at 1 3 5 7 9.
  rewrite session_id_complete_row, Hid.
  cbn [status final_score final_decision completed_at].
  repeat split. unfold session_key. cbn [session_id sess_candidate_id created_at].
  unfold complete_row. rewrite Hid. reflexivity.
Qed.

Lemma complete_session_overwrites_witness :
  exists w1 w2 row2,
    complete_session "sess_1c0ffee5eed1" 88 "HIRE"
      (run_calls demo_calls demo_world) = (Ok tt, w1)
    /\ complete_session "sess_1c0ffee5eed1" 12 "REJECT" w1 = (Ok tt, w2)
    /\ find_session (w_db w2) "sess_1c0ffee5eed1" = Some row2
    /\ status row2 = "COMPLETED"
    /\ final_score row2 = Some 12
    /\ final_decision row2 = Some "REJECT"
    /\ completed_at row2 = Some (now_str w1)
    /\ session_key row2 =
       ("sess_1c0ffee5eed1", "cand_0c0ffee5eed1", "2024-05-17T10:00:01Z")%string.
Proof.
  apply (complete_session_overwrites "sess_1c0ffee5eed1" 88 12 "HIRE" "REJECT"
           (run_calls demo_calls demo_world)
           (mk_session "sess_1c0ffee5eed1" "cand_0c0ffee5eed1" "COMPLETED"
              (Some 0) (Some "REJECT") "2024-05-17T10:00:01Z"
              (Some "2024-05-17T10:00:03Z"))).
  reflexivity.
Defined.

Lemma find_update_candidate (cid : string) (fn em ph ro : sqlval)
  (l : list candidate_row) :
  find (fun c => String.eqb (candidate_id c) cid)
       (map (update_candidate cid fn em ph ro) l) =
  option_map (update_candidate cid fn em ph ro)
             (find (fun c => String.eqb (candidate_id c) cid) l).
Proof.
  induction l as [| c l IH]; cbn [map find option_map]; [reflexivity |].
  rewrite candidate_id_update.
  destruct (String.eqb (candidate_id c) cid); [reflexivity | exact IH].
Qed.

Lemma has_candidate_find (db : database) (cid : string) :
  has_candidate db cid = true ->
  exists old, find_candidate db cid = Some old /\ candidate_id old = cid.
Proof.
  unfold has_candidate, find_candidate. intros H.
  destruct (find _ (candidates db)) as [old |] eqn:E.
  - exists old. split; [reflexivity |].
    apply find_some in E. apply String.eqb_eq. tauto.
  - apply existsb_exists in H. destruct H as (c & Hc & Hid).
    pose proof (find_none _ _ E c Hc) as Hn. cbv beta in Hn. congruence.
Qed.

Lemma find_candidate_has (db : database) (cid : string) (old : candidate_row) :
  find_candidate db cid = Some old ->
  has_candidate db cid = true /\ candidate_id old = cid.
Proof.
  unfold has_candidate, find_candidate. intros H.
  apply find_some in H. destruct H as [Hin Hid]. split.
  - apply existsb_exists. exists old. tauto.
  - apply String.eqb_eq. exact Hid.
Qed.

Lemma find_candidate_updated (db : database) (cid : string)
  (fn em ph ro : sqlval) (old : candidate_row) :
  find_candidate db cid = Some old ->
  find_candidate (update_candidates db cid fn em ph ro) cid
  = Some (mk_candidate cid fn em ph ro (cand_created_at old)).
Proof.
  intros H. destruct (find_candidate_has _ _ _ H) as [_ Hid].
  unfold find_candidate in *. cbn [candidates update_candidates].
  rewrite find_update_candidate, H. cbn [option_map].
  unfold update_candidate. rewrite Hid, String.eqb_refl. reflexivity.
Qed.

(** [upsert_candidate] stores what it was given under the id it returns:
    the id is the one passed in, or a new one when none or an empty one
    was passed, the four fields bound, and afterwards the row under that
    id holds them as a TEXT column stores them (text and NULL as given, a
    number as its text); sessions and round results are untouched. *)
Theorem upsert_candidate_stores_fields (vfn vem vph vro : pyval)
  (cid : option string) (w : world) (c : string) (w' : world) :
  upsert_candidate vfn vem vph vro cid w = (Ok c, w') ->
  c = fst (chosen_id cid w)
  /\ (exists fn em ph ro created,
         sql_bind_text vfn = Ok fn /\ sql_bind_text vem = Ok em
         /\ sql_bind_text vph = Ok ph /\ sql_bind_text vro = Ok ro
         /\ find_candidate (w_db w') c
            = Some (mk_candidate c fn em ph ro created))
  /\ sessions (w_db w') = sessions (w_db w)
  /\ round_results (w_db w') = round_results (w_db w).
Proof.
  intros Hrun.
  pose proof (upsert_candidate_outcome vfn vem vph vro cid w) as H.
  cbv zeta in H.
  destruct H as [(e & w1 & E & _)
                | [(fn & em & ph & ro & Hc & Hfn & Hem & Hph & Hro & E)
                  | (fn & em & ph & ro & Hc & Hfn & Hem & Hph & Hro & E)]];
    rewrite E in Hrun; [discriminate | |];
    injection Hrun as <- <-; (split; [reflexivity |]);
    (split; [| split; reflexivity]).
  - destruct (has_candidate_find _ _ Hc) as (old & Hold & _).
    exists fn, em, ph, ro, (cand_created_at old).
    repeat (split; [assumption |]).
    cbn [w_db set_db]. apply find_candidate_updated. exact Hold.
  - exists fn, em, ph, ro. eexists.
    repeat (split; [assumption |]).
    cbn [w_db set_db]. unfold find_candidate. cbn [candidates insert_candidate].
    apply find_app_fresh; [exact Hc | cbn [candidate_id]; apply String.eqb_refl].
Qed.

Lemma upsert_candidate_stores_fields_witness :
  "cand_0c0ffee5eed1"%string = fst (chosen_id None demo_world)
  /\ (exists fn em ph ro created,
         sql_bind_text (PyInt 77) = Ok fn
         /\ sql_bind_text (PyStr "ada@example.org") = Ok em
         /\ sql_bind_text (PyBool true) = Ok ph
         /\ sql_bind_text PyNone = Ok ro
         /\ find_candidate
              (w_db (snd (upsert_candidate (PyInt 77) (PyStr "ada@example.org")
                            (PyBool true) PyNone None demo_world)))
              "cand_0c0ffee5eed1"
            = Some (mk_candidate "cand_0c0ffee5eed1" fn em ph ro created))
  /\ sessions
       (w_db (snd (upsert_candidate (PyInt 77) (PyStr "ada@example.org")
                     (PyBool true) PyNone None demo_world)))
     = sessions (w_db demo_world)
  /\ round_results
       (w_db (snd (upsert_candidate (PyInt 77) (PyStr "ada@example.org")
                     (PyBool true) PyNone None demo_world)))
     = round_results (w_db demo_world).
Proof.
  apply (upsert_candidate_stores_fields (PyInt 77) (PyStr "ada@example.org")
           (PyBool true) PyNone None demo_world "cand_0c0ffee5eed1"
           (snd (upsert_candidate (PyInt 77) (PyStr "ada@example.org")
                   (PyBool true) PyNone None demo_world))).
  reflexivity.
Defined.

(** The integer 77 given as a name is stored as the text "77", [True] as
    the text "1", and [None] as NULL. *)
Lemma upsert_candidate_number_as_text :
  find_candidate
    (w_db (snd (upsert_candidate (PyInt 77) (PyStr "ada@example.org")
                  (PyBool true) PyNone None demo_world)))
    "cand_0c0ffee5eed1"
  = Some (mk_candidate "cand_0c0ffee5eed1" (SqlText "77")
            (SqlText "ada@example.org") (SqlText "1") SqlNull
            "2024-05-17T10:00:00Z").
Proof. reflexivity. Qed.

(** Upserting under the id of a stored candidate changes that row in
    place: the four fields are replaced by the given ones as a TEXT column
    stores them (a number as its text), the creation time and the position
    of the row stay, no other row changes its key, and neither a new id is
    drawn nor the clock read. *)
Theorem upsert_candidate_in_place (vfn vem vph vro : pyval)
  (fn em ph ro : sqlval) (c : string) (w : world) (old : candidate_row) :
  is_empty c = false ->
  find_candidate (w_db w) c = Some old ->
  sql_bind_text vfn = Ok fn -> sql_bind_text vem = Ok em ->
  sql_bind_text vph = Ok ph -> sql_bind_text vro = Ok ro ->
  exists w',
    upsert_candidate vfn vem vph vro (Some c) w = (Ok c, w')
    /\ w_draws w' = w_draws w /\ w_ticks w' = w_ticks w
    /\ map candidate_key (candidates (w_db w'))
       = map candidate_key (candidates (w_db w))
    /\ find_candidate (w_db w') c
       = Some (mk_candidate c fn em ph ro (cand_created_at old)).
Proof.
  intros Hne Hold Hfn Hem Hph Hro.
  destruct (find_candidate_has _ _ _ Hold) as [Hc _].
  pose proof (upsert_candidate_outcome vfn vem vph vro (Some c) w) as H.
  unfold chosen_id in H. rewrite Hne in H. cbv zeta in H. cbn [fst snd] in H.
  destruct H as [(e & w1 & E & _)
                | [(fn' & em' & ph' & ro' & _ & Hfn' & Hem' & Hph' & Hro' & E)
                  | (fn' & em' & ph' & ro' & Hc' & _)]].
  - exfalso. revert E.
    unfold upsert_candidate, mbind, transaction, get_db, lift, put_db, mret.
    rewrite init_db_run, Hne. cbn [w_db]. rewrite Hc, Hfn, Hem, Hph, Hro.
    discriminate.
  - rewrite Hfn in Hfn'. rewrite Hem in Hem'. rewrite Hph in Hph'.
    rewrite Hro in Hro'.
    injection Hfn' as <-. injection Hem' as <-.
    injection Hph' as <-. injection Hro' as <-.
    eexists. split; [exact E |].
    cbn [w_db set_db w_draws w_ticks candidates update_candidates].
    split; [reflexivity |]. split; [reflexivity |]. split.
    + rewrite map_map. apply map_ext. intros x. apply candidate_key_update.
    + apply find_candidate_updated. exact Hold.
  - congruence.
Qed.

Lemma upsert_candidate_in_place_witness :
  exists w',
    upsert_candidate (PyStr "Ada King") (PyStr "ada@example.org") PyNone
      (PyInt 7) (Some "cand_0c0ffee5eed1"%string)
      (run_calls demo_calls demo_world)
    = (Ok "cand_0c0ffee5eed1"%string, w')
    /\ w_draws w' = w_draws (run_calls demo_calls demo_world)
    /\ w_ticks w' = w_ticks (run_calls demo_calls demo_world)
    /\ map candidate_key (candidates (w_db w'))
       = map candidate_key (candidates (w_db (run_calls demo_calls demo_world)))
    /\ find_candidate (w_db w') "cand_0c0ffee5eed1"
       = Some (mk_candidate "cand_0c0ffee5eed1" (SqlText "Ada King")
                 (SqlText "ada@example.org") SqlNull (SqlText "7")
                 "2024-05-17T10:00:00Z").
Proof.
  apply (upsert_candidate_in_place (PyStr "Ada King") (PyStr "ada@example.org")
           PyNone (PyInt 7) (SqlText "Ada King")
           (SqlText "ada@example.org") SqlNull (SqlText "7")
           "cand_0c0ffee5eed1" (run_calls demo_calls demo_world)
           (mk_candidate "cand_0c0ffee5eed1" (SqlText "Ada Lovelace")
              (SqlText "ada@example.org") (SqlText "") (SqlText "Backend Engineer")
              "2024-05-17T10:00:00Z"));
    reflexivity.
Defined.

End StoreWrites.

(** ** The pipelines change the store by its transactions only *)

Section PipelineIntegrity.

Variable py_str : pyval -> string.

Lemma walks_mret {A : Type} (a : A) : walks (mret a).
Proof. intros w. apply steps_refl. Qed.

Lemma walks_lift {A : Type} (r : result A) : walks (lift r).
Proof. intros w. apply steps_refl. Qed.

Lemma walks_mbind {A B : Type} (m : M A) (k : A -> M B) :
  walks m -> (forall a, walks (k a)) -> walks (mbind m k).
Proof.
  intros Hm Hk w. unfold mbind. specialize (Hm w).
  destruct (m w) as [[a | e] w1]; cbn [snd] in *.
  - exact (db_steps_trans _ _ _ Hm (Hk a w1)).
  - exact Hm.
Qed.

Lemma walks_upsert_candidate fn em ph ro cid :
  walks (upsert_candidate fn em ph ro cid).
Proof.
  intros w.
  exact (db_steps_one _ _
           (run_call_db_step (CallUpsertCandidate fn em ph ro cid) w)).
Qed.

Lemma walks_create_session cid : walks (create_session cid).
Proof.
  intros w. exact (db_steps_one _ _ (run_call_db_step (CallCreateSession cid) w)).
Qed.

Lemma walks_save_round_result sid n own q a raw sc p th qid vio met fea ent :
  walks (save_round_result sid n own q a raw sc p th qid vio met fea ent).
Proof.
  intros w.
  exact (db_steps_one _ _
           (run_call_db_step
              (CallSaveRoundResult sid n own q a raw sc p th qid vio met fea ent)
              w)).
Qed.

Lemma walks_complete_session sid fs fd : walks (complete_session sid fs fd).
Proof.
  intros w.
  exact (db_steps_one _ _
           (run_call_db_step (CallCompleteSession sid fs fd) w)).
Qed.

Ltac walks_step :=
  first [ apply walks_mret
        | apply walks_lift
        | apply walks_upsert_candidate
        | apply walks_create_session
        | apply walks_save_round_result
        | apply walks_complete_session
        | apply walks_mbind; [| intros ?]
        | match goal with
          | |- walks (if ?b then _ else _) => destruct b
          end ].

Lemma evaluate_candidate_walks (payload : list (string * pyval)) :
  walks (evaluate_candidate py_str payload).
Proof. unfold evaluate_candidate. repeat walks_step. Qed.

Lemma screen_resume_walks (resume_text role : string) :
  walks (screen_resume resume_text role).
Proof. unfold screen_resume. repeat walks_step. Qed.

(** Whatever the payload, and whether the run returns or raises half
    way, [evaluate_candidate] leaves the store sound and complete: primary
    keys unique, foreign keys satisfied, no session row half completed,
    and every row that was there still in place. *)
Theorem evaluate_candidate_keeps_integrity (payload : list (string * pyval))
  (w : world) :
  store_ok (w_db w) ->
  store_ok (w_db (snd (evaluate_candidate py_str payload w)))
  /\ extends (w_db w) (w_db (snd (evaluate_candidate py_str payload w))).
Proof.
  intros H. pose proof (evaluate_candidate_walks payload w) as Hsteps.
  split; [exact (db_steps_store_ok _ _ Hsteps H) |].
  clear H. induction Hsteps as [| db1 db2 _ IH Hstep]; [apply extends_refl |].
  exact (extends_trans _ _ _ IH (db_step_extends _ _ Hstep)).
Qed.

(** Whatever the text and the role, and whether it returns or raises
    half way, the upload endpoint [screen_resume] leaves the store sound
    and complete: primary keys unique, foreign keys satisfied, no session
    row half completed, and every row that was there still in place. *)
Theorem screen_resume_keeps_integrity (resume_text role : string) (w : world) :
  store_ok (w_db w) ->
  store_ok (w_db (snd (screen_resume resume_text role w)))
  /\ extends (w_db w) (w_db (snd (screen_resume resume_text role w))).
Proof.
  intros H. pose proof (screen_resume_walks resume_text role w) as Hsteps.
  split; [exact (db_steps_store_ok _ _ Hsteps H) |].
  clear H. induction Hsteps as [| db1 db2 _ IH Hstep]; [apply extends_refl |].
  exact (extends_trans _ _ _ IH (db_step_extends _ _ Hstep)).
Qed.

End PipelineIntegrity.

Lemma store_ok_empty : store_ok (w_db demo_world).
Proof. repeat split; constructor. Qed.

Lemma evaluate_candidate_keeps_integrity_witness :
  store_ok (w_db (snd (evaluate_candidate (fun _ => "{}"%string) full_payload
                         demo_world)))
  /\ extends (w_db demo_world)
       (w_db (snd (evaluate_candidate (fun _ => "{}"%string) full_payload
                     demo_world))).
Proof.
  apply (evaluate_candidate_keeps_integrity (fun _ => "{}"%string)
           full_payload demo_world).
  exact store_ok_empty.
Defined.

Lemma screen_resume_keeps_integrity_witness :
  store_ok (w_db (snd (screen_resume ex1_text "Backend Engineer" demo_world)))
  /\ extends (w_db demo_world)
       (w_db (snd (screen_resume ex1_text "Backend Engineer" demo_world))).
Proof.
  apply (screen_resume_keeps_integrity ex1_text "Backend Engineer" demo_world).
  exact store_ok_empty.
Defined.

(** ** The store's readers *)

Section ReaderProperties.

Lemma insert_by_perm {A : Type} (leb : A -> A -> bool) (x : A) (l : list A) :
  Permutation (x :: l) (insert_by leb x l).
Proof.
  induction l as [| y l IH]; cbn [insert_by]; [apply Permutation_refl |].
  destruct (leb x y); [apply Permutation_refl |].
  apply (perm_trans (perm_swap y x l)). apply perm_skip. exact IH.
Qed.

Lemma sort_by_perm {A : Type} (leb : A -> A -> bool) (l : list A) :
  Permutation l (sort_by leb l).
Proof.
  unfold sort_by. induction l as [| x l IH]; cbn [fold_right];
    [apply Permutation_refl |].
  apply (perm_trans (perm_skip x IH)). apply insert_by_perm.
Qed.

Section Sorting.

Context {A : Type} (leb : A -> A -> bool) (le : A -> A -> Prop).
Hypothesis leb_le : forall a b, leb a b = true -> le a b.
Hypothesis leb_total : forall a b, leb a b = false -> le b a.

Lemma insert_by_sorted (x : A) (l : list A) :
  Sorted le l -> Sorted le (insert_by leb x l).
Proof.
  induction l as [| y l IH]; cbn [insert_by]; intros Hl.
  - constructor; constructor.
  - destruct (leb x y) eqn:E.
    + constructor; [exact Hl |]. constructor. apply leb_le. exact E.
    + inversion Hl as [| y' l' Hl' Hhd]; subst.
      constructor; [apply IH; exact Hl' |].
      destruct l as [| z l]; cbn [insert_by].
      * constructor. apply leb_total. exact E.
      * destruct (leb x z).
        -- constructor. apply leb_total. exact E.
        -- inversion Hhd; subst. constructor. assumption.
Qed.

Lemma sort_by_sorted (l : list A) : Sorted le (sort_by leb l).
Proof.
  unfold sort_by. induction l as [| x l IH]; cbn [fold_right];
    [constructor |].
  apply insert_by_sorted. exact IH.
Qed.

End Sorting.

Lemma Sorted_map {A B : Type} (f : A -> B) (le : B -> B -> Prop) (l : list A) :
  Sorted (fun a b => le (f a) (f b)) l -> Sorted le (map f l).
Proof.
  induction 1 as [| x l Hl IH Hhd]; cbn [map]; constructor; [exact IH |].
  destruct Hhd; cbn [map]; constructor. assumption.
Qed.

Lemma Sorted_firstn {A : Type} (le : A -> A -> Prop) (n : nat) (l : list A) :
  Sorted le l -> Sorted le (firstn n l).
Proof.
  revert l. induction n as [| n IH]; intros l Hl; cbn [firstn];
    [constructor |].
  destruct l as [| x l]; [constructor |].
  inversion Hl as [| x' l' Hl' Hhd]; subst.
  constructor; [apply IH; exact Hl' |].
  destruct l as [| y l]; destruct n; cbn [firstn]; constructor.
  inversion Hhd; subst. assumption.
Qed.

Lemma round_key_leb_le (a b : round_row) :
  round_key_leb a b = true -> out_key_le (decode_round a) (decode_round b).
Proof.
  unfold round_key_leb, out_key_le. cbn [decode_round out_round_no out_created_at].
  intros H. apply orb_true_iff in H. destruct H as [H | H].
  - left. apply Z.ltb_lt. exact H.
  - apply andb_true_iff in H. destruct H as [H1 H2].
    right. split; [apply Z.eqb_eq; exact H1 | exact H2].
Qed.

Lemma round_key_leb_total (a b : round_row) :
  round_key_leb a b = false -> out_key_le (decode_round b) (decode_round a).
Proof.
  unfold round_key_leb, out_key_le. cbn [decode_round out_round_no out_created_at].
  intros H. apply orb_false_iff in H. destruct H as [H1 H2].
  apply Z.ltb_ge in H1.
  destruct (Z.eqb_spec (round_no a) (round_no b)) as [E | E].
  - cbn [andb] in H2. right. split; [symmetry; exact E |].
    destruct (String.leb_total (res_created_at a) (res_created_at b));
      congruence.
  - left. lia.
Qed.

Lemma get_round_results_run (sid : string) (w : world) :
  get_round_results sid w =
  (Ok (map decode_round (sort_by round_key_leb (results_of (w_db w) sid))), w).
Proof. reflexivity. Qed.

(** [get_round_results] reads without writing, never raises, and returns
    the decoded round results of the session, each once and no other,
    ordered by round number and then by creation time. *)
Theorem get_round_results_sorted (sid : string) (w : world) :
  exists out,
    get_round_results sid w = (Ok out, w)
    /\ Permutation (map decode_round (results_of (w_db w) sid)) out
    /\ Sorted out_key_le out
    /\ Forall (fun o => out_session_id o = sid) out.
Proof.
  eexists. split; [apply get_round_results_run |]. split; [| split].
  - apply Permutation_map, sort_by_perm.
  - apply Sorted_map.
    apply (sort_by_sorted round_key_leb _ round_key_leb_le round_key_leb_total).
  - apply Forall_forall. intros o Ho.
    apply in_map_iff in Ho. destruct Ho as (r & <- & Hr).
    apply (Permutation_in _ (Permutation_sym (sort_by_perm round_key_leb _)))
      in Hr.
    unfold results_of in Hr. apply filter_In in Hr.
    cbn [decode_round out_session_id]. apply String.eqb_eq. tauto.
Qed.

(** What [save_round_result] stored is what [get_round_results] gives
    back: after a save that returned, reading the session yields one more
    result than before, and among them the one saved, with its id, the
    answer as the TEXT column stores it (a string as given, a number as
    its text), the flag [passed] as the boolean it was, an omitted
    violations list as the empty list and omitted metrics and features as
    empty dictionaries. *)
Theorem saved_result_is_read_back (sid : string) (n : Z) (own q : string)
  (a : pyval) (raw sc : R) (p : bool) (th : R) (qid : option string)
  (vio : option (list string)) (met fea : option (list (string * pyval)))
  (ent : option R) (w : world) (rid : string) (w' : world) :
  save_round_result sid n own q a raw sc p th qid vio met fea ent w
  = (Ok rid, w') ->
  exists ans out,
    sql_bind_text a = Ok ans
    /\ get_round_results sid w' = (Ok out, w')
    /\ In (mk_round_out rid sid n own qid q ans raw sc p th (or_empty vio)
             (or_empty met) (or_empty fea) ent (now_str w)) out
    /\ List.length out = S (List.length (results_of (w_db w) sid)).
Proof.
  intros Hrun.
  destruct (save_round_result_outcome sid n own q a raw sc p th qid vio met
              fea ent w)
    as [(ans & _ & Ha & _ & _ & E) | (e & E & _)];
    rewrite E in Hrun; [| discriminate].
  injection Hrun as <- <-.
  exists ans. eexists. split; [exact Ha |].
  split; [apply get_round_results_run |].
  cbn [w_db set_db]. rewrite results_of_insert_result.
  cbn [res_session_id]. rewrite String.eqb_refl. split.
  - apply in_map_iff. eexists. split.
    2: { apply (Permutation_in _ (sort_by_perm round_key_leb _)).
         apply in_or_app. right. left. reflexivity. }
    unfold decode_round. cbn. destruct p; reflexivity.
  - rewrite length_map.
    rewrite <- (Permutation_length (sort_by_perm round_key_leb _)).
    rewrite length_app. cbn [List.length]. lia.
Qed.

Lemma saved_result_is_read_back_witness :
  exists ans out,
    sql_bind_text (PyInt 12345) = Ok ans
    /\ get_round_results "sess_1c0ffee5eed1"
         (snd (save_round_result "sess_1c0ffee5eed1" 1 "Interviewer L1"
                 "Resume Screening" (PyInt 12345) 0%R 0%R false 60%R
                 None None None None None
                 (run_calls (firstn 2 demo_calls) demo_world)))
       = (Ok out,
          snd (save_round_result "sess_1c0ffee5eed1" 1 "Interviewer L1"
                 "Resume Screening" (PyInt 12345) 0%R 0%R false 60%R
                 None None None None None
                 (run_calls (firstn 2 demo_calls) demo_world)))
    /\ In (mk_round_out "res_2c0ffee5eed1" "sess_1c0ffee5eed1" 1
             "Interviewer L1" None "Resume Screening" ans 0%R 0%R false 60%R
             (or_empty None) (or_empty None) (or_empty None) None
             (now_str (run_calls (firstn 2 demo_calls) demo_world))) out
    /\ List.length out
       = S (List.length
              (results_of (w_db (run_calls (firstn 2 demo_calls) demo_world))
                 "sess_1c0ffee5eed1")).
Proof.
  apply (saved_result_is_read_back "sess_1c0ffee5eed1" 1 "Interviewer L1"
           "Resume Screening" (PyInt 12345) 0%R 0%R false
           60%R None None None None None
           (run_calls (firstn 2 demo_calls) demo_world)
           "res_2c0ffee5eed1").
  reflexivity.
Defined.

(** The integer 12345 saved as an answer is read back as the text
    "12345". *)
Lemma saved_number_is_read_back_as_text :
  fst (get_round_results "sess_1c0ffee5eed1"
         (snd (save_round_result "sess_1c0ffee5eed1" 1 "Interviewer L1"
                 "Resume Screening" (PyInt 12345) 0%R 0%R false 60%R
                 None None None None None
                 (run_calls (firstn 2 demo_calls) demo_world))))
  = Ok [ mk_round_out "res_2c0ffee5eed1" "sess_1c0ffee5eed1" 1
           "Interviewer L1" None "Resume Screening" (SqlText "12345")
           0%R 0%R false 60%R [] [] [] None "2024-05-17T10:00:02Z" ].
Proof. reflexivity. Qed.

Lemma created_desc_leb_le (a b : session_row) :
  created_desc_leb a b = true -> created_desc a b.
Proof. intros H. exact H. Qed.

Lemma created_desc_leb_total (a b : session_row) :
  created_desc_leb a b = false -> created_desc b a.
Proof.
  unfold created_desc_leb, created_desc. intros H.
  destruct (String.leb_total (created_at a) (created_at b)); congruence.
Qed.

Lemma list_sessions_run (cid : option string) (limit : Z) (w : world) :
  in_int64 limit = true ->
  list_sessions cid limit w =
  (Ok (sql_limit limit (sort_by created_desc_leb (sessions_of (w_db w) cid))),
   w).
Proof.
  intros H. unfold list_sessions, mbind, transaction, get_db, lift, mret.
  rewrite init_db_run, H. destruct w; reflexivity.
Qed.

(** [list_sessions] reads without writing and returns sessions of the
    store, latest first: those of the candidate when a non-empty id is
    given and all of them otherwise; at most [limit] of them when the
    limit is not negative, and all of them when it is negative or not
    smaller than their number. *)
Theorem list_sessions_selects (cid : option string) (limit : Z) (w : world) :
  in_int64 limit = true ->
  exists rows,
    list_sessions cid limit w = (Ok rows, w)
    /\ Sorted created_desc rows
    /\ incl rows (sessions_of (w_db w) cid)
    /\ (forall c, cid = Some c -> is_empty c = false ->
                  Forall (fun r => sess_candidate_id r = c) rows)
    /\ ((0 <= limit)%Z -> (Z.of_nat (List.length rows) <= limit)%Z)
    /\ ((limit < 0)%Z
        \/ (Z.of_nat (List.length (sessions_of (w_db w) cid)) <= limit)%Z ->
        Permutation (sessions_of (w_db w) cid) rows).
Proof.
  intros Hlim. eexists. split; [apply list_sessions_run; exact Hlim |].
  set (all := sessions_of (w_db w) cid).
  pose proof (sort_by_perm created_desc_leb all) as Hperm.
  pose proof (sort_by_sorted created_desc_leb created_desc created_desc_leb_le
                created_desc_leb_total all) as Hsorted.
  set (sorted := sort_by created_desc_leb all) in *.
  assert (Hincl : incl (sql_limit limit sorted) all).
  { intros r Hr. apply (Permutation_in _ (Permutation_sym Hperm)).
    unfold sql_limit in Hr. destruct (limit <? 0)%Z; [exact Hr |].
    rewrite <- (firstn_skipn (Z.to_nat limit) sorted).
    apply in_or_app. left. exact Hr. }
  split; [| split; [exact Hincl | split; [| split]]].
  - unfold sql_limit. destruct (limit <? 0)%Z; [exact Hsorted |].
    apply Sorted_firstn. exact Hsorted.
  - intros c -> Hne. apply Forall_forall. intros r Hr.
    apply Hincl in Hr. unfold all, sessions_of in Hr. rewrite Hne in Hr.
    apply filter_In in Hr. apply String.eqb_eq. tauto.
  - intros Hpos. unfold sql_limit.
    destruct (Z.ltb_spec limit 0) as [Hneg | _]; [lia |].
    pose proof (firstn_le_length (Z.to_nat limit) sorted). 
    rewrite length_firstn. lia.
  - intros Hall. unfold sql_limit.
    destruct (Z.ltb_spec limit 0) as [_ | Hpos]; [exact Hperm |].
    destruct Hall as [Hneg | Hbig]; [lia |].
    rewrite firstn_all2; [exact Hperm |].
    rewrite <- (Permutation_length Hperm). lia.
Qed.

Lemma list_sessions_selects_witness :
  exists rows,
    list_sessions (Some "cand_0c0ffee5eed1"%string) 50
      (run_calls demo_calls demo_world)
    = (Ok rows, run_calls demo_calls demo_world)
    /\ Sorted created_desc rows
    /\ incl rows
         (sessions_of (w_db (run_calls demo_calls demo_world))
            (Some "cand_0c0ffee5eed1"%string))
    /\ (forall c, Some "cand_0c0ffee5eed1"%string = Some c ->
                  is_empty c = false ->
                  Forall (fun r => sess_candidate_id r = c) rows)
    /\ ((0 <= 50)%Z -> (Z.of_nat (List.length rows) <= 50)%Z)
    /\ ((50 < 0)%Z
        \/ (Z.of_nat
              (List.length
                 (sessions_of (w_db (run_calls demo_calls demo_world))
                    (Some "cand_0c0ffee5eed1"%string))) <= 50)%Z ->
        Permutation
          (sessions_of (w_db (run_calls demo_calls demo_world))
             (Some "cand_0c0ffee5eed1"%string)) rows).
Proof.
  apply (list_sessions_selects (Some "cand_0c0ffee5eed1"%string) 50
           (run_calls demo_calls demo_world)).
  reflexivity.
Defined.

(** A limit that does not fit a 64-bit integer is refused when the
    statement is bound: [list_sessions] raises OverflowError and changes
    nothing. *)
Theorem list_sessions_limit_overflow (cid : option string) (limit : Z)
  (w : world) :
  in_int64 limit = false ->
  list_sessions cid limit w = (Raise OverflowError, w).
Proof.
  intros H. unfold list_sessions, mbind, transaction, get_db, lift, mret.
  rewrite init_db_run, H. destruct w; reflexivity.
Qed.

Lemma list_sessions_limit_overflow_witness :
  list_sessions None (2 ^ 63) demo_world = (Raise OverflowError, demo_world).
Proof.
  apply (list_sessions_limit_overflow None (2 ^ 63) demo_world). reflexivity.
Defined.

End ReaderProperties.

(** ** The orchestrator: the other ways a run ends; the upload endpoint *)

Section PipelineOutcomes.

Variable py_str : pyval -> string.

Local Open Scope R_scope.

Lemma save_round_result_unbound (sid : string) (n : Z) (own q : string)
  (a : pyval) (e : pyerr) (raw sc : R) (p : bool) (th : R)
  (qid : option string) (vio : option (list string))
  (met fea : option (list (string * pyval))) (ent : option R) (w : world) :
  in_int64 n = true -> sql_bind_text a = Raise e ->
  save_round_result sid n own q a raw sc p th qid vio met fea ent w
  = (Raise e, tick (draw w)).
Proof.
  intros Hn Ha.
  unfold save_round_result, mbind, transaction, new_id, get_db, utc_now,
    put_db, mret, mraise, lift.
  rewrite init_db_run. cbn [w_db draw tick]. rewrite Hn, Ha. reflexivity.
Qed.

Lemma find_session_inserted (db : database) (row : session_row) :
  has_session db (session_id row) = false ->
  find_session (insert_session db row) (session_id row) = Some row.
Proof.
  intros Hs. unfold find_session. cbn [sessions insert_session].
  apply find_app_fresh; [exact Hs | apply String.eqb_refl].
Qed.


(** A resume that SQLite cannot bind (a list, a dictionary, an integer
    beyond 64 bits) makes the run raise in the middle: Level 1 has
    answered "Invalid input", the candidate and the session are already
    committed, the Level 1 result is refused, and the session stays
    IN_PROGRESS without a decision and without any round result. *)
Theorem unbindable_resume_leaves_session_open (payload : list (string * pyval))
  (w : world)
  (Hfn : sql_bindable (dict_get_default payload "full_name" (PyStr "Unknown"))
         = true)
  (Hem : sql_bindable (dict_get_default payload "email" (PyStr "")) = true)
  (Hph : sql_bindable (dict_get_default payload "phone" (PyStr "")) = true)
  (Hro : sql_bindable
           (dict_get_default payload "role" (PyStr "Backend Engineer")) = true)
  (Hres : sql_bindable (resume_of payload) = false)
  (Hfk : fk_consistent (w_db w) = true)
  (Hs : has_session (w_db w) (nth_id "sess" w 1) = false) :
  exists (e : pyerr) (w' : world) (row : session_row),
    level1_screen (resume_of payload)
    = Ok {| pass := false; score := 0.0; reason := "Invalid input" |}
    /\ evaluate_candidate py_str payload w = (Raise e, w')
    /\ has_candidate (w_db w') (next_id "cand" w) = true
    /\ find_session (w_db w') (nth_id "sess" w 1) = Some row
    /\ sess_candidate_id row = next_id "cand" w
    /\ status row = "IN_PROGRESS"
    /\ final_score row = None /\ final_decision row = None
    /\ completed_at row = None
    /\ results_of (w_db w') (nth_id "sess" w 1) = [].
Proof.
  destruct (sql_bindable_inv _ Hfn) as [fn Efn].
  destruct (sql_bindable_inv _ Hem) as [em Eem].
  destruct (sql_bindable_inv _ Hph) as [ph Eph].
  destruct (sql_bindable_inv _ Hro) as [ro Ero].
  destruct (sql_unbindable_inv _ Hres) as [e Eres].
  assert (Hl1 : level1_screen (resume_of payload)
                = Ok {| pass := false; score := 0.0; reason := "Invalid input" |}).
  { destruct (resume_of payload); try reflexivity. discriminate Eres. }
  set (w1 := upsert_world fn em ph ro w).
  assert (Hs1 : sessions (w_db w1) = sessions (w_db w))
    by apply upsert_world_sessions.
  assert (Hr1 : round_results (w_db w1) = round_results (w_db w))
    by apply upsert_world_results.
  assert (Hh1 : w_uuid4_hex w1 = w_uuid4_hex w) by apply upsert_world_hex.
  assert (Hd1 : w_draws w1 = S (w_draws w)) by apply upsert_world_draws.
  assert (Hsid : next_id "sess" w1 = nth_id "sess" w 1).
  { apply nth_id_next; [exact Hh1 | rewrite Hd1; lia]. }
  assert (Hs1' : has_session (w_db w1) (nth_id "sess" w 1) = false).
  { unfold has_session. rewrite Hs1. exact Hs. }
  exists e. do 2 eexists.
  split; [exact Hl1 |].
  split.
  { rewrite evaluate_candidate_by_stage.
    unfold mbind at 1.
    rewrite (upsert_candidate_run _ _ _ _ fn em ph ro w Efn Eem Eph Ero).
    fold w1. unfold mbind at 1.
    rewrite (create_session_run (next_id "cand" w) w1);
      [| rewrite Hsid; exact Hs1' | apply upsert_world_has_candidate].
    rewrite Hsid.
    unfold mbind at 1. unfold lift at 1. rewrite Hl1.
    unfold mbind at 1.
    rewrite (save_round_result_unbound _ 1 _ _ (resume_of payload) e);
      [reflexivity | reflexivity | exact Eres]. }
  cbn [w_db set_db tick draw].
  split.
  { change (has_candidate (insert_session (w_db w1) _) (next_id "cand" w))
      with (has_candidate (w_db w1) (next_id "cand" w)).
    apply upsert_world_has_candidate. }
  split.
  { apply (find_session_inserted (w_db w1)
             (mk_session (nth_id "sess" w 1) (next_id "cand" w) "IN_PROGRESS"
                None None (now_str w1) None)).
    exact Hs1'. }
  cbn [sess_candidate_id status final_score final_decision completed_at].
  do 5 (split; [reflexivity |]).
  unfold results_of. cbn [round_results insert_session]. rewrite Hr1.
  exact (fresh_session_no_results _ _ Hfk Hs).
Qed.

(** The upload endpoint always completes its session: for any text and
    any role it returns the Level 1 outcome, the session is COMPLETED
    with decision PASS when Level 1 passed and REJECT otherwise and with
    the Level 1 score, and the session has one round result, owned by
    "Screening Engine", with the text as answer, the role in the question
    and the Level 1 output as its features. *)
Theorem screen_resume_decides (resume_text role : string) (w : world)
  (Hfk : fk_consistent (w_db w) = true)
  (Hs : has_session (w_db w) (nth_id "sess" w 1) = false)
  (Hr : has_result (w_db w) (nth_id "res" w 2) = false) :
  exists (l1 : score_result) (w' : world) (row : session_row) (r : round_row),
    level1_screen (PyStr resume_text) = Ok l1
    /\ screen_resume resume_text role w
       = (Ok [ ("role", PyStr role);
               ("screening_pass", PyBool (pass l1));
               ("score", PyFloat (score l1));
               ("reason", PyStr (reason l1));
               ("session_id", PyStr (nth_id "sess" w 1)) ], w')
    /\ find_session (w_db w') (nth_id "sess" w 1) = Some row
    /\ status row = "COMPLETED"
    /\ final_decision row = Some (if pass l1 then "PASS" else "REJECT")
    /\ final_score row = Some (score l1)
    /\ completed_at row <> None
    /\ results_of (w_db w') (nth_id "sess" w 1) = [r]
    /\ owner r = "Screening Engine"
    /\ round_no r = 1%Z
    /\ question r = ("Resume screening for role: " ++ role)%string
    /\ answer r = SqlText resume_text
    /\ res_score r = score l1
    /\ passed r = (if pass l1 then 1 else 0)%Z
    /\ threshold r = 60.0
    /\ features_json r = score_dict l1.
Proof.
  destruct (level1_total resume_text) as [l1 Hl1].
  set (w1 := upsert_world (SqlText "Unknown") (SqlText "") (SqlText "")
               (SqlText role) w).
  assert (Hs1 : sessions (w_db w1) = sessions (w_db w))
    by apply upsert_world_sessions.
  assert (Hr1 : round_results (w_db w1) = round_results (w_db w))
    by apply upsert_world_results.
  assert (Hh1 : w_uuid4_hex w1 = w_uuid4_hex w) by apply upsert_world_hex.
  assert (Hd1 : w_draws w1 = S (w_draws w)) by apply upsert_world_draws.
  assert (Hsid : next_id "sess" w1 = nth_id "sess" w 1).
  { apply nth_id_next; [exact Hh1 | rewrite Hd1; lia]. }
  assert (Hs1' : has_session (w_db w1) (nth_id "sess" w 1) = false).
  { unfold has_session. rewrite Hs1. exact Hs. }
  exists l1. do 3 eexists.
  split; [exact Hl1 |].
  split.
  { unfold screen_resume. unfold mbind at 1.
    rewrite (upsert_candidate_run (PyStr "Unknown") (PyStr "") (PyStr "")
               (PyStr role) (SqlText "Unknown") (SqlText "") (SqlText "")
               (SqlText role) w eq_refl eq_refl eq_refl eq_refl).
    fold w1. unfold mbind at 1.
    rewrite (create_session_run (next_id "cand" w) w1);
      [| rewrite Hsid; exact Hs1' | apply upsert_world_has_candidate].
    rewrite Hsid.
    unfold mbind at 1. unfold lift at 1. rewrite Hl1.
    unfold mbind at 1.
    match goal with
    | |- context [save_round_result _ _ _ _ _ _ _ _ _ _ _ _ _ _ ?W] =>
        set (w2 := W)
    end.
    assert (Hrid : next_id "res" w2 = nth_id "res" w 2).
    { apply nth_id_next; [exact Hh1 |].
      cbn [w_draws w2 set_db tick draw]. rewrite Hd1. lia. }
    rewrite (save_round_result_run (nth_id "sess" w 1) 1 _ _
               (PyStr resume_text) (SqlText resume_text));
      [| reflexivity | reflexivity
       | rewrite Hrid; unfold has_result;
         cbn [w_db w2 set_db round_results insert_session];
         rewrite Hr1; exact Hr
       | cbn [w_db w2 set_db]; rewrite has_session_insert_session;
         cbn [session_id]; rewrite String.eqb_refl; apply orb_true_r].
    rewrite Hrid. unfold mbind. rewrite complete_session_run. unfold mret.
    reflexivity. }
  cbn [w_db set_db tick draw insert_result insert_session candidates sessions
       round_results].
  split.
  { apply (find_completed (w_db w1)). exact Hs1'. }
  cbn [status final_decision final_score completed_at].
  do 3 (split; [reflexivity |]). split; [discriminate |].
  split.
  { unfold results_of, update_completed.
    cbn [round_results insert_result insert_session].
    rewrite filter_app, Hr1.
    fold (results_of (w_db w) (nth_id "sess" w 1)).
    rewrite (fresh_session_no_results _ _ Hfk Hs).
    cbn [filter res_session_id app]. rewrite String.eqb_refl. reflexivity. }
  cbn [owner round_no question answer res_score passed threshold features_json
       or_empty].
  repeat split; reflexivity.
Qed.

End PipelineOutcomes.

Section PipelineWorkedRuns.

Local Open Scope R_scope.


Lemma unbindable_resume_leaves_session_open_witness :
  exists e w' row,
    evaluate_candidate (fun _ => "{}"%string) list_resume_payload demo_world =
      (Raise e, w')
    /\ find_session (w_db w') "sess_1c0ffee5eed1" = Some row
    /\ status row = "IN_PROGRESS"%string
    /\ results_of (w_db w') "sess_1c0ffee5eed1" = [].
Proof.
  destruct (unbindable_resume_leaves_session_open (fun _ => "{}"%string)
              list_resume_payload demo_world)
    as (e & w' & row & _ & Hrun & _ & Hfind & _ & Hst & _ & _ & _ & Hres);
    try (vm_compute; reflexivity).
  exists e, w', row. split; [exact Hrun |].
  change "sess_1c0ffee5eed1"%string with (nth_id "sess" demo_world 1).
  split; [exact Hfind |]. split; [exact Hst | exact Hres].
Defined.

Lemma screen_resume_decides_witness :
  exists l1 w' row,
    screen_resume ex1_text "Backend Engineer" demo_world
    = (Ok [ ("role", PyStr "Backend Engineer");
            ("screening_pass", PyBool (pass l1));
            ("score", PyFloat (score l1));
            ("reason", PyStr (reason l1));
            ("session_id", PyStr "sess_1c0ffee5eed1") ], w')
    /\ find_session (w_db w') "sess_1c0ffee5eed1" = Some row
    /\ final_decision row = Some (if pass l1 then "PASS" else "REJECT")%string
    /\ List.length (results_of (w_db w') "sess_1c0ffee5eed1") = 1%nat.
Proof.
  destruct (screen_resume_decides ex1_text "Backend Engineer" demo_world)
    as (l1 & w' & row & r & _ & Hrun & Hfind & _ & Hdec & _ & _ & Hres & _);
    try (vm_compute; reflexivity).
  exists l1, w', row. split; [exact Hrun |].
  change "sess_1c0ffee5eed1"%string with (nth_id "sess" demo_world 1).
  split; [exact Hfind |]. split; [exact Hdec |].
  rewrite Hres. reflexivity.
Defined.

End PipelineWorkedRuns.

(** ** Runs that raise half way *)

Section PipelineRaises.

Variable py_str : pyval -> string.

Local Open Scope R_scope.

(** A scenario answer that SQLite cannot bind makes a run that passed
    Level 1 and Level 2 raise at the third write: Level 3 has answered
    "Invalid input", two round results are stored, and the session stays
    IN_PROGRESS. *)
Lemma unbindable_scenario_run (payload : list (string * pyval)) (w : world)
  (l1 : score_result) (l2 : prob_result)
  (Hl1 : level1_screen (resume_of payload) = Ok l1)
  (Hp1 : pass l1 = true)
  (Hl2 : level2_technical (technical_of payload) = Ok l2)
  (Hp2 : l2_pass l2 = true)
  (Hfk : fk_consistent (w_db w) = true)
  (Hacc : accepts_round1 payload w = true)
  (Hr3 : has_result (w_db w) (nth_id "res" w 3) = false)
  (H23 : String.eqb (nth_id "res" w 2) (nth_id "res" w 3) = false)
  (Hsc : sql_bindable (scenario_of payload) = false) :
  exists (e : pyerr) (w' : world) (row : session_row) (r1 r2 : round_row),
    level3_scenario (scenario_of payload)
    = Ok {| pass := false; score := 0.0; reason := "Invalid input" |}
    /\ evaluate_candidate py_str payload w = (Raise e, w')
    /\ find_session (w_db w') (nth_id "sess" w 1) = Some row
    /\ status row = "IN_PROGRESS"
    /\ final_score row = None /\ final_decision row = None
    /\ completed_at row = None
    /\ results_of (w_db w') (nth_id "sess" w 1) = [r1; r2]
    /\ (round_no r1 = 1 /\ round_no r2 = 2)%Z.
Proof.
  destruct (accepts_round1_fresh _ _ Hacc) as [Hs Hr2].
  destruct (sql_unbindable_inv _ Hsc) as [e Esc].
  assert (Hl3 : level3_scenario (scenario_of payload)
                = Ok {| pass := false; score := 0.0; reason := "Invalid input" |}).
  { destruct (scenario_of payload); try reflexivity. discriminate Esc. }
  destruct (evaluate_round1 payload w l1 Hl1 Hacc)
    as (w1 & ans & Hs1 & Hr1 & Hh1 & Hd1 & Hk).
  cbv zeta in Hk.
  rewrite evaluate_candidate_by_stage, Hk. cbv beta. rewrite Hp1.
  cbn [negb]. clear Hk.
  set (sid := nth_id "sess" w 1) in *.
  match goal with
  | |- context [run_level2 _ _ _ _ ?W] => set (w3 := W)
  end.
  assert (Hid3 : next_id "res" w3 = nth_id "res" w 3).
  { apply nth_id_next; [exact Hh1 |].
    cbn [w_draws w3 set_db tick draw]. rewrite Hd1. lia. }
  assert (Hsess3 : has_session (w_db w3) sid = true).
  { cbn [w_db w3 set_db]. unfold has_session.
    cbn [sessions insert_result insert_session].
    rewrite existsb_app. cbn [existsb session_id].
    rewrite String.eqb_refl. apply orb_true_iff. right. reflexivity. }
  assert (Hres3 : has_result (w_db w3) (nth_id "res" w 3) = false).
  { cbn [w_db w3 set_db]. rewrite has_result_insert_result.
    cbn [result_id]. unfold has_result at 1.
    cbn [round_results insert_session]. rewrite Hr1.
    fold (has_result (w_db w) (nth_id "res" w 3)). rewrite Hr3, H23.
    reflexivity. }
  unfold run_level2. unfold mbind at 1. unfold lift at 1. rewrite Hl2.
  unfold mbind at 1.
  rewrite (save_round_result_run sid 2 _ _ _
             (SqlText (py_str (technical_of payload))));
    [| reflexivity | reflexivity | rewrite Hid3; exact Hres3 | exact Hsess3].
  rewrite Hp2. cbn [negb]. rewrite Hid3.
  unfold run_level3. unfold mbind at 1. unfold lift at 1. rewrite Hl3.
  unfold mbind at 1.
  rewrite (save_round_result_unbound _ 3 _ _ (scenario_of payload) e);
    [| reflexivity | exact Esc].
  exists e. do 4 eexists.
  split; [reflexivity |]. split; [reflexivity |].
  cbn [w_db w3 set_db tick draw insert_result insert_session candidates
       sessions round_results].
  split.
  { unfold find_session. cbn [sessions].
    apply find_app_fresh;
      [unfold has_session in Hs; rewrite Hs1; exact Hs
      | cbn [session_id]; apply String.eqb_refl]. }
  cbn [status final_score final_decision completed_at].
  do 4 (split; [reflexivity |]).
  split.
  { unfold results_of.
    cbn [round_results insert_result insert_session].
    rewrite !filter_app, Hr1.
    fold (results_of (w_db w) sid).
    rewrite (fresh_session_no_results _ _ Hfk Hs).
    cbn [filter res_session_id app]. rewrite String.eqb_refl. reflexivity. }
  cbn [round_no]. split; reflexivity.
Qed.

End PipelineRaises.

Section ClaimsRefuted.

Local Open Scope R_scope.

(** C3 does not hold for every payload: with a list as resume_text
    Level 1 does not pass, yet the run raises when it saves the Level 1
    result; the session is not completed, it has no decision and no round
    result. *)
Lemma level1_failure_not_always_rejected :
  exists l1 e w' row,
    level1_screen (resume_of list_resume_payload) = Ok l1
    /\ pass l1 = false
    /\ evaluate_candidate (fun _ => "{}"%string) list_resume_payload demo_world
       = (Raise e, w')
    /\ find_session (w_db w') "sess_1c0ffee5eed1" = Some row
    /\ status row = "IN_PROGRESS"%string
    /\ final_decision row = None
    /\ results_of (w_db w') "sess_1c0ffee5eed1" = []
    /\ ~ (status row = "COMPLETED"%string
          /\ final_decision row = Some "REJECT"%string
          /\ List.length (results_of (w_db w') "sess_1c0ffee5eed1") = 1%nat).
Proof.
  exists {| pass := false; score := 0.0; reason := "Invalid input" |}.
  exists ProgrammingError.
  exists (snd (evaluate_candidate (fun _ => "{}"%string) list_resume_payload
                 demo_world)).
  exists (mk_session "sess_1c0ffee5eed1" "cand_0c0ffee5eed1" "IN_PROGRESS"
            None None "2024-05-17T10:00:01Z" None).
  do 7 (split; [reflexivity |]).
  cbn [status]. intros [H _]. discriminate H.
Qed.

(** C4 does not hold for every payload: with a list as scenario_answer
    Level 1 and Level 2 pass and Level 3 returns its "Invalid input"
    result, yet the run raises when it saves that result; the session is
    not completed, it has no decision, and two round results are stored
    instead of three. *)
Lemma level3_outcome_not_always_decided :
  exists l1 l2 l3 e w' row,
    level1_screen (resume_of list_scenario_payload) = Ok l1
    /\ pass l1 = true
    /\ level2_technical (technical_of list_scenario_payload) = Ok l2
    /\ l2_pass l2 = true
    /\ level3_scenario (scenario_of list_scenario_payload) = Ok l3
    /\ evaluate_candidate (fun _ => "{}"%string) list_scenario_payload
         demo_world
       = (Raise e, w')
    /\ find_session (w_db w') "sess_1c0ffee5eed1" = Some row
    /\ status row = "IN_PROGRESS"%string
    /\ final_decision row = None
    /\ List.length (results_of (w_db w') "sess_1c0ffee5eed1") = 2%nat
    /\ ~ (status row = "COMPLETED"%string
          /\ final_decision row = Some (if pass l3 then "HIRE" else "HOLD")%string
          /\ List.length (results_of (w_db w') "sess_1c0ffee5eed1") = 3%nat).
Proof.
  destruct (unbindable_scenario_run (fun _ => "{}"%string)
              list_scenario_payload demo_world
              {| pass := true; score := 100; reason := "OK" |}
              {| l2_pass := true; prob_pass := 0.5; l2_reason := "OK" |})
    as (e & w' & row & r1 & r2 & Hl3 & Hrun & Hfind & Hst & _ & Hdec & _
        & Hres & _);
    try (vm_compute; reflexivity).
  - exact ex1_level1.
  - exact level2_ex2.
  - eexists. eexists. eexists. exists e, w', row.
    split; [exact ex1_level1 |]. split; [reflexivity |].
    split; [exact level2_ex2 |]. split; [reflexivity |].
    split; [exact Hl3 |]. split; [exact Hrun |].
    change "sess_1c0ffee5eed1"%string with (nth_id "sess" demo_world 1).
    split; [exact Hfind |]. split; [exact Hst |]. split; [exact Hdec |].
    rewrite Hres. split; [reflexivity |].
    rewrite Hst. intros [H _]. discriminate H.
Qed.

End ClaimsRefuted.
